(** * Request processing pipeline: compliance evaluation, categorisation,
      slot allocation and the per-message worker

    A shallow embedding of the Python services
    [app/services/rag_service.py], [app/services/llm_service.py],
    [app/services/appointment_service.py] and of the Celery task
    [app/workers/email_worker.py : process_email_task], with the body
    selection of [app/services/email_service.py] and the read-only
    handlers of [app/api/routes.py] that look rows up by key or count
    them.

    Conventions of the embedding.
    - Python [str] is a Rocq [string] (a byte sequence).  [str.lower] maps
      the ASCII letters A-Z to a-z and leaves every other byte alone,
      [str.strip] and the regex class [\s] use the ASCII white space
      characters, [\d] the ASCII digits.
    - A finite Python [float] is the rational number it holds ([Q]);
      [float] of a literal or an integer, the division of integers and
      the product of floats round to the nearest binary64 value.
    - The language model, the vector search, the PDF extractor and the
      clock are inputs (a record of collaborator answers); the database
      session is an explicit state whose writes always succeed, and a
      query without a complete order returns rows in insertion order.
    - A mail message is what the [email] package reports of it: the
      parts in the order of [walk()], each with its content type, its
      disposition and its decoded text.  A route handler is the function
      from the database to the value it returns or the HTTP error it
      raises. *)

From Stdlib Require Import List String Ascii Bool Arith ZArith QArith Lia Sorted.
From Stdlib Require DecimalString.
From Stdlib Require Import Permutation.
Import ListNotations.
Local Close Scope Q_scope.
Local Open Scope string_scope.
Local Open Scope list_scope.
Local Open Scope nat_scope.

(** ** Text primitives ([str] methods used by the services) *)

Module Text.

Definition dquote : ascii := "034"%char.
Definition backslash : ascii := "092"%char.
Definition newline : ascii := "010"%char.

Definition code (c : ascii) : nat := nat_of_ascii c.

(** [s] between double quotes. *)
Definition quoted (s : string) : string :=
  String dquote (s ++ String dquote EmptyString).

(** The classes of characters, in ASCII: the capital letters, the
    digits ([\d], [str.isdigit]) and the white space ([\s],
    [str.isspace]).  Python's classes also hold characters outside ASCII
    (other decimal digits, the no-break space); a property that depends
    on that is stated for text in ASCII ([is_ascii] below). *)
Definition is_upper (c : ascii) : bool := (65 <=? code c) && (code c <=? 90).
Definition is_digit (c : ascii) : bool := (48 <=? code c) && (code c <=? 57).
Definition is_space (c : ascii) : bool :=
  ((9 <=? code c) && (code c <=? 13)) || ((28 <=? code c) && (code c <=? 32)).

Definition lower_char (c : ascii) : ascii :=
  if is_upper c then ascii_of_nat (code c + 32) else c.

(** [s.lower()] *)
Fixpoint lower (s : string) : string :=
  match s with
  | EmptyString => EmptyString
  | String c r => String (lower_char c) (lower r)
  end.

(** Text made of ASCII characters only.  On such text [lower], [strip],
    the digits and the white space of this module are those of Python;
    outside it Python also lowers, strips and reads as digits characters
    that take several bytes here. *)
Fixpoint is_ascii (s : string) : bool :=
  match s with
  | EmptyString => true
  | String c r => (code c <? 128) && is_ascii r
  end.

(** [s.startswith(p)] *)
Definition startswith (p s : string) : bool := String.prefix p s.

(** [needle in hay] *)
Fixpoint contains (needle hay : string) : bool :=
  String.prefix needle hay ||
  match hay with
  | EmptyString => false
  | String _ r => contains needle r
  end.

(** [s.lstrip()], [s.rstrip()], [s.strip()] *)
Fixpoint lstrip (s : string) : string :=
  match s with
  | EmptyString => EmptyString
  | String c r => if is_space c then lstrip r else s
  end.

Fixpoint rstrip (s : string) : string :=
  match s with
  | EmptyString => EmptyString
  | String c r =>
      match rstrip r with
      | EmptyString => if is_space c then EmptyString else String c EmptyString
      | r' => String c r'
      end
  end.

Definition strip (s : string) : string := rstrip (lstrip s).

(** [s.endswith(p)] *)
Definition endswith (p s : string) : bool :=
  (String.length p <=? String.length s) &&
  String.eqb (String.substring (String.length s - String.length p) (String.length p) s) p.

(** [s.split(sep)] for a one-character separator *)
Fixpoint split (sep : ascii) (s : string) : list string :=
  match s with
  | EmptyString => [EmptyString]
  | String c r =>
      if Ascii.eqb c sep then EmptyString :: split sep r
      else match split sep r with
           | h :: t => String c h :: t
           | [] => [String c EmptyString]
           end
  end.

(** [sep.join(parts)] *)
Fixpoint join (sep : string) (parts : list string) : string :=
  match parts with
  | [] => EmptyString
  | [p] => p
  | p :: rest => (p ++ sep ++ join sep rest)%string
  end.

(** [x in xs] for a list of strings *)
Definition mem (x : string) (xs : list string) : bool :=
  existsb (String.eqb x) xs.

(** [any(k in text for k in keys)] *)
Definition any_in (keys : list string) (text : string) : bool :=
  existsb (fun k => contains k text) keys.

(** Decimal digits to a number. *)
Definition digit_val (c : ascii) : Z := Z.of_nat (code c - 48).

Fixpoint digits_acc (acc : Z) (s : string) : Z :=
  match s with
  | EmptyString => acc
  | String c r => digits_acc (10 * acc + digit_val c) r
  end.

Definition digits_val (s : string) : Z := digits_acc 0 s.

(** The longest prefix of digits, and what follows it. *)
Fixpoint span_digits (s : string) : string * string :=
  match s with
  | String c r =>
      if is_digit c then let (d, t) := span_digits r in (String c d, t)
      else (EmptyString, s)
  | EmptyString => (EmptyString, EmptyString)
  end.

(** The rational denoted by [int_part.frac_part * 10^exp]. *)
Definition decimal (neg : bool) (int_part frac_part : string) (exp : Z) : Q :=
  let mant := digits_val (int_part ++ frac_part)%string in
  let e := (exp - Z.of_nat (String.length frac_part))%Z in
  let m := if neg then (- mant)%Z else mant in
  if (0 <=? e)%Z then inject_Z (m * 10 ^ e)
  else Qmake m (Z.to_pos (10 ^ (- e))).

End Text.

(** ** Python values (what [json.loads] builds and the services pass on) *)

#[local] Set Warnings "-register-all".

Inductive pyfloat : Type :=
| Fin (q : Q)
| NaN
| PosInf
| NegInf.

(** ** Binary64 arithmetic

    A finite [float] is the rational it holds.  Conversions and
    operations give the nearest binary64 value, ties to even. *)

Module Float.

(** [num / den] rounded to the nearest integer, ties to even. *)
Definition round_half_even (num den : Z) : Z :=
  let qt := (num / den)%Z in
  let r := (num mod den)%Z in
  if (2 * r <? den)%Z then qt
  else if (den <? 2 * r)%Z then (qt + 1)%Z
  else if Z.even qt then qt else (qt + 1)%Z.

(** The exponent [e] with [2^e <= n / d < 2^(e+1)], for positive [n], [d]. *)
Definition floor_log2 (n d : Z) : Z :=
  let e0 := (Z.log2 n - Z.log2 d)%Z in
  let reached :=
    if (0 <=? e0)%Z then (d * 2 ^ e0 <=? n)%Z else (d <=? n * 2 ^ (- e0))%Z in
  if reached then e0 else (e0 - 1)%Z.

Definition round64 (q : Q) : pyfloat :=
  let n := Z.abs (Qnum q) in
  let d := Zpos (Qden q) in
  if (n =? 0)%Z then Fin 0
  else
    let e := floor_log2 n d in
    let p := Z.max (e - 52) (-1074) in
    let m :=
      if (0 <=? p)%Z then round_half_even n (d * 2 ^ p)
      else round_half_even (n * 2 ^ (- p)) d in
    let neg := (Qnum q <? 0)%Z in
    if (0 <=? p)%Z && (2 ^ 1024 <=? m * 2 ^ p)%Z then (if neg then NegInf else PosInf)
    else
      let s := if neg then (- m)%Z else m in
      Fin (Qred (if (0 <=? p)%Z then inject_Z (s * 2 ^ p)
                 else Qmake s (Z.to_pos (2 ^ (- p))))).

(** [x > 0.0] *)
Definition positive (x : pyfloat) : bool :=
  match x with
  | Fin q => negb (Qle_bool q 0)
  | PosInf => true
  | NegInf | NaN => false
  end.

Definition negate (x : pyfloat) : pyfloat :=
  match x with
  | Fin q => Fin (Qopp q)
  | PosInf => NegInf
  | NegInf => PosInf
  | NaN => NaN
  end.

(** [x * y] *)
Definition mul (x y : pyfloat) : pyfloat :=
  match x, y with
  | Fin a, Fin b => round64 (a * b)
  | NaN, _ | _, NaN => NaN
  | Fin a, inf | inf, Fin a =>
      if Qeq_bool a 0 then NaN
      else if Qle_bool a 0 then negate inf else inf
  | PosInf, PosInf | NegInf, NegInf => PosInf
  | PosInf, NegInf | NegInf, PosInf => NegInf
  end.

(** [a / b] for integers, [b] not zero. *)
Definition div_int (a b : Z) : pyfloat := round64 (inject_Z a / inject_Z b).

(** [max(0.0, x)] *)
Definition max0 (x : pyfloat) : pyfloat := if positive x then x else Fin 0.

End Float.

Inductive pyval : Type :=
| PNone
| PBool (b : bool)
| PInt (z : Z)
| PFloat (f : pyfloat)
| PStr (s : string)
| PList (l : list pyval)
| PDict (d : list (string * pyval)).

Module Py.

Definition dict := list (string * pyval).

(** [key in d] *)
Definition has_key (d : dict) (k : string) : bool :=
  existsb (fun kv => String.eqb (fst kv) k) d.

(** [d.get(k)] *)
Fixpoint lookup (d : dict) (k : string) : option pyval :=
  match d with
  | [] => None
  | (k', v) :: r => if String.eqb k' k then Some v else lookup r k
  end.

(** [d.get(k, default)] *)
Definition get (d : dict) (k : string) (default : pyval) : pyval :=
  match lookup d k with
  | Some v => v
  | None => default
  end.

(** [d[k] = v]: an existing key keeps its place *)
Fixpoint set (d : dict) (k : string) (v : pyval) : dict :=
  match d with
  | [] => [(k, v)]
  | (k', v') :: r =>
      if String.eqb k' k then (k, v) :: r else (k', v') :: set r k v
  end.

Definition float_truthy (f : pyfloat) : bool :=
  match f with
  | Fin q => negb (Qeq_bool q 0)
  | _ => true
  end.

(** [bool(v)] *)
Definition truthy (v : pyval) : bool :=
  match v with
  | PNone => false
  | PBool b => b
  | PInt z => negb (z =? 0)%Z
  | PFloat f => float_truthy f
  | PStr s => negb (String.eqb s EmptyString)
  | PList l => match l with [] => false | _ => true end
  | PDict d => match d with [] => false | _ => true end
  end.

Definition strs (l : list string) : pyval := PList (map PStr l).

Definition float (q : Q) : pyval := PFloat (Fin q).

(** The characters of a string, as Python iterates over it. *)
Fixpoint chars (s : string) : list string :=
  match s with
  | EmptyString => []
  | String c r => String c EmptyString :: chars r
  end.

Fixpoint lower_strs (l : list pyval) : option (list string) :=
  match l with
  | [] => Some []
  | PStr s :: r =>
      match lower_strs r with
      | Some t => Some (Text.lower s :: t)
      | None => None
      end
  | _ :: _ => None
  end.

(** [[p.lower() for p in v]]: [None] when Python raises (a value that
    cannot be iterated, or an element without [.lower]). *)
Definition lowered (v : pyval) : option (list string) :=
  match v with
  | PList l => lower_strs l
  | PStr s => Some (map Text.lower (chars s))
  | PDict d => Some (map (fun kv => Text.lower (fst kv)) d)
  | _ => None
  end.

(** [v.append(x)]: only lists have it. *)
Definition append (v x : pyval) : option pyval :=
  match v with
  | PList l => Some (PList (l ++ [x]))
  | _ => None
  end.

(** [type(v).__name__] *)
Definition type_name (v : pyval) : string :=
  match v with
  | PNone => "NoneType"
  | PBool _ => "bool"
  | PInt _ => "int"
  | PFloat _ => "float"
  | PStr _ => "str"
  | PList _ => "list"
  | PDict _ => "dict"
  end.

(** The first element of a list that is not a string. *)
Fixpoint first_without_lower (l : list pyval) : option pyval :=
  match l with
  | [] => None
  | PStr _ :: r => first_without_lower r
  | x :: _ => Some x
  end.

(** [str(e)] of the exception [[p.lower() for p in v]] raises: a
    [TypeError] for a value that cannot be iterated, an [AttributeError]
    for the first element without [.lower]. *)
Definition lowered_error (v : pyval) : string :=
  match v with
  | PList l =>
      match first_without_lower l with
      | Some x => ("'" ++ type_name x ++ "' object has no attribute 'lower'")%string
      | None => EmptyString
      end
  | _ => ("'" ++ type_name v ++ "' object is not iterable")%string
  end.

(** [str(e)] of the [AttributeError] [v.append(x)] raises. *)
Definition append_error (v : pyval) : string :=
  ("'" ++ type_name v ++ "' object has no attribute 'append'")%string.

End Py.

(** ** [json.loads]

    The decoder of Python's standard library, by recursive descent:
    objects, arrays, strings with their escapes, numbers, [true],
    [false], [null] and the three extra literals [NaN], [Infinity],
    [-Infinity].  [None] stands for [JSONDecodeError].  A [\uXXXX] escape
    is stored as the UTF-8 bytes of its code point; a high surrogate that
    is followed by the escape of a low surrogate makes one code point
    with it, and a surrogate that stands alone is stored as the three
    bytes the same scheme gives.  The functions recurse on a fuel;
    [loads] gives them more than they can use ([loads_fuel]). *)

Module Json.

Definition is_ws (c : ascii) : bool :=
  match Text.code c with
  | 32 | 9 | 10 | 13 => true
  | _ => false
  end.

Fixpoint skip_ws (s : string) : string :=
  match s with
  | String c r => if is_ws c then skip_ws r else s
  | EmptyString => EmptyString
  end.

Definition hex_val (c : ascii) : option nat :=
  let n := Text.code c in
  if (48 <=? n) && (n <=? 57) then Some (n - 48)
  else if (97 <=? n) && (n <=? 102) then Some (n - 87)
  else if (65 <=? n) && (n <=? 70) then Some (n - 55)
  else None.

Definition hex4 (a b c d : ascii) : option nat :=
  match hex_val a, hex_val b, hex_val c, hex_val d with
  | Some x, Some y, Some z, Some w => Some (((x * 16 + y) * 16 + z) * 16 + w)
  | _, _, _, _ => None
  end.

Definition utf8 (n : nat) : string :=
  if n <? 128 then String (ascii_of_nat n) EmptyString
  else if n <? 2048 then
    String (ascii_of_nat (192 + n / 64))
      (String (ascii_of_nat (128 + n mod 64)) EmptyString)
  else if n <? 256 * 256 then
    String (ascii_of_nat (224 + n / 4096))
      (String (ascii_of_nat (128 + (n / 64) mod 64))
         (String (ascii_of_nat (128 + n mod 64)) EmptyString))
  else
    String (ascii_of_nat (240 + n / (64 * 4096)))
      (String (ascii_of_nat (128 + (n / 4096) mod 64))
         (String (ascii_of_nat (128 + (n / 64) mod 64))
            (String (ascii_of_nat (128 + n mod 64)) EmptyString))).

(** [0xD800 <= n <= 0xDBFF], [0xDC00 <= n <= 0xDFFF] and
    [0x10000 + ((high - 0xD800) << 10 | (low - 0xDC00))]. *)
Definition is_high_surrogate (n : nat) : bool := (216 * 256 <=? n) && (n <? 220 * 256).
Definition is_low_surrogate (n : nat) : bool := (220 * 256 <=? n) && (n <? 224 * 256).
Definition join_surrogates (high low : nat) : nat :=
  256 * 256 + (high - 216 * 256) * 1024 + (low - 220 * 256).

Definition unescape (c : ascii) : option ascii :=
  match Text.code c with
  | 34 => Some Text.dquote
  | 92 => Some Text.backslash
  | 47 => Some "/"%char
  | 98 => Some "008"%char
  | 102 => Some "012"%char
  | 110 => Some "010"%char
  | 114 => Some "013"%char
  | 116 => Some "009"%char
  | _ => None
  end.

Definition cons_res (p : string) (r : option (string * string)) :
  option (string * string) :=
  match r with
  | Some (body, rest) => Some ((p ++ body)%string, rest)
  | None => None
  end.

(** The body of a string, after its opening quote. *)
Fixpoint scan_string (s : string) : option (string * string) :=
  match s with
  | EmptyString => None
  | String c r =>
      if Ascii.eqb c Text.dquote then Some (EmptyString, r)
      else if Ascii.eqb c Text.backslash then
        match r with
        | String e r1 =>
            if Ascii.eqb e "u"%char then
              match r1 with
              | String h1 (String h2 (String h3 (String h4 r2))) =>
                  match hex4 h1 h2 h3 h4 with
                  | Some n =>
                      match r2 with
                      | String b (String u
                          (String l1 (String l2 (String l3 (String l4 r3))))) =>
                          match
                            (if is_high_surrogate n && Ascii.eqb b Text.backslash &&
                                Ascii.eqb u "u"%char
                             then hex4 l1 l2 l3 l4 else None)
                          with
                          | Some low =>
                              if is_low_surrogate low then
                                cons_res (utf8 (join_surrogates n low)) (scan_string r3)
                              else cons_res (utf8 n) (scan_string r2)
                          | None => cons_res (utf8 n) (scan_string r2)
                          end
                      | _ => cons_res (utf8 n) (scan_string r2)
                      end
                  | None => None
                  end
              | _ => None
              end
            else
              match unescape e with
              | Some ch => cons_res (String ch EmptyString) (scan_string r1)
              | None => None
              end
        | EmptyString => None
        end
      else if Text.code c <? 32 then None
      else cons_res (String c EmptyString) (scan_string r)
  end.

(** The decoder's number: an optional minus sign, an integer part
    without leading zero, an optional fraction, an optional exponent. *)
Definition scan_int_part (s : string) : option (string * string) :=
  match s with
  | String c r =>
      if Ascii.eqb c "0"%char then Some (String c EmptyString, r)
      else if Text.is_digit c then Some (Text.span_digits s)
      else None
  | EmptyString => None
  end.

Definition scan_frac (s : string) : option (string * string) :=
  match s with
  | String c r =>
      if Ascii.eqb c "."%char then
        match Text.span_digits r with
        | (EmptyString, _) => None
        | (d, t) => Some (d, t)
        end
      else None
  | EmptyString => None
  end.

Definition scan_exp (s : string) : option (Z * string) :=
  match s with
  | String c r =>
      if Ascii.eqb c "e"%char || Ascii.eqb c "E"%char then
        let '(neg, r1) :=
          match r with
          | String sg r' =>
              if Ascii.eqb sg "-"%char then (true, r')
              else if Ascii.eqb sg "+"%char then (false, r')
              else (false, r)
          | EmptyString => (false, r)
          end in
        match Text.span_digits r1 with
        | (EmptyString, _) => None
        | (d, t) =>
            Some (if neg then (- Text.digits_val d)%Z else Text.digits_val d, t)
        end
      else None
  | EmptyString => None
  end.

Definition scan_number (s : string) : option (pyval * string) :=
  let '(neg, s1) :=
    match s with
    | String c r => if Ascii.eqb c "-"%char then (true, r) else (false, s)
    | EmptyString => (false, s)
    end in
  match scan_int_part s1 with
  | None => None
  | Some (ip, s2) =>
      match scan_frac s2, scan_exp s2 with
      | None, None =>
          Some (PInt (if neg then (- Text.digits_val ip)%Z else Text.digits_val ip), s2)
      | None, Some (e, s3) =>
          Some (PFloat (Float.round64 (Text.decimal neg ip EmptyString e)), s3)
      | Some (fp, s3), _ =>
          match scan_exp s3 with
          | Some (e, s4) => Some (PFloat (Float.round64 (Text.decimal neg ip fp e)), s4)
          | None => Some (PFloat (Float.round64 (Text.decimal neg ip fp 0)), s3)
          end
      end
  end.

(** [s] with the prefix [p] removed, when it starts with it. *)
Fixpoint drop_prefix (p s : string) : option string :=
  match p, s with
  | EmptyString, _ => Some s
  | String a p', String b s' => if Ascii.eqb a b then drop_prefix p' s' else None
  | String _ _, EmptyString => None
  end.

Definition scan_literal (s : string) : option (pyval * string) :=
  match drop_prefix "null" s with
  | Some r => Some (PNone, r)
  | None =>
  match drop_prefix "true" s with
  | Some r => Some (PBool true, r)
  | None =>
  match drop_prefix "false" s with
  | Some r => Some (PBool false, r)
  | None =>
  match scan_number s with
  | Some res => Some res
  | None =>
  match drop_prefix "NaN" s with
  | Some r => Some (PFloat NaN, r)
  | None =>
  match drop_prefix "Infinity" s with
  | Some r => Some (PFloat PosInf, r)
  | None =>
  match drop_prefix "-Infinity" s with
  | Some r => Some (PFloat NegInf, r)
  | None => None
  end end end end end end end.

(** [scan_once], [JSONObject] and [JSONArray] of the decoder. *)
Fixpoint scan_once (fuel : nat) (s : string) : option (pyval * string) :=
  match fuel with
  | O => None
  | S f =>
      match s with
      | String c r =>
          if Ascii.eqb c Text.dquote then
            match scan_string r with
            | Some (body, rest) => Some (PStr body, rest)
            | None => None
            end
          else if Ascii.eqb c "{"%char then
            match skip_ws r with
            | String c1 r1 =>
                if Ascii.eqb c1 "}"%char then Some (PDict [], r1)
                else scan_members f (String c1 r1) []
            | EmptyString => None
            end
          else if Ascii.eqb c "["%char then
            match skip_ws r with
            | String c1 r1 =>
                if Ascii.eqb c1 "]"%char then Some (PList [], r1)
                else scan_elements f (String c1 r1) []
            | EmptyString => None
            end
          else scan_literal s
      | EmptyString => None
      end
  end
with scan_members (fuel : nat) (s : string) (acc : Py.dict) :
  option (pyval * string) :=
  match fuel with
  | O => None
  | S f =>
      match s with
      | String c r =>
          if Ascii.eqb c Text.dquote then
            match scan_string r with
            | Some (key, r1) =>
                match skip_ws r1 with
                | String c2 r2 =>
                    if Ascii.eqb c2 ":"%char then
                      match scan_once f (skip_ws r2) with
                      | Some (v, r3) =>
                          let acc' := Py.set acc key v in
                          match skip_ws r3 with
                          | String c4 r4 =>
                              if Ascii.eqb c4 "}"%char then Some (PDict acc', r4)
                              else if Ascii.eqb c4 ","%char then
                                scan_members f (skip_ws r4) acc'
                              else None
                          | EmptyString => None
                          end
                      | None => None
                      end
                    else None
                | EmptyString => None
                end
            | None => None
            end
          else None
      | EmptyString => None
      end
  end
with scan_elements (fuel : nat) (s : string) (acc : list pyval) :
  option (pyval * string) :=
  match fuel with
  | O => None
  | S f =>
      match scan_once f s with
      | Some (v, r1) =>
          match skip_ws r1 with
          | String c2 r2 =>
              if Ascii.eqb c2 "]"%char then Some (PList (acc ++ [v]), r2)
              else if Ascii.eqb c2 ","%char then
                scan_elements f (skip_ws r2) (acc ++ [v])
              else None
          | EmptyString => None
          end
      | None => None
      end
  end.

(** [json.loads(s)]: one value, white space around it, nothing else. *)
Definition loads (s : string) : option pyval :=
  match scan_once (2 * String.length s + 2) (skip_ws s) with
  | Some (v, rest) =>
      match skip_ws rest with
      | EmptyString => Some v
      | String _ _ => None
      end
  | None => None
  end.

End Json.

(** ** Regular expressions

    The patterns of the services are built from a few backtracking
    matchers in continuation style: a matcher receives the text at the
    current position and the continuation for what follows it. *)

Module Re.

Section Matchers.
Context {R : Type}.
Definition cont := string -> option R.

(** A literal. *)
Definition lit (p : string) (k : cont) : cont :=
  fun s => match Json.drop_prefix p s with
           | Some r => k r
           | None => None
           end.

(** [.*?] under [re.DOTALL]: the shortest skip first. *)
Fixpoint lazy_dot (k : cont) (s : string) : option R :=
  match k s with
  | Some r => Some r
  | None =>
      match s with
      | String _ t => lazy_dot k t
      | EmptyString => None
      end
  end.

(** [.*] under [re.DOTALL]: the longest skip first. *)
Fixpoint greedy_dot (k : cont) (s : string) : option R :=
  match s with
  | String _ t =>
      match greedy_dot k t with
      | Some r => Some r
      | None => k s
      end
  | EmptyString => k s
  end.

(** [[class]*], greedy. *)
Fixpoint star (p : ascii -> bool) (k : cont) (s : string) : option R :=
  match s with
  | String c t =>
      if p c then
        match star p k t with
        | Some r => Some r
        | None => k s
        end
      else k s
  | EmptyString => k s
  end.

(** [[class]+], greedy. *)
Definition plus (p : ascii -> bool) (k : cont) : cont :=
  fun s => match s with
           | String c t => if p c then star p k t else None
           | EmptyString => None
           end.

(** [(?:m)?], greedy. *)
Definition opt (m : cont -> cont) (k : cont) : cont :=
  fun s => match m k s with
           | Some r => Some r
           | None => k s
           end.

(** A capturing group: the continuation also gets the text [m] took. *)
Definition capture (m : cont -> cont) (k : string -> cont) : cont :=
  fun s =>
    m (fun rest =>
         k (String.substring 0 (String.length s - String.length rest) s) rest) s.

(** [re.search]: the leftmost position where the pattern matches. *)
Definition search (pattern : cont) (s : string) : option R :=
  lazy_dot pattern s.
End Matchers.

(** [re.search(pattern, s).group()] for a pattern without groups: the
    continuation reports what is left, the match is what was taken. *)
Fixpoint search_text (pattern : @cont string -> @cont string) (s : string) :
  option string :=
  match pattern Some s with
  | Some rest =>
      Some (String.substring 0 (String.length s - String.length rest) s)
  | None =>
      match s with
      | String _ t => search_text pattern t
      | EmptyString => None
      end
  end.

Definition not_brace (c : ascii) : bool :=
  negb (Ascii.eqb c "{"%char || Ascii.eqb c "}"%char).

(** The class of a score pattern: a double quote, white space or a colon. *)
Definition quote_space_colon (c : ascii) : bool :=
  Ascii.eqb c Text.dquote || Text.is_space c || Ascii.eqb c ":"%char.

(** The group [(\d+(?:\.\d+)?)]. *)
Definition number {R} (k : string -> @cont R) : @cont R :=
  capture (fun k' => plus Text.is_digit (opt (fun k2 => lit "." (plus Text.is_digit k2)) k')) k.

(** [float(group)] for a group matched by [number]. *)
Definition float_of_group (g : string) : pyfloat :=
  match Text.split "."%char g with
  | [ip] => Float.round64 (Text.decimal false ip EmptyString 0)
  | ip :: fp :: _ => Float.round64 (Text.decimal false ip fp 0)
  | [] => Fin 0
  end.

End Re.

(** ** Exceptions
    [Raised e] is an exception with [str(e) = e], the text the task
    returns and stores. *)

Inductive result (A : Type) : Type :=
| Ok (a : A)
| Raised (e : string).
Arguments Ok {A} a.
Arguments Raised {A} e.

Definition bind {A B : Type} (r : result A) (f : A -> result B) : result B :=
  match r with
  | Ok a => f a
  | Raised e => Raised e
  end.

Notation "x <- c1 ;; c2" := (bind c1 (fun x => c2))
  (at level 61, c1 at next level, right associativity).

(** ** [app/services/rag_service.py] *)

Module RagService.

(** One entry of [vector_db.search_similar]. *)
Record hit : Type := { hit_id : string; hit_document : string }.

(** The collaborators of the service: the vector search and the model.
    [llm_invoke combined_text guidelines_context] is the model's answer
    to the fixed prompt with its two fields filled in. *)
Record collaborators : Type := {
  search_similar : string -> nat -> option string -> result (list hit);
  llm_invoke : string -> string -> result string
}.

(** The dictionary [compare_with_guidelines] returns. *)
Record verdict : Type := {
  is_compliant : pyval;
  compliance_score : pyval;
  present_documents : pyval;
  missing_documents : pyval;
  required_documents : pyval;
  issues : pyval;
  analysis : string;
  relevant_guidelines : list string
}.

Definition bullet : string :=
  String "226"%char (String "128"%char (String "162"%char EmptyString)).

(** One turn of the loop over the guideline's lines; the state is
    [(required_docs, in_requirements_section)]. *)
Definition extract_line (st : list string * bool) (line : string) :
  list string * bool :=
  let '(required_docs, in_requirements_section) := st in
  let line_lower := Text.strip (Text.lower line) in
  if Text.contains "required" line_lower &&
     (Text.contains "document" line_lower || Text.contains "valid" line_lower)
  then (required_docs, true)
  else if in_requirements_section &&
          (Text.startswith "-" (Text.strip line) ||
           Text.startswith bullet (Text.strip line))
  then
    if Text.contains "passport" line_lower &&
       negb (Text.mem "passport" (map Text.lower required_docs))
    then (required_docs ++ ["passport"], in_requirements_section)
    else st
  else st.

Definition _extract_required_documents_from_guideline
  (guideline_text : string) : list string :=
  if String.eqb guideline_text EmptyString then []
  else
    let guideline_lower := Text.lower guideline_text in
    let lines := Text.split Text.newline guideline_text in
    let required_docs := fst (fold_left extract_line lines ([], false)) in
    match required_docs with
    | [] =>
        if Text.contains "passport" guideline_lower then
          if Text.contains "required" guideline_lower ||
             Text.contains "-" guideline_text
          then required_docs ++ ["passport"]
          else required_docs
        else required_docs
    | _ :: _ => required_docs
    end.

(** The three patterns tried on the model's answer. *)
Definition needle : string := Text.quoted "is_compliant".

Definition json_patterns : list (@Re.cont string -> @Re.cont string) :=
  [ (fun k => Re.lit "{" (Re.star Re.not_brace
               (Re.lit needle (Re.star Re.not_brace (Re.lit "}" k)))));
    (fun k => Re.lit "{" (Re.lazy_dot
               (Re.lit needle (Re.lazy_dot (Re.lit "}" k)))));
    (fun k => Re.lit "{" (Re.lazy_dot (Re.lit "}" k))) ].

(** What [parsed["is_compliant"]] is replaced by. *)
Definition normalise_flag (v : pyval) : pyval :=
  match v with
  | PBool b => PBool b
  | PStr s => PBool (Text.mem (Text.lower s) ["true"; "yes"; "1"; "compliant"])
  | _ => PBool (Py.truthy v)
  end.

(** The body of the loop over [json_patterns]: [Some parsed] when it
    returns, [None] when it goes on to the next pattern. *)
Definition try_pattern (pattern : @Re.cont string -> @Re.cont string)
  (analysis_text : string) : option Py.dict :=
  match Re.search_text pattern analysis_text with
  | Some matched =>
      match Json.loads matched with
      | Some (PDict parsed) =>
          match Py.lookup parsed "is_compliant" with
          | Some flag => Some (Py.set parsed "is_compliant" (normalise_flag flag))
          | None => None
          end
      | _ => None
      end
  | None => None
  end.

Fixpoint first_parsed (patterns : list (@Re.cont string -> @Re.cont string))
  (analysis_text : string) : option Py.dict :=
  match patterns with
  | [] => None
  | p :: rest =>
      match try_pattern p analysis_text with
      | Some parsed => Some parsed
      | None => first_parsed rest analysis_text
      end
  end.

Definition negative_indicators : list string :=
  [ "not compliant"; "non-compliant"; "non compliant";
    "missing"; "incomplete"; "insufficient";
    "does not meet"; "doesn't meet"; "fails to";
    "rejected"; "rejection"; "cannot be approved" ].

Definition positive_indicators : list string :=
  [ "is compliant"; "fully compliant"; "meets requirements";
    "all required"; "complete"; "sufficient";
    "approved"; "acceptable"; "valid" ].

Definition flag_is (word : string) : @Re.cont unit :=
  Re.lit "is_compliant" (Re.star Re.quote_space_colon (Re.lit word (fun _ => Some tt))).

Definition matches (pattern : @Re.cont unit) (s : string) : bool :=
  match Re.search pattern s with
  | Some _ => true
  | None => false
  end.

(** The keyword classification of the fallback. *)
Definition fallback_flag (text_lower : string) : bool :=
  let has_negative := Text.any_in negative_indicators text_lower in
  let has_positive := Text.any_in positive_indicators text_lower in
  if has_negative && negb has_positive then false
  else if has_positive && negb has_negative then true
  else if Text.contains "is_compliant" text_lower ||
          Text.contains needle text_lower then
    if matches (flag_is "true") text_lower then true
    else if matches (flag_is "false") text_lower then false
    else false
  else
    if Text.contains "not compliant" text_lower ||
       Text.contains "non-compliant" text_lower then false
    else if Text.contains "compliant" text_lower then true
    else false.

(** The four score patterns, with the digits and the white space of
    ASCII. *)
Definition score_patterns : list (@Re.cont pyfloat) :=
  let found := fun g (_ : string) => Some (Re.float_of_group g) in
  [ Re.lit (Text.quoted "compliance_score")
      (Re.star Text.is_space (Re.lit ":" (Re.star Text.is_space (Re.number found))));
    Re.lit "compliance_score" (Re.star Re.quote_space_colon (Re.number found));
    Re.lit "score" (Re.star Re.quote_space_colon (Re.number found));
    Re.number (fun g => Re.star Text.is_space (Re.lit "%" (found g))) ].

(** The loop over [score_patterns]: the first match that lies in
    0..100, if there is one. *)
Fixpoint extract_score (patterns : list (@Re.cont pyfloat)) (text_lower : string) :
  option Q :=
  match patterns with
  | [] => None
  | p :: rest =>
      match Re.search p text_lower with
      | Some (Fin score) =>
          if Qle_bool 0 score && Qle_bool score 100 then Some score
          else extract_score rest text_lower
      | _ => extract_score rest text_lower
      end
  end.

Definition Qlt_bool (a b : Q) : bool := negb (Qle_bool b a).

Definition fallback_score (is_compliant : bool) (text_lower : string) : Q :=
  let compliance_score :=
    match extract_score score_patterns text_lower with
    | Some score => score
    | None => 50%Q
    end in
  if is_compliant && Qlt_bool compliance_score 50 then 100%Q
  else if negb is_compliant && Qlt_bool 50 compliance_score then 30%Q
  else compliance_score.

Definition _parse_compliance_analysis (analysis_text : string) : Py.dict :=
  match first_parsed json_patterns analysis_text with
  | Some parsed => parsed
  | None =>
      let text_lower := Text.lower analysis_text in
      let is_compliant := fallback_flag text_lower in
      let compliance_score := fallback_score is_compliant text_lower in
      [ ("is_compliant", PBool is_compliant);
        ("compliance_score", Py.float compliance_score);
        ("present_documents", PList []);
        ("missing_documents", PList []);
        ("required_documents", PList []);
        ("issues", PList [PStr analysis_text]) ]
  end.

Definition passport_keywords : list string :=
  [ "passport"; "passport number"; "passport no"; "passport #";
    "passport id"; "passport document"; "travel document";
    "passport page"; "passport copy"; "passport details" ].

Definition nl : string := String Text.newline EmptyString.
Definition blank_line : string := (nl ++ nl)%string.
Definition rule : string := (nl ++ nl ++ "---" ++ nl ++ nl)%string.

(** The grounding context: the first passage is marked as primary when
    there are several. *)
Definition guidelines_context (guideline_texts : list string) : string :=
  match guideline_texts with
  | primary_guideline :: (_ :: _) as other =>
      ("PRIMARY GUIDELINE (MOST RELEVANT - USE THIS FOR COMPLIANCE CHECK):" ++ nl ++
       primary_guideline ++ nl ++ nl ++ "---" ++ nl ++
       "OTHER GUIDELINES (FOR REFERENCE ONLY):" ++ nl ++
       Text.join rule other)%string
  | _ => Text.join rule guideline_texts
  end.

(** The score of the correction pass when documents are missing. *)
Definition partial_score (total_required missing_count : nat) : pyfloat :=
  if 0 <? total_required then
    Float.max0
      (Float.mul
         (Float.div_int (Z.of_nat total_required - Z.of_nat missing_count)
            (Z.of_nat total_required))
         (Fin 100))
  else Fin 0.

(** The keyword fallback on [present_docs]. *)
Definition add_passport_by_keyword (guideline_required_docs : list string)
  (combined_text_lower : string) (present_docs : pyval) : result pyval :=
  if Text.mem "passport" (map Text.lower guideline_required_docs) then
    let has_passport_keywords := Text.any_in passport_keywords combined_text_lower in
    if has_passport_keywords then
      match Py.lowered present_docs with
      | None => Raised (Py.lowered_error present_docs)
      | Some lowered =>
          if negb (Text.mem "passport" lowered) then
            match Py.append present_docs (PStr "passport") with
            | Some extended => Ok extended
            | None => Raised (Py.append_error present_docs)
            end
          else Ok present_docs
      end
    else Ok present_docs
  else Ok present_docs.

(** [[doc for doc in required if doc.lower() not in [p.lower() for p in present]]] *)
Definition missing_from (guideline_required_docs : list string)
  (present_docs : pyval) : result (list string) :=
  match guideline_required_docs with
  | [] => Ok []
  | _ :: _ =>
      match Py.lowered present_docs with
      | None => Raised (Py.lowered_error present_docs)
      | Some lowered =>
          Ok (filter (fun doc => negb (Text.mem (Text.lower doc) lowered))
                guideline_required_docs)
      end
  end.

(** The correction pass, entered when the guideline extraction is not
    empty. *)
Definition correction_pass (student_text : string) (student_documents : list string)
  (guideline_required_docs : list string) (compliance_data : Py.dict) :
  result Py.dict :=
  let compliance_data :=
    Py.set compliance_data "required_documents" (Py.strs guideline_required_docs) in
  let present_docs := Py.get compliance_data "present_documents" (PList []) in
  let combined_text_lower :=
    Text.lower (student_text ++ " " ++ Text.join " " student_documents)%string in
  present_docs <-
    add_passport_by_keyword guideline_required_docs combined_text_lower present_docs ;;
  let compliance_data := Py.set compliance_data "present_documents" present_docs in
  missing <- missing_from guideline_required_docs present_docs ;;
  let compliance_data := Py.set compliance_data "missing_documents" (Py.strs missing) in
  let compliant := List.length missing =? 0 in
  let compliance_data := Py.set compliance_data "is_compliant" (PBool compliant) in
  let score :=
    if compliant then Fin 100
    else partial_score (List.length guideline_required_docs) (List.length missing) in
  Ok (Py.set compliance_data "compliance_score" (PFloat score)).

(** The retrieval step: one guideline by name for a residence permit
    extension, the three best passages otherwise. *)
Definition combined (student_text : string) (student_documents : list string) :
  string :=
  (student_text ++ blank_line ++ Text.join blank_line student_documents)%string.

Definition retrieve (ext : collaborators) (student_text : string)
  (student_documents : list string) (request_type : option string) :
  result (list hit) :=
  let combined_text := combined student_text student_documents in
  let guideline_name :=
    match request_type with
    | Some t =>
        if negb (String.eqb t EmptyString) &&
           Text.contains "residence_permit" (Text.lower t) &&
           Text.contains "extension" (Text.lower t)
        then Some "residence_permit.txt"
        else None
    | None => None
    end in
  match guideline_name with
  | Some name => search_similar ext combined_text 1 (Some name)
  | None => search_similar ext combined_text 3 None
  end.

(** [guideline_texts[0] if guideline_texts else ""] *)
Definition primary_text (relevant : list hit) : string :=
  match map hit_document relevant with
  | first :: _ => first
  | [] => EmptyString
  end.

(** What follows the model's answer: parsing, the correction pass and
    the dictionary returned. *)
Definition merge_judgment (student_text : string) (student_documents : list string)
  (relevant : list hit) (analysis_text : string) : result verdict :=
  let compliance_data := _parse_compliance_analysis analysis_text in
  let guideline_required_docs :=
    _extract_required_documents_from_guideline (primary_text relevant) in
  compliance_data <-
    match guideline_required_docs with
    | _ :: _ =>
        correction_pass student_text student_documents guideline_required_docs
          compliance_data
    | [] => Ok compliance_data
    end ;;
  Ok {| is_compliant := Py.get compliance_data "is_compliant" (PBool false);
        compliance_score := Py.get compliance_data "compliance_score" (Py.float 0);
        present_documents := Py.get compliance_data "present_documents" (PList []);
        missing_documents := Py.get compliance_data "missing_documents" (PList []);
        required_documents := Py.get compliance_data "required_documents" (PList []);
        issues := Py.get compliance_data "issues" (PList []);
        analysis := analysis_text;
        relevant_guidelines := map hit_id relevant |}.

Definition compare_with_guidelines (ext : collaborators) (student_text : string)
  (student_documents : list string) (request_type : option string) :
  result verdict :=
  relevant <- retrieve ext student_text student_documents request_type ;;
  analysis_text <-
    llm_invoke ext (combined student_text student_documents)
      (guidelines_context (map hit_document relevant)) ;;
  merge_judgment student_text student_documents relevant analysis_text.

End RagService.

(** ** [app/models.py] *)

Inductive RequestType : Type :=
| RESIDENCE_PERMIT_EXTENSION
| RESIDENCE_PERMIT_NEW
| VISA_EXTENSION
| TEMPORARY_VISA
| WORK_PERMIT
| OTHER.

Inductive RequestStatus : Type :=
| PENDING
| PROCESSING
| CATEGORIZED
| APPROVED
| REJECTED
| APPOINTMENT_SCHEDULED
| COMPLETED.

(** A point in time, in microseconds (the resolution of [datetime]). *)
Definition time := Z.
Bind Scope Z_scope with time.

Record Student : Type := {
  student_pk : Z;
  student_email : string;
  student_name : string
}.

(** [missing_documents] and [required_documents] hold the value whose
    [str()] the column stores. *)
Record Request : Type := {
  request_pk : Z;
  request_student_id : Z;
  email_subject : string;
  email_body : string;
  request_type : option RequestType;
  status : RequestStatus;
  llm_category : option string;
  llm_confidence : pyfloat;
  llm_analysis : option string;
  request_is_compliant : pyval;
  request_compliance_score : pyval;
  request_missing_documents : option pyval;
  request_required_documents : option pyval;
  appointment_id : option Z;
  created_at : option time;
  processed_at : option time
}.

Record Document : Type := {
  document_request_id : Z;
  filename : string;
  file_path : string;
  file_type : string;
  extracted_text : string;
  vector_id : option string
}.

Record Appointment : Type := {
  appointment_pk : Z;
  appointment_student_id : Z;
  appointment_request_id : Z;
  appointment_date : time;
  appointment_time : string;
  appointment_status : string;
  location : string;
  appointment_required_documents : pyval;
  notes : string
}.

Record AvailableSlot : Type := {
  slot_date : time;
  slot_time : string;
  is_available : bool;
  max_capacity : Z;
  current_bookings : Z
}.

(** The tables of the session, rows in insertion order (the order of
    the generated primary keys).  [status_log] records every value a
    request's [status] is given, with the request's key. *)
Record database : Type := {
  students : list Student;
  requests : list Request;
  documents : list Document;
  appointments : list Appointment;
  available_slots : list AvailableSlot;
  status_log : list (Z * RequestStatus)
}.

(** ** [app/services/llm_service.py] *)

Module LLMService.

(** The dictionary [_parse_categorization] returns. *)
Record categorization : Type := {
  category : RequestType;
  confidence : pyfloat;
  explanation : pyval;
  key_info : pyval;
  raw_response : string
}.

(** [category_map.get(category, RequestType.OTHER)]; a list or a
    dictionary cannot be a key ([TypeError]). *)
Definition category_of (v : pyval) : option RequestType :=
  match v with
  | PStr s =>
      Some (if String.eqb s "residence_permit_extension" then RESIDENCE_PERMIT_EXTENSION
            else if String.eqb s "residence_permit_new" then RESIDENCE_PERMIT_NEW
            else if String.eqb s "visa_extension" then VISA_EXTENSION
            else if String.eqb s "temporary_visa" then TEMPORARY_VISA
            else if String.eqb s "work_permit" then WORK_PERMIT
            else OTHER)
  | PList _ | PDict _ => None
  | _ => Some OTHER
  end.

(** A run of digits in which single underscores may separate digits. *)
Fixpoint span_digits_us (s : string) : string * string :=
  match s with
  | String c r =>
      if Text.is_digit c then
        match r with
        | String u (String d _ as r1) =>
            if Ascii.eqb u "_"%char && Text.is_digit d then
              let (ds, t) := span_digits_us r1 in (String c ds, t)
            else
              let (ds, t) := span_digits_us r in (String c ds, t)
        | _ => let (ds, t) := span_digits_us r in (String c ds, t)
        end
      else (EmptyString, s)
  | EmptyString => (EmptyString, EmptyString)
  end.

Definition exponent (s : string) : option (Z * string) :=
  match s with
  | String c r =>
      if Ascii.eqb c "e"%char || Ascii.eqb c "E"%char then
        let '(neg, r1) :=
          match r with
          | String sg r' =>
              if Ascii.eqb sg "-"%char then (true, r')
              else if Ascii.eqb sg "+"%char then (false, r')
              else (false, r)
          | EmptyString => (false, r)
          end in
        match span_digits_us r1 with
        | (EmptyString, _) => None
        | (d, t) =>
            Some (if neg then (- Text.digits_val d)%Z else Text.digits_val d, t)
        end
      else None
  | EmptyString => Some (0%Z, s)
  end.

(** [float(s)] for a string in ASCII: white space around, a sign, then
    [inf], [infinity], [nan] or a decimal number; [None] is
    [ValueError].  (Python also reads digits and white space outside
    ASCII; see [ascii_text].) *)
Definition float_of_str (s : string) : option pyfloat :=
  let s := Text.strip s in
  let '(neg, s1) :=
    match s with
    | String c r =>
        if Ascii.eqb c "-"%char then (true, r)
        else if Ascii.eqb c "+"%char then (false, r)
        else (false, s)
    | EmptyString => (false, s)
    end in
  let word := Text.lower s1 in
  if String.eqb word "inf" || String.eqb word "infinity" then
    Some (if neg then NegInf else PosInf)
  else if String.eqb word "nan" then Some NaN
  else
    let '(ip, s2) := span_digits_us s1 in
    let '(fp, s3) :=
      match s2 with
      | String c r =>
          if Ascii.eqb c "."%char then span_digits_us r else (EmptyString, s2)
      | EmptyString => (EmptyString, s2)
      end in
    if String.eqb ip EmptyString && String.eqb fp EmptyString then None
    else
      match exponent s3 with
      | Some (e, EmptyString) => Some (Float.round64 (Text.decimal neg ip fp e))
      | _ => None
      end.

(** [float(v)]; [None] is [TypeError] or [ValueError]. *)
Definition to_float (v : pyval) : option pyfloat :=
  match v with
  | PBool b => Some (Fin (if b then 1 else 0)%Q)
  | PInt z =>
      match Float.round64 (inject_Z z) with
      | Fin q => Some (Fin q)
      | _ => None
      end
  | PFloat f => Some f
  | PStr s => float_of_str s
  | PNone | PList _ | PDict _ => None
  end.

Definition fallback (response_text : string) : categorization :=
  {| category := OTHER;
     confidence := Fin 0;
     explanation := PStr "Could not parse LLM response";
     key_info := PStr EmptyString;
     raw_response := response_text |}.

(** The greedy pattern: from the first opening brace to the last
    closing brace. *)
Definition json_pattern : @Re.cont string -> @Re.cont string :=
  fun k => Re.lit "{" (Re.greedy_dot (Re.lit "}" k)).

Definition _parse_categorization (response_text : string) : categorization :=
  match Re.search_text json_pattern response_text with
  | Some matched =>
      match Json.loads matched with
      | Some (PDict parsed) =>
          match category_of (Py.get parsed "category" (PStr "other")),
                to_float (Py.get parsed "confidence" (Py.float 0)) with
          | Some c, Some f =>
              {| category := c;
                 confidence := f;
                 explanation := Py.get parsed "explanation" (PStr EmptyString);
                 key_info := Py.get parsed "key_info" (PStr EmptyString);
                 raw_response := response_text |}
          | _, _ => fallback response_text
          end
      | _ => fallback response_text
      end
  | None => fallback response_text
  end.

(** [llm_invoke combined_text] is the model's answer to the
    categorisation prompt for that text. *)
Definition combined_text (email_subject email_body : string)
  (documents_text : list string) : string :=
  ("Subject: " ++ email_subject ++ RagService.blank_line ++
   "Body: " ++ email_body ++ RagService.blank_line ++
   Text.join RagService.rule documents_text)%string.

Definition categorize_request (llm_invoke : string -> result string)
  (email_subject email_body : string) (documents_text : list string) :
  result categorization :=
  response <- llm_invoke (combined_text email_subject email_body documents_text) ;;
  Ok (_parse_categorization response).

End LLMService.

(** ** [app/services/appointment_service.py] *)

Module AppointmentService.

(** The filter of the query: flagged available, in the future, not full. *)
Definition bookable (now : time) (s : AvailableSlot) : bool :=
  is_available s && (now <? slot_date s)%Z &&
  (current_bookings s <? max_capacity s)%Z.

(** The rows of a table with their positions. *)
Fixpoint enumerate {A : Type} (i : nat) (l : list A) : list (nat * A) :=
  match l with
  | [] => []
  | x :: r => (i, x) :: enumerate (S i) r
  end.

(** [order_by(slot_date.asc()).first()]: the earliest row, and of rows
    with equal dates the one inserted first. *)
Fixpoint earliest (best : nat * AvailableSlot) (rows : list (nat * AvailableSlot)) :
  nat * AvailableSlot :=
  match rows with
  | [] => best
  | r :: rest =>
      earliest (if (slot_date (snd r) <? slot_date (snd best))%Z then r else best) rest
  end.

Definition first_by_date (rows : list (nat * AvailableSlot)) :
  option (nat * AvailableSlot) :=
  match rows with
  | [] => None
  | r :: rest => Some (earliest r rest)
  end.

(** The slot found, with its row. *)
Definition get_next_available_slot (db : database) (now : time) :
  option (nat * AvailableSlot) :=
  first_by_date
    (filter (fun r => bookable now (snd r)) (enumerate 0 (available_slots db))).

(** [slot.current_bookings += 1] and the flag that follows it. *)
Definition book (slot : AvailableSlot) : AvailableSlot :=
  let bookings := (current_bookings slot + 1)%Z in
  {| slot_date := slot_date slot;
     slot_time := slot_time slot;
     is_available :=
       if (max_capacity slot <=? bookings)%Z then false else is_available slot;
     max_capacity := max_capacity slot;
     current_bookings := bookings |}.

Fixpoint update_row {A : Type} (i : nat) (f : A -> A) (l : list A) : list A :=
  match l, i with
  | [], _ => []
  | x :: r, O => f x :: r
  | x :: r, S j => x :: update_row j f r
  end.

Definition str_of_int (z : Z) : string :=
  DecimalString.NilZero.string_of_int (Z.to_int z).

Definition schedule_appointment (db : database) (now : time)
  (student_id request_id : Z) (required_documents : pyval) :
  option Appointment * database :=
  match get_next_available_slot db now with
  | None => (None, db)
  | Some (row, slot) =>
      let appointment :=
        {| appointment_pk := Z.of_nat (List.length (appointments db)) + 1;
           appointment_student_id := student_id;
           appointment_request_id := request_id;
           appointment_date := slot_date slot;
           appointment_time := slot_time slot;
           appointment_status := "scheduled";
           location := "Immigration Office - Main Building";
           appointment_required_documents := required_documents;
           notes := ("Automated appointment for request #" ++ str_of_int request_id)%string |} in
      (Some appointment,
       {| students := students db;
          requests := requests db;
          documents := documents db;
          appointments := appointments db ++ [appointment];
          available_slots := update_row row book (available_slots db);
          status_log := status_log db |})
  end.

(** [create_available_slots]: five time labels a day, a slot for each
    label that does not exist yet on that date. *)
Definition time_slots : list string := ["09:00"; "10:30"; "12:00"; "14:00"; "15:30"].

Definition day : Z := 86400000000.

Definition slot_exists (slots : list AvailableSlot) (date : time) (label : string) : bool :=
  existsb (fun s => (slot_date s =? date)%Z && String.eqb (slot_time s) label) slots.

Definition create_on (date : time) (slots : list AvailableSlot) (label : string) :
  list AvailableSlot :=
  if slot_exists slots date label then slots
  else slots ++ [ {| slot_date := date; slot_time := label; is_available := true;
                     max_capacity := 1; current_bookings := 0 |} ].

Fixpoint create_days (start_date : time) (d num_days : nat) (slots_per_day : nat)
  (slots : list AvailableSlot) : list AvailableSlot :=
  match num_days with
  | O => slots
  | S n =>
      create_days start_date (S d) n slots_per_day
        (fold_left (create_on (start_date + Z.of_nat d * day)%Z)
           (firstn slots_per_day time_slots) slots)
  end.

Definition create_available_slots (db : database) (start_date : time)
  (num_days slots_per_day : nat) : database :=
  {| students := students db;
     requests := requests db;
     documents := documents db;
     appointments := appointments db;
     available_slots := create_days start_date 0 num_days slots_per_day (available_slots db);
     status_log := status_log db |}.

(** A series of allocation attempts, one after the other; each attempt
    reads the clock itself.  The answer to each attempt is paired with
    the row it was booked on. *)
Record attempt : Type := {
  attempt_time : time;
  attempt_student : Z;
  attempt_request : Z;
  attempt_documents : pyval
}.

Fixpoint run_attempts (db : database) (attempts : list attempt) :
  list (option (nat * Appointment)) * database :=
  match attempts with
  | [] => ([], db)
  | a :: rest =>
      let picked := get_next_available_slot db (attempt_time a) in
      let '(answer, db1) :=
        schedule_appointment db (attempt_time a) (attempt_student a)
          (attempt_request a) (attempt_documents a) in
      let '(answers, db2) := run_attempts db1 rest in
      (match picked, answer with
       | Some (row, _), Some appointment => Some (row, appointment)
       | _, _ => None
       end :: answers, db2)
  end.




End AppointmentService.

(** ** [app/workers/email_worker.py] *)

Module EmailWorker.

Record attachment : Type := {
  content_type : string;
  attachment_filename : string;
  attachment_file_path : option string
}.

Record email_data : Type := {
  subject : string;
  sender : string;
  body : string;
  attachments : list attachment
}.

(** What the task reads from outside the database during one run: the
    clock at the four places it is read, the file system, and the
    answers of the extraction, indexing, retrieval, judgment and
    notification collaborators. *)
Record world : Type := {
  now_at_gate : time;
  now_at_insert : time;
  now_at_processed : time;
  now_at_allocation : time;
  path_exists : string -> bool;
  extract_text : string -> result string;
  add_document : string -> result string;
  rag : RagService.collaborators;
  categorizer : string -> result string;
  send_appointment_confirmation : string -> Z -> result bool
}.

Inductive task_result : Type :=
| Skipped (request_id : Z)
| Success (request_id : Z) (categorized_as : string) (appointment_scheduled : bool)
| Error (e : string).

(** The replay window: [total_seconds() < 86400]. *)
Definition window : Z := 86400 * 1000000.

(** [db.query(Request).filter(email_subject == subject).first()] *)
Definition first_with_subject (db : database) (subj : string) : option Request :=
  find (fun r => String.eqb (email_subject r) subj) (requests db).

(** The gate at the head of the task: the request the message repeats. *)
Definition duplicate_of (db : database) (now : time) (subj : string) : option Z :=
  match first_with_subject db subj with
  | Some existing_request =>
      match created_at existing_request with
      | Some created =>
          if (now - created <? window)%Z then Some (request_pk existing_request)
          else None
      | None => None
      end
  | None => None
  end.

(** [sender.split("<")[-1].split(">")[0] if "<" in sender else sender] *)
Definition email_address_of (sender : string) : string :=
  if Text.contains "<" sender then
    hd EmptyString (Text.split ">"%char (last (Text.split "<"%char sender) EmptyString))
  else sender.

Definition name_of (sender email_address : string) : string :=
  if Text.contains "<" sender then
    Text.strip (hd EmptyString (Text.split "<"%char sender))
  else hd EmptyString (Text.split "@"%char email_address).

Definition with_students (db : database) (l : list Student) : database :=
  {| students := l; requests := requests db; documents := documents db;
     appointments := appointments db; available_slots := available_slots db;
     status_log := status_log db |}.

Definition with_requests (db : database) (l : list Request) : database :=
  {| students := students db; requests := l; documents := documents db;
     appointments := appointments db; available_slots := available_slots db;
     status_log := status_log db |}.

Definition with_documents (db : database) (l : list Document) : database :=
  {| students := students db; requests := requests db; documents := l;
     appointments := appointments db; available_slots := available_slots db;
     status_log := status_log db |}.

Definition logged (db : database) (request_id : Z) (st : RequestStatus) : database :=
  {| students := students db; requests := requests db; documents := documents db;
     appointments := appointments db; available_slots := available_slots db;
     status_log := status_log db ++ [(request_id, st)] |}.

(** The student of the address, created when there is none. *)
Definition find_or_create_student (db : database) (sender : string) :
  Student * database :=
  let email_address := email_address_of sender in
  match find (fun st => String.eqb (student_email st) email_address) (students db) with
  | Some student => (student, db)
  | None =>
      let student :=
        {| student_pk := Z.of_nat (List.length (students db)) + 1;
           student_email := email_address;
           student_name := name_of sender email_address |} in
      (student, with_students db (students db ++ [student]))
  end.

(** [Request(student_id, email_subject, email_body, status=PENDING)]
    with the defaults of the columns. *)
Definition new_request (pk student_id : Z) (subj text : string) (created : time) :
  Request :=
  {| request_pk := pk;
     request_student_id := student_id;
     email_subject := subj;
     email_body := text;
     request_type := None;
     status := PENDING;
     llm_category := None;
     llm_confidence := Fin 0;
     llm_analysis := None;
     request_is_compliant := PBool false;
     request_compliance_score := Py.float 0;
     request_missing_documents := None;
     request_required_documents := None;
     appointment_id := None;
     created_at := Some created;
     processed_at := None |}.

(** The row of the request of this run, and its key. *)
Definition insert_request (db : database) (r : Request) : database :=
  logged (with_requests db (requests db ++ [r])) (request_pk r) (status r).

Definition update_request (db : database) (row : nat) (f : Request -> Request) :
  database :=
  with_requests db (AppointmentService.update_row row f (requests db)).

Definition with_status (st : RequestStatus) (r : Request) : Request :=
  {| request_pk := request_pk r; request_student_id := request_student_id r;
     email_subject := email_subject r; email_body := email_body r;
     request_type := request_type r; status := st;
     llm_category := llm_category r; llm_confidence := llm_confidence r;
     llm_analysis := llm_analysis r;
     request_is_compliant := request_is_compliant r;
     request_compliance_score := request_compliance_score r;
     request_missing_documents := request_missing_documents r;
     request_required_documents := request_required_documents r;
     appointment_id := appointment_id r;
     created_at := created_at r; processed_at := processed_at r |}.

(** [request.status = st] *)
Definition set_status (db : database) (row : nat) (request_id : Z)
  (st : RequestStatus) : database :=
  logged (update_request db row (with_status st)) request_id st.

Definition with_compliance (v : RagService.verdict) (r : Request) : Request :=
  {| request_pk := request_pk r; request_student_id := request_student_id r;
     email_subject := email_subject r; email_body := email_body r;
     request_type := request_type r; status := status r;
     llm_category := llm_category r; llm_confidence := llm_confidence r;
     llm_analysis := llm_analysis r;
     request_is_compliant := RagService.is_compliant v;
     request_compliance_score := RagService.compliance_score v;
     request_missing_documents := Some (RagService.missing_documents v);
     request_required_documents := Some (RagService.required_documents v);
     appointment_id := appointment_id r;
     created_at := created_at r; processed_at := processed_at r |}.

Definition with_category (t : RequestType) (label : string) (c : pyfloat)
  (text : string) (r : Request) : Request :=
  {| request_pk := request_pk r; request_student_id := request_student_id r;
     email_subject := email_subject r; email_body := email_body r;
     request_type := Some t; status := status r;
     llm_category := Some label; llm_confidence := c;
     llm_analysis := Some text;
     request_is_compliant := request_is_compliant r;
     request_compliance_score := request_compliance_score r;
     request_missing_documents := request_missing_documents r;
     request_required_documents := request_required_documents r;
     appointment_id := appointment_id r;
     created_at := created_at r; processed_at := processed_at r |}.

Definition with_processed_at (t : time) (r : Request) : Request :=
  {| request_pk := request_pk r; request_student_id := request_student_id r;
     email_subject := email_subject r; email_body := email_body r;
     request_type := request_type r; status := status r;
     llm_category := llm_category r; llm_confidence := llm_confidence r;
     llm_analysis := llm_analysis r;
     request_is_compliant := request_is_compliant r;
     request_compliance_score := request_compliance_score r;
     request_missing_documents := request_missing_documents r;
     request_required_documents := request_required_documents r;
     appointment_id := appointment_id r;
     created_at := created_at r; processed_at := Some t |}.

Definition with_appointment (a : Z) (r : Request) : Request :=
  {| request_pk := request_pk r; request_student_id := request_student_id r;
     email_subject := email_subject r; email_body := email_body r;
     request_type := request_type r; status := status r;
     llm_category := llm_category r; llm_confidence := llm_confidence r;
     llm_analysis := llm_analysis r;
     request_is_compliant := request_is_compliant r;
     request_compliance_score := request_compliance_score r;
     request_missing_documents := request_missing_documents r;
     request_required_documents := request_required_documents r;
     appointment_id := Some a;
     created_at := created_at r; processed_at := processed_at r |}.

Definition with_analysis (text : string) (r : Request) : Request :=
  {| request_pk := request_pk r; request_student_id := request_student_id r;
     email_subject := email_subject r; email_body := email_body r;
     request_type := request_type r; status := status r;
     llm_category := llm_category r; llm_confidence := llm_confidence r;
     llm_analysis := Some text;
     request_is_compliant := request_is_compliant r;
     request_compliance_score := request_compliance_score r;
     request_missing_documents := request_missing_documents r;
     request_required_documents := request_required_documents r;
     appointment_id := appointment_id r;
     created_at := created_at r; processed_at := processed_at r |}.

(** The handler of the task: the error goes to the audit field when
    nothing was written there yet. *)
Definition with_error (e : string) (r : Request) : Request :=
  match llm_analysis r with
  | Some (String _ _) => r
  | _ => with_analysis ("Processing error: " ++ e)%string r
  end.

Definition is_pdf (a : attachment) : bool :=
  String.eqb (content_type a) "application/pdf" ||
  Text.endswith ".pdf" (Text.lower (attachment_filename a)).

(** One turn of the loop over the attachments; the state is the
    database and [documents_text]. *)
Definition process_attachment (w : world) (request_id : Z)
  (st : database * list string) (a : attachment) : database * list string :=
  let '(db, documents_text) := st in
  match attachment_file_path a with
  | Some path =>
      if is_pdf a && negb (String.eqb path EmptyString) && path_exists w path then
        let name := attachment_filename a in
        let failed (documents_text : list string) (doc_error : string) :=
          (with_documents db
             (documents db ++
              [ {| document_request_id := request_id; filename := name;
                   file_path := path; file_type := "pdf";
                   extracted_text := ("Error extracting text: " ++ doc_error)%string;
                   vector_id := None |} ]),
           documents_text) in
        match extract_text w path with
        | Raised doc_error => failed documents_text doc_error
        | Ok extracted =>
            let has_text := negb (String.eqb extracted EmptyString) in
            let text_for_vector :=
              if has_text then extracted else ("Document: " ++ name)%string in
            let documents_text := documents_text ++ [text_for_vector] in
            match add_document w text_for_vector with
            | Raised doc_error => failed documents_text doc_error
            | Ok vector =>
                (with_documents db
                   (documents db ++
                    [ {| document_request_id := request_id; filename := name;
                         file_path := path; file_type := "pdf";
                         extracted_text :=
                           if has_text then String.substring 0 5000 extracted
                           else ("Scanned/image PDF: " ++ name)%string;
                         vector_id := Some vector |} ]),
                 documents_text)
            end
        end
      else st
  | None => st
  end.

Definition str_of_type (t : option RequestType) : string :=
  match t with
  | None => "None"
  | Some RESIDENCE_PERMIT_EXTENSION => "RequestType.RESIDENCE_PERMIT_EXTENSION"
  | Some RESIDENCE_PERMIT_NEW => "RequestType.RESIDENCE_PERMIT_NEW"
  | Some VISA_EXTENSION => "RequestType.VISA_EXTENSION"
  | Some TEMPORARY_VISA => "RequestType.TEMPORARY_VISA"
  | Some WORK_PERMIT => "RequestType.WORK_PERMIT"
  | Some OTHER => "RequestType.OTHER"
  end.

Definition request_type_for_rag (subj text : string) : option string :=
  let email_content_lower := Text.lower (subj ++ " " ++ text)%string in
  if Text.contains "residence permit" email_content_lower &&
     Text.contains "extension" email_content_lower
  then Some "residence_permit_extension"
  else None.

(** The categorisation stage, with its own handler. *)
Definition categorize (w : world) (db : database) (row : nat) (e : email_data)
  (documents_text : list string) : database :=
  match LLMService.categorize_request (categorizer w) (subject e) (body e)
          documents_text with
  | Ok c =>
      update_request db row
        (with_category (LLMService.category c)
           (str_of_type (Some (LLMService.category c)))
           (LLMService.confidence c) (LLMService.raw_response c))
  | Raised llm_error =>
      update_request db row
        (with_category OTHER "error" (Fin 0) ("LLM error: " ++ llm_error)%string)
  end.

(** The allocation stage, entered for a compliant request. *)
Definition allocate (w : world) (db : database) (row : nat) (request_id : Z)
  (student : Student) (v : RagService.verdict) : database :=
  let '(answer, db) :=
    AppointmentService.schedule_appointment db (now_at_allocation w)
      (student_pk student) request_id (RagService.required_documents v) in
  match answer with
  | Some appointment =>
      let db := update_request db row (with_appointment (appointment_pk appointment)) in
      let db := set_status db row request_id APPOINTMENT_SCHEDULED in
      match send_appointment_confirmation w (student_email student)
              (appointment_pk appointment) with
      | Ok _ => db
      | Raised _ => db
      end
  | None => db
  end.

Definition process_email_task (w : world) (e : email_data) (db : database) :
  task_result * database :=
  match duplicate_of db (now_at_gate w) (subject e) with
  | Some existing => (Skipped existing, db)
  | None =>
      let '(student, db) := find_or_create_student db (sender e) in
      let row := List.length (requests db) in
      let request_id := (Z.of_nat row + 1)%Z in
      let db :=
        insert_request db
          (new_request request_id (student_pk student) (subject e) (body e)
             (now_at_insert w)) in
      let '(db, documents_text) :=
        fold_left (process_attachment w request_id) (attachments e) (db, []) in
      let db := set_status db row request_id PROCESSING in
      match RagService.compare_with_guidelines (rag w) (body e) documents_text
              (request_type_for_rag (subject e) (body e)) with
      | Raised err => (Error err, update_request db row (with_error err))
      | Ok rag_result =>
          let db := update_request db row (with_compliance rag_result) in
          let db := categorize w db row e documents_text in
          let db := set_status db row request_id CATEGORIZED in
          let db := update_request db row (with_processed_at (now_at_processed w)) in
          let db :=
            if Py.truthy (RagService.is_compliant rag_result)
            then allocate w db row request_id student rag_result
            else db in
          (Success request_id
             (str_of_type (match nth_error (requests db) row with
                           | Some r => request_type r
                           | None => None
                           end))
             (match nth_error (requests db) row with
              | Some r => match appointment_id r with Some _ => true | None => false end
              | None => false
              end),
           db)
      end
  end.

End EmailWorker.

(** ** [schedule_appointment], query and commit apart
    What one call does with its own session when another call may run
    between its query and its commit.  The query loads the slot; the call
    then works on the loaded object; the commit writes the columns that
    were assigned, with the values computed from the loaded ones, to the
    row of the slot, and inserts the appointment.  Nothing in the call
    locks the row or tests it again. *)

Module AppointmentSession.

(** [slot = self.get_next_available_slot()]: the row and the values read. *)
Definition load (db : database) (now : time) : option (nat * AvailableSlot) :=
  AppointmentService.get_next_available_slot db now.

(** The row after the commit: [current_bookings] is the loaded value
    plus one, [is_available] is cleared when that reaches the loaded
    capacity, the other columns are not written. *)
Definition written (loaded stored : AvailableSlot) : AvailableSlot :=
  let bookings := (current_bookings loaded + 1)%Z in
  {| slot_date := slot_date stored;
     slot_time := slot_time stored;
     is_available :=
       if (max_capacity loaded <=? bookings)%Z then false else is_available stored;
     max_capacity := max_capacity stored;
     current_bookings := bookings |}.

(** [db.add(appointment); db.commit(); db.refresh(appointment)] *)
Definition commit (db : database) (row : nat) (loaded : AvailableSlot)
  (student_id request_id : Z) (required_documents : pyval) :
  Appointment * database :=
  let appointment :=
    {| appointment_pk := Z.of_nat (List.length (appointments db)) + 1;
       appointment_student_id := student_id;
       appointment_request_id := request_id;
       appointment_date := slot_date loaded;
       appointment_time := slot_time loaded;
       appointment_status := "scheduled";
       location := "Immigration Office - Main Building";
       appointment_required_documents := required_documents;
       notes := ("Automated appointment for request #" ++
                 AppointmentService.str_of_int request_id)%string |} in
  (appointment,
   {| students := students db;
      requests := requests db;
      documents := documents db;
      appointments := appointments db ++ [appointment];
      available_slots :=
        AppointmentService.update_row row (written loaded) (available_slots db);
      status_log := status_log db |}).

End AppointmentSession.

(** ** [app/services/appointment_service.py]: the two lookups *)

Module AppointmentQueries.

(** [filter(Appointment.id == appointment_id).first()] *)
Definition get_appointment_details (db : database) (appointment_id : Z) :
  option Appointment :=
  find (fun a => (appointment_pk a =? appointment_id)%Z) (appointments db).

(** [order_by(appointment_date.asc())]: rows of equal date stay in
    insertion order. *)
Fixpoint insert_by_date (a : Appointment) (sorted : list Appointment) :
  list Appointment :=
  match sorted with
  | [] => [a]
  | b :: rest =>
      if (appointment_date a <=? appointment_date b)%Z then a :: sorted
      else b :: insert_by_date a rest
  end.

Definition order_by_date (rows : list Appointment) : list Appointment :=
  fold_right insert_by_date [] rows.

Definition get_student_appointments (db : database) (student_id : Z) :
  list Appointment :=
  order_by_date
    (filter (fun a => (appointment_student_id a =? student_id)%Z) (appointments db)).

End AppointmentQueries.

(** ** [app/api/routes.py]
    The handlers, as functions of the database; what a handler returns
    is the value handed to the response model. *)

Module Routes.

Inductive response (A : Type) : Type :=
| Returned (x : A)
| HTTPException (status_code : Z) (detail : string).
Arguments Returned {A} x.
Arguments HTTPException {A} status_code detail.

Definition status_eqb (a b : RequestStatus) : bool :=
  match a, b with
  | PENDING, PENDING | PROCESSING, PROCESSING | CATEGORIZED, CATEGORIZED
  | APPROVED, APPROVED | REJECTED, REJECTED
  | APPOINTMENT_SCHEDULED, APPOINTMENT_SCHEDULED | COMPLETED, COMPLETED => true
  | _, _ => false
  end.

Definition type_eqb (a b : RequestType) : bool :=
  match a, b with
  | RESIDENCE_PERMIT_EXTENSION, RESIDENCE_PERMIT_EXTENSION
  | RESIDENCE_PERMIT_NEW, RESIDENCE_PERMIT_NEW
  | VISA_EXTENSION, VISA_EXTENSION | TEMPORARY_VISA, TEMPORARY_VISA
  | WORK_PERMIT, WORK_PERMIT | OTHER, OTHER => true
  | _, _ => false
  end.

(** [GET /requests/{request_id}] *)
Definition get_request (db : database) (request_id : Z) : response Request :=
  match find (fun r => (request_pk r =? request_id)%Z) (requests db) with
  | Some request => Returned request
  | None => HTTPException 404 "Request not found"
  end.

(** [GET /students/{student_id}/requests]: [student.requests] *)
Definition get_student_requests (db : database) (student_id : Z) :
  response (list Request) :=
  match find (fun st => (student_pk st =? student_id)%Z) (students db) with
  | Some student =>
      Returned (filter (fun r => (request_student_id r =? student_pk student)%Z)
                  (requests db))
  | None => HTTPException 404 "Student not found"
  end.

(** [GET /appointments/{appointment_id}] *)
Definition get_appointment (db : database) (appointment_id : Z) : response Appointment :=
  match find (fun a => (appointment_pk a =? appointment_id)%Z) (appointments db) with
  | Some appointment => Returned appointment
  | None => HTTPException 404 "Appointment not found"
  end.

(** [GET /stats] *)
Record stats : Type := {
  total_requests : nat;
  total_students : nat;
  total_appointments : nat;
  pending : nat;
  processing : nat;
  categorized : nat;
  appointment_scheduled : nat;
  requests_by_type : list (RequestType * nat)
}.

Definition count_status (db : database) (st : RequestStatus) : nat :=
  List.length (filter (fun r => status_eqb (status r) st) (requests db)).

Definition count_type (db : database) (req_type : RequestType) : nat :=
  List.length
    (filter (fun r => match request_type r with
                      | Some t => type_eqb t req_type
                      | None => false
                      end) (requests db)).

Definition get_stats (db : database) : stats :=
  {| total_requests := List.length (requests db);
     total_students := List.length (students db);
     total_appointments := List.length (appointments db);
     pending := count_status db PENDING;
     processing := count_status db PROCESSING;
     categorized := count_status db CATEGORIZED;
     appointment_scheduled := count_status db APPOINTMENT_SCHEDULED;
     requests_by_type :=
       map (fun req_type => (req_type, count_type db req_type))
         [ RESIDENCE_PERMIT_EXTENSION; RESIDENCE_PERMIT_NEW; VISA_EXTENSION;
           TEMPORARY_VISA; WORK_PERMIT; OTHER ] |}.

End Routes.

(** ** [app/services/email_service.py]: the body of a message
    A message is what the [email] package makes of it: whether it is
    multipart, the parts [walk()] yields in order, and for each part its
    content type, the text of its [Content-Disposition] header ("None"
    when there is none) and the text [get_payload(decode=True).decode()]
    gives, if it does not raise. *)

Module EmailService.

Record part : Type := {
  part_content_type : string;
  content_disposition : string;
  decoded : option string
}.

Record message : Type := {
  is_multipart : bool;
  walk : list part;
  simple_payload : option string
}.

Definition is_attachment (p : part) : bool :=
  Text.contains "attachment" (content_disposition p).

(** One turn of the loop of [_get_email_body]. *)
Definition body_step (body : string) (p : part) : string :=
  if is_attachment p then body
  else if String.eqb (part_content_type p) "text/plain" then
    match decoded p with
    | Some text => text
    | None => body
    end
  else if String.eqb (part_content_type p) "text/html" then
    if String.eqb body EmptyString then
      match decoded p with
      | Some text => text
      | None => body
      end
    else body
  else body.

Definition _get_email_body (email_message : message) : string :=
  if is_multipart email_message then
    fold_left body_step (walk email_message) EmptyString
  else
    match simple_payload email_message with
    | Some text => text
    | None => EmptyString
    end.

End EmailService.

(** ** Sample inputs *)

Module Sample.

Definition passport_guideline : string :=
  ("Required documents:" ++ RagService.nl ++ "- Current valid passport" ++ RagService.nl)%string.

(** A judgment in the requested format that also lists a document the
    guideline does not name. *)
Definition structured_answer : string :=
  ("Here: {" ++ Text.quoted "is_compliant" ++ ": false, " ++
   Text.quoted "compliance_score" ++ ": 40, " ++
   Text.quoted "present_documents" ++ ": [], " ++
   Text.quoted "required_documents" ++ ": [" ++ Text.quoted "passport" ++ ", " ++
   Text.quoted "visa" ++ "]}")%string.

(** The retrieval finds the passport guideline; the model answers [answer]. *)
Definition grounded (answer : string) : RagService.collaborators :=
  {| RagService.search_similar := fun _ _ _ =>
       Ok [ {| RagService.hit_id := "guideline_residence_permit";
               RagService.hit_document := passport_guideline |} ];
     RagService.llm_invoke := fun _ _ => Ok answer |}.

(** The retrieval finds nothing; the model answers [answer]. *)
Definition ungrounded (answer : string) : RagService.collaborators :=
  {| RagService.search_similar := fun _ _ _ => Ok [];
     RagService.llm_invoke := fun _ _ => Ok answer |}.

(** A categorisation in the requested format, on the scale the prompt
    asks for (0-100). *)
Definition category_answer : string :=
  ("{" ++ Text.quoted "category" ++ ": " ++ Text.quoted "visa_extension" ++ ", " ++
   Text.quoted "confidence" ++ ": 95, " ++
   Text.quoted "explanation" ++ ": " ++ Text.quoted "asks for more time" ++ "}")%string.

Definition empty_db : database :=
  {| students := []; requests := []; documents := []; appointments := [];
     available_slots := []; status_log := [] |}.

Definition slot (date : time) (label : string) (capacity booked : Z) : AvailableSlot :=
  {| slot_date := date; slot_time := label;
     is_available := (booked <? capacity)%Z;
     max_capacity := capacity; current_bookings := booked |}.

(** Four slots: a late one, two on the same earlier date, and a full one
    that is earlier still. *)
Definition pool : database :=
  {| students := []; requests := []; documents := []; appointments := [];
     available_slots :=
       [ slot 300 "09:00" 1 0; slot 200 "09:00" 1 0; slot 200 "10:30" 2 1;
         slot 100 "09:00" 1 1 ];
     status_log := [] |}.

Definition try_at (t : time) (request_id : Z) : AppointmentService.attempt :=
  {| AppointmentService.attempt_time := t;
     AppointmentService.attempt_student := 1;
     AppointmentService.attempt_request := request_id;
     AppointmentService.attempt_documents := PList [PStr "passport"] |}.

(** Every slot that lies in the future is full; the one with a place
    left is in the past. *)
Definition booked_out : database :=
  {| students := []; requests := []; documents := []; appointments := [];
     available_slots :=
       [ slot 500 "09:00" 1 0; slot 2000 "09:00" 1 1; slot 3000 "10:30" 2 2 ];
     status_log := [] |}.

Definition world (answer : string) : EmailWorker.world :=
  {| EmailWorker.now_at_gate := 1000;
     EmailWorker.now_at_insert := 1001;
     EmailWorker.now_at_processed := 1002;
     EmailWorker.now_at_allocation := 1003;
     EmailWorker.path_exists := fun _ => true;
     EmailWorker.extract_text := fun _ => Ok "Scan of a passport page";
     EmailWorker.add_document := fun _ => Ok "vector-1";
     EmailWorker.rag := grounded answer;
     EmailWorker.categorizer := fun _ => Ok category_answer;
     EmailWorker.send_appointment_confirmation := fun _ _ => Ok true |}.

Definition from_alice : EmailWorker.email_data :=
  {| EmailWorker.subject := "Residence permit extension";
     EmailWorker.sender := "Alice <alice@uni.example>";
     EmailWorker.body := "Attached: passport copy.";
     EmailWorker.attachments := [] |}.

Definition from_bob : EmailWorker.email_data :=
  {| EmailWorker.subject := "Residence permit extension";
     EmailWorker.sender := "Bob <bob@uni.example>";
     EmailWorker.body := "Please find my documents attached.";
     EmailWorker.attachments := [] |}.

(** The database after Alice's message was taken in at time 0. *)
Definition after_alice : database :=
  {| students :=
       [ {| student_pk := 1; student_email := "alice@uni.example";
            student_name := "Alice" |} ];
     requests :=
       [ EmailWorker.new_request 1 1 "Residence permit extension"
           "Attached: passport copy." 0 ];
     documents := []; appointments := [];
     available_slots := available_slots pool;
     status_log := [(1%Z, PENDING)] |}.

End Sample.

(** ** Vocabulary of the properties *)

(** The case-insensitive difference of the required documents and the
    (lowered) present ones. *)
Definition ci_difference (required present_lowered : list string) : list string :=
  filter (fun doc => negb (Text.mem (Text.lower doc) present_lowered)) required.

(** 100 for a compliant verdict, else the share of the required
    documents that are present, 0 when nothing is required. *)
Definition share_score (required missing : nat) : Q :=
  if missing =? 0 then 100%Q
  else if required =? 0 then 0%Q
  else (100 * inject_Z (Z.of_nat required - Z.of_nat missing) /
        inject_Z (Z.of_nat required))%Q.

Definition is_number (v : pyval) (x : Q) : Prop :=
  match v with
  | PInt z => (inject_Z z == x)%Q
  | PFloat (Fin q) => (q == x)%Q
  | _ => False
  end.

(** The invariant of a verdict. *)
Definition verdict_consistent (v : RagService.verdict) : Prop :=
  (RagService.is_compliant v = PBool true <->
   RagService.missing_documents v = PList []) /\
  (RagService.is_compliant v = PBool true ->
   is_number (RagService.compliance_score v) 100).


(** The stored flag says what the counters say. *)
Definition flags_derived (slots : list AvailableSlot) : Prop :=
  Forall (fun s => is_available s = (current_bookings s <? max_capacity s)%Z) slots.

Definition within_capacity (slots : list AvailableSlot) : Prop :=
  Forall (fun s => (0 <= current_bookings s <= max_capacity s)%Z) slots.

(** A slot with a place left, strictly in the future. *)
Definition available (now : time) (s : AvailableSlot) : Prop :=
  (current_bookings s < max_capacity s)%Z /\ (now < slot_date s)%Z.

(** Rows in the order of their positions. *)
Definition in_row_order (rows : list (nat * AvailableSlot)) : Prop :=
  StronglySorted (fun a b => fst a < fst b) rows.

(** The row of a request after the categorisation stage. *)
Definition categorized_row (w : EmailWorker.world) (e : EmailWorker.email_data)
  (documents_text : list string) (r : Request) : Request :=
  match LLMService.categorize_request (EmailWorker.categorizer w)
          (EmailWorker.subject e) (EmailWorker.body e) documents_text with
  | Ok c =>
      EmailWorker.with_category (LLMService.category c)
        (EmailWorker.str_of_type (Some (LLMService.category c)))
        (LLMService.confidence c) (LLMService.raw_response c) r
  | Raised llm_error =>
      EmailWorker.with_category OTHER "error" (Fin 0) ("LLM error: " ++ llm_error)%string r
  end.

(** What one attachment adds to [documents_text]. *)
Definition attachment_text (w : EmailWorker.world) (a : EmailWorker.attachment) :
  list string :=
  match EmailWorker.attachment_file_path a with
  | Some path =>
      if EmailWorker.is_pdf a && negb (String.eqb path EmptyString) &&
         EmailWorker.path_exists w path
      then
        match EmailWorker.extract_text w path with
        | Ok extracted =>
            [ if negb (String.eqb extracted EmptyString) then extracted
              else ("Document: " ++ EmailWorker.attachment_filename a)%string ]
        | Raised _ => []
        end
      else []
  | None => []
  end.

(** [documents_text] after the loop over the attachments. *)
Definition documents_text_of (w : EmailWorker.world) (e : EmailWorker.email_data) :
  list string :=
  flat_map (attachment_text w) (EmailWorker.attachments e).

(** The compliance verdict of a run. *)
Definition verdict_of (w : EmailWorker.world) (e : EmailWorker.email_data) :
  result RagService.verdict :=
  RagService.compare_with_guidelines (EmailWorker.rag w) (EmailWorker.body e)
    (documents_text_of w e)
    (EmailWorker.request_type_for_rag (EmailWorker.subject e) (EmailWorker.body e)).

(** The address a stored request came from. *)
Definition sender_of (db : database) (r : Request) : option string :=
  option_map student_email
    (find (fun st => (student_pk st =? request_student_id r)%Z) (students db)).

(** A stored request with the key (sender address, subject) of a message. *)
Definition same_key (db : database) (e : EmailWorker.email_data) (r : Request) : Prop :=
  email_subject r = EmailWorker.subject e /\
  sender_of db r = Some (EmailWorker.email_address_of (EmailWorker.sender e)).

(** A stored request with the subject of a message, created inside the
    replay window. *)
Definition recent_same_subject (db : database) (now : time) (subj : string) : Prop :=
  exists r t,
    In r (requests db) /\ email_subject r = subj /\
    created_at r = Some t /\ (now - t < EmailWorker.window)%Z.

(** The states of the pipeline, in order. *)
Definition pipeline_states : list RequestStatus :=
  [PENDING; PROCESSING; CATEGORIZED; APPOINTMENT_SCHEDULED].

Definition is_prefix {A : Type} (l full : list A) : Prop :=
  exists rest, full = l ++ rest.

Definition passport_or_nothing (l : list string) : Prop :=
  l = [] \/ l = ["passport"].

(** An attachment the loop stores: a PDF by type or by name, with a
    path that exists. *)
Definition stored (w : EmailWorker.world) (a : EmailWorker.attachment) : bool :=
  match EmailWorker.attachment_file_path a with
  | Some path =>
      EmailWorker.is_pdf a && negb (String.eqb path EmptyString) &&
      EmailWorker.path_exists w path
  | None => false
  end.

(** The database of a run that is not skipped when the comparison
    starts, and when the allocation is decided. *)
Definition processing_state (w : EmailWorker.world) (e : EmailWorker.email_data)
  (db : database) : database :=
  let row := List.length (requests db) in
  let request_id := (Z.of_nat row + 1)%Z in
  let student := fst (EmailWorker.find_or_create_student db (EmailWorker.sender e)) in
  let db1 := snd (EmailWorker.find_or_create_student db (EmailWorker.sender e)) in
  let r0 := EmailWorker.new_request request_id (student_pk student)
              (EmailWorker.subject e) (EmailWorker.body e) (EmailWorker.now_at_insert w) in
  let db3 := fst (fold_left (EmailWorker.process_attachment w request_id)
                    (EmailWorker.attachments e) (EmailWorker.insert_request db1 r0, [])) in
  EmailWorker.set_status db3 row request_id PROCESSING.

Definition categorized_state (w : EmailWorker.world) (e : EmailWorker.email_data)
  (db : database) (v : RagService.verdict) : database :=
  let row := List.length (requests db) in
  let request_id := (Z.of_nat row + 1)%Z in
  EmailWorker.update_request
    (EmailWorker.set_status
       (EmailWorker.update_request
          (EmailWorker.update_request (processing_state w e db) row
             (EmailWorker.with_compliance v))
          row (categorized_row w e (documents_text_of w e)))
       row request_id CATEGORIZED)
    row (EmailWorker.with_processed_at (EmailWorker.now_at_processed w)).

(** Generated keys: the row at position [i] has the key [i + 1]. *)
Definition keyed {A : Type} (pk : A -> Z) (rows : list A) : Prop :=
  forall i x, nth_error rows i = Some x -> pk x = (Z.of_nat i + 1)%Z.

Definition by_date (a b : Appointment) : Prop :=
  (appointment_date a <= appointment_date b)%Z.

(** A request as a finished run leaves it: stopped in the processing
    state without a type, or categorised (and perhaps scheduled) with
    one. *)
Definition settled (r : Request) : Prop :=
  (status r = PROCESSING /\ request_type r = None) \/
  ((status r = CATEGORIZED \/ status r = APPOINTMENT_SCHEDULED) /\
   request_type r <> None).

(** Runs of the task one after the other, each with its own message and
    its own answers from outside. *)
Definition run_all (runs : list (EmailWorker.world * EmailWorker.email_data))
  (db : database) : database :=
  fold_left (fun d run => snd (EmailWorker.process_email_task (fst run) (snd run) d))
    runs db.

(** The sum of the counts of [requests_by_type]. *)
Definition typed_requests (s : Routes.stats) : nat :=
  fold_right (fun kv acc => snd kv + acc) 0 (Routes.requests_by_type s).

(** The dates of the appointments a series of attempts made, in the
    order of the attempts. *)
Definition appointment_dates (answers : list (option (nat * Appointment))) : list Z :=
  flat_map (fun answer => match answer with
                          | Some (_, appointment) => [appointment_date appointment]
                          | None => []
                          end) answers.

(** No slot that can be booked at [now] lies before [bound]. *)
Definition none_before (bound : Z) (now : time) (slots : list AvailableSlot) : Prop :=
  forall s, In s slots -> AppointmentService.bookable now s = true ->
    (bound <= slot_date s)%Z.

(** A part the body can be read from as plain text. *)
Definition readable_plain (p : EmailService.part) : bool :=
  negb (EmailService.is_attachment p) &&
  String.eqb (EmailService.part_content_type p) "text/plain" &&
  match EmailService.decoded p with Some _ => true | None => false end.


(** * Properties *)

(** ** The decoder's fuel *)

Lemma skip_ws_length (s : string) :
  String.length (Json.skip_ws s) <= String.length s.
Proof.
  induction s as [|c r IH]; simpl; [lia|].
  destruct (Json.is_ws c); simpl; lia.
Qed.

Lemma cons_res_length (p : string) (res : option (string * string)) (b r : string) (n : nat) :
  Json.cons_res p res = Some (b, r) ->
  (forall b' r', res = Some (b', r') -> String.length r' < n) ->
  String.length r < n.
Proof.
  unfold Json.cons_res. destruct res as [[b' r']|]; [|discriminate].
  intros H Hres. inversion H; subst. now apply (Hres b' r).
Qed.

Lemma scan_string_length (n : nat) :
  forall s b r,
    Json.scan_string s = Some (b, r) -> String.length s <= n ->
    String.length r < String.length s.
Proof.
  induction n as [|n IH]; intros s b r H Hn.
  - destruct s; [discriminate | simpl in Hn; lia].
  - destruct s as [|c s1]; [discriminate|]. simpl in Hn. cbn [Json.scan_string] in H.
    destruct (Ascii.eqb c Text.dquote).
    + inversion H; subst. simpl. lia.
    + destruct (Ascii.eqb c Text.backslash).
      * destruct s1 as [|e s2]; [discriminate|]. simpl in Hn.
        destruct (Ascii.eqb e "u"%char).
        -- destruct s2 as [|h1 [|h2 [|h3 [|h4 s3]]]]; try discriminate.
           simpl in Hn. destruct (Json.hex4 h1 h2 h3 h4) as [code|]; [|discriminate].
           assert (Hone : forall res,
                     Json.cons_res res (Json.scan_string s3) = Some (b, r) ->
                     String.length r <
                     String.length
                       (String c (String e (String h1 (String h2 (String h3 (String h4 s3))))))).
           { intros res Hres. simpl. apply (cons_res_length _ _ _ _ _ Hres).
             intros b' r' Hr. apply IH in Hr; simpl in *; lia. }
           destruct s3 as [|b0 [|u0 [|l1 [|l2 [|l3 [|l4 s4]]]]]];
             try (now apply (Hone _ H)).
           destruct (if Json.is_high_surrogate code && Ascii.eqb b0 Text.backslash &&
                        Ascii.eqb u0 "u"%char
                     then Json.hex4 l1 l2 l3 l4 else None) as [low|];
             [|now apply (Hone _ H)].
           destruct (Json.is_low_surrogate low); [|now apply (Hone _ H)].
           simpl. simpl in Hn. apply (cons_res_length _ _ _ _ _ H).
           intros b' r' Hr. apply IH in Hr; simpl in *; lia.
        -- destruct (Json.unescape e); [|discriminate].
           simpl. apply (cons_res_length _ _ _ _ _ H).
           intros b' r' Hr. apply IH in Hr; simpl in *; lia.
      * destruct (Text.code c <? 32); [discriminate|].
        simpl. apply (cons_res_length _ _ _ _ _ H).
        intros b' r' Hr. apply IH in Hr; simpl in *; lia.
Qed.

Lemma drop_prefix_length (p : string) :
  forall s r, Json.drop_prefix p s = Some r -> String.length r <= String.length s.
Proof.
  induction p as [|a p IH]; intros s r H; simpl in H.
  - inversion H; subst. lia.
  - destruct s as [|b s']; [discriminate|].
    destruct (Ascii.eqb a b); [|discriminate]. apply IH in H. simpl. lia.
Qed.

Lemma span_digits_length (s : string) :
  String.length (snd (Text.span_digits s)) <= String.length s.
Proof.
  induction s as [|c r IH]; simpl; [lia|].
  destruct (Text.is_digit c); [|simpl; lia].
  destruct (Text.span_digits r) as [d t]. simpl in *. lia.
Qed.

Lemma scan_exp_length (s : string) (e : Z) (r : string) :
  Json.scan_exp s = Some (e, r) -> String.length r <= String.length s.
Proof.
  unfold Json.scan_exp. destruct s as [|c s1]; [discriminate|].
  destruct (_ || _); [|discriminate].
  destruct s1 as [|sg s2].
  - simpl. discriminate.
  - destruct (Ascii.eqb sg "-"%char).
    + pose proof (span_digits_length s2) as L.
      destruct (Text.span_digits s2) as [[|d0 d] t]; [discriminate|].
      intros H. inversion H; subst. simpl in *. lia.
    + destruct (Ascii.eqb sg "+"%char).
      * pose proof (span_digits_length s2) as L.
        destruct (Text.span_digits s2) as [[|d0 d] t]; [discriminate|].
        intros H. inversion H; subst. simpl in *. lia.
      * pose proof (span_digits_length (String sg s2)) as L.
        destruct (Text.span_digits (String sg s2)) as [[|d0 d] t]; [discriminate|].
        intros H. inversion H; subst. simpl in *. lia.
Qed.

Lemma scan_frac_length (s d r : string) :
  Json.scan_frac s = Some (d, r) -> String.length r <= String.length s.
Proof.
  unfold Json.scan_frac. destruct s as [|c s1]; [discriminate|].
  destruct (Ascii.eqb c "."%char); [|discriminate].
  pose proof (span_digits_length s1) as L.
  destruct (Text.span_digits s1) as [[|d0 d'] t]; [discriminate|].
  intros H. inversion H; subst. simpl in *. lia.
Qed.

Lemma scan_int_part_length (s d r : string) :
  Json.scan_int_part s = Some (d, r) -> String.length r <= String.length s.
Proof.
  unfold Json.scan_int_part. destruct s as [|c s1]; [discriminate|].
  destruct (Ascii.eqb c "0"%char).
  - intros H. inversion H; subst. simpl. lia.
  - destruct (Text.is_digit c); [|discriminate].
    pose proof (span_digits_length (String c s1)) as L.
    destruct (Text.span_digits (String c s1)) as [d' t].
    intros H. inversion H; subst. exact L.
Qed.

Lemma scan_number_length (s : string) (v : pyval) (r : string) :
  Json.scan_number s = Some (v, r) -> String.length r <= String.length s.
Proof.
  unfold Json.scan_number.
  set (start := match s with
                | String c r0 => if Ascii.eqb c "-"%char then (true, r0) else (false, s)
                | EmptyString => (false, s)
                end).
  assert (Hs : String.length (snd start) <= String.length s).
  { unfold start. destruct s as [|c r0]; simpl; [lia|].
    destruct (Ascii.eqb c "-"%char); simpl; lia. }
  destruct start as [neg s1]. simpl in Hs.
  destruct (Json.scan_int_part s1) as [[ip s2]|] eqn:Ei; [|discriminate].
  apply scan_int_part_length in Ei.
  destruct (Json.scan_frac s2) as [[fp s3]|] eqn:Ef.
  - apply scan_frac_length in Ef.
    destruct (Json.scan_exp s2) as [[e0 s0]|];
      (destruct (Json.scan_exp s3) as [[e s4]|] eqn:Ee;
       [apply scan_exp_length in Ee|]; intros H; inversion H; subst; lia).
  - destruct (Json.scan_exp s2) as [[e s3]|] eqn:Ee.
    + apply scan_exp_length in Ee. intros H; inversion H; subst; lia.
    + intros H; inversion H; subst; lia.
Qed.

Lemma scan_literal_length (s : string) (v : pyval) (r : string) :
  Json.scan_literal s = Some (v, r) -> String.length r <= String.length s.
Proof.
  unfold Json.scan_literal.
  repeat match goal with
  | |- context [Json.drop_prefix ?p s] =>
      let E := fresh "E" in
      destruct (Json.drop_prefix p s) eqn:E;
      [apply drop_prefix_length in E; intros H; inversion H; subst; exact E|]
  | |- context [Json.scan_number s] =>
      let E := fresh "E" in
      destruct (Json.scan_number s) as [[v' r']|] eqn:E;
      [apply scan_number_length in E; intros H; inversion H; subst; exact E|]
  end.
  discriminate.
Qed.

Ltac scan_lengths :=
  repeat match goal with
  | H : Json.scan_string ?s = Some (_, _) |- _ =>
      apply (fun E => scan_string_length _ _ _ _ E (le_n _)) in H
  | H : Json.skip_ws ?s = ?t |- _ =>
      let L := fresh "L" in
      assert (L : String.length t <= String.length s)
        by (rewrite <- H; apply skip_ws_length);
      clear H
  | H : Json.scan_literal _ = Some (_, _) |- _ => apply scan_literal_length in H
  end.

Ltac skip_ws_bounds :=
  repeat match goal with
  | H : context [Json.skip_ws ?x] |- _ =>
      lazymatch goal with
      | _ : String.length (Json.skip_ws x) <= String.length x |- _ => fail
      | _ => pose proof (skip_ws_length x)
      end
  end.

Ltac scan_cases H :=
  repeat match type of H with
  | match ?x with _ => _ end = _ => destruct x eqn:?; try discriminate
  | (if ?b then _ else _) = _ => destruct b eqn:?; try discriminate
  | (let '(_, _) := ?x in _) = _ => destruct x eqn:?; try discriminate
  end.

Lemma scan_length (f : nat) :
  (forall s v r, Json.scan_once f s = Some (v, r) ->
     String.length r <= String.length s) /\
  (forall s acc v r, Json.scan_members f s acc = Some (v, r) ->
     String.length r <= String.length s) /\
  (forall s acc v r, Json.scan_elements f s acc = Some (v, r) ->
     String.length r <= String.length s).
Proof.
  induction f as [|f (IHo & IHm & IHe)].
  - repeat split; intros; discriminate.
  - split; [|split].
    + intros s v r H. cbn [Json.scan_once] in H.
      scan_cases H; subst;
        try (inversion H; subst; clear H); scan_lengths; simpl in *;
        try match goal with
        | H : Json.scan_members _ _ _ = Some _ |- _ => apply IHm in H
        | H : Json.scan_elements _ _ _ = Some _ |- _ => apply IHe in H
        end; skip_ws_bounds; simpl in *; try lia.
    + intros s acc v r H. cbn [Json.scan_members] in H.
      scan_cases H; subst;
        try (inversion H; subst; clear H); scan_lengths; simpl in *;
        repeat match goal with
        | H : Json.scan_members _ _ _ = Some _ |- _ => apply IHm in H
        | H : Json.scan_once _ _ = Some _ |- _ => apply IHo in H
        end; skip_ws_bounds; simpl in *; try lia.
    + intros s acc v r H. cbn [Json.scan_elements] in H.
      scan_cases H; subst;
        try (inversion H; subst; clear H); scan_lengths; simpl in *;
        repeat match goal with
        | H : Json.scan_elements _ _ _ = Some _ |- _ => apply IHe in H
        | H : Json.scan_once _ _ = Some _ |- _ => apply IHo in H
        end; skip_ws_bounds; simpl in *; try lia.
Qed.

Ltac scan_bound f :=
  scan_lengths;
  repeat match goal with
  | H : Json.scan_once f _ = Some (_, _) |- _ =>
      apply (proj1 (scan_length f)) in H
  | H : Json.scan_members f _ _ = Some (_, _) |- _ =>
      apply (proj1 (proj2 (scan_length f))) in H
  | H : Json.scan_elements f _ _ = Some (_, _) |- _ =>
      apply (proj2 (proj2 (scan_length f))) in H
  end;
  skip_ws_bounds;
  repeat match goal with
  | |- context [Json.skip_ws ?x] =>
      lazymatch goal with
      | _ : String.length (Json.skip_ws x) <= String.length x |- _ => fail
      | _ => pose proof (skip_ws_length x)
      end
  end;
  simpl in *; lia.

(** More fuel than twice the length of the text changes nothing. *)
Lemma scan_fuel (f : nat) :
  (forall s f', 2 * String.length s + 1 <= f -> f <= f' ->
     Json.scan_once f' s = Json.scan_once f s) /\
  (forall s acc f', 2 * String.length s + 2 <= f -> f <= f' ->
     Json.scan_members f' s acc = Json.scan_members f s acc) /\
  (forall s acc f', 2 * String.length s + 2 <= f -> f <= f' ->
     Json.scan_elements f' s acc = Json.scan_elements f s acc).
Proof.
  induction f as [|f (IHo & IHm & IHe)].
  - repeat split; intros; lia.
  - split; [|split].
    + intros s [|f'] Hb Hf; [lia|]. cbn [Json.scan_once].
      repeat first
        [ reflexivity
        | match goal with
          | |- context [Json.scan_members f' ?x ?a] =>
              rewrite (IHm x a f') by scan_bound f
          | |- context [Json.scan_elements f' ?x ?a] =>
              rewrite (IHe x a f') by scan_bound f
          | |- match ?x with _ => _ end = match ?x with _ => _ end => destruct x eqn:?
          | |- (if ?b then _ else _) = (if ?b then _ else _) => destruct b eqn:?
          end ].
    + intros s acc [|f'] Hb Hf; [lia|]. cbn [Json.scan_members].
      repeat first
        [ reflexivity
        | match goal with
          | |- context [Json.scan_once f' ?x] =>
              rewrite (IHo x f') by scan_bound f
          | |- context [Json.scan_members f' ?x ?a] =>
              rewrite (IHm x a f') by scan_bound f
          | |- match ?x with _ => _ end = match ?x with _ => _ end => destruct x eqn:?
          | |- (if ?b then _ else _) = (if ?b then _ else _) => destruct b eqn:?
          end ].
    + intros s acc [|f'] Hb Hf; [lia|]. cbn [Json.scan_elements].
      repeat first
        [ reflexivity
        | match goal with
          | |- context [Json.scan_once f' ?x] =>
              rewrite (IHo x f') by scan_bound f
          | |- context [Json.scan_elements f' ?x ?a] =>
              rewrite (IHe x a f') by scan_bound f
          | |- match ?x with _ => _ end = match ?x with _ => _ end => destruct x eqn:?
          | |- (if ?b then _ else _) = (if ?b then _ else _) => destruct b eqn:?
          end ].
Qed.

(** [json.loads] does not depend on the fuel it is given, once there is
    enough of it. *)
Lemma loads_fuel (s : string) (f : nat) :
  2 * String.length s + 2 <= f ->
  Json.scan_once f (Json.skip_ws s) =
  Json.scan_once (2 * String.length s + 2) (Json.skip_ws s).
Proof.
  intros Hf. apply (proj1 (scan_fuel (2 * String.length s + 2))); [|exact Hf].
  pose proof (skip_ws_length s). lia.
Qed.

(** ** Dictionaries *)

Lemma lookup_set_same (d : Py.dict) (k : string) (v : pyval) :
  Py.lookup (Py.set d k v) k = Some v.
Proof.
  induction d as [|[k' v'] r IH]; simpl.
  - now rewrite String.eqb_refl.
  - destruct (String.eqb k' k) eqn:E; simpl.
    + now rewrite String.eqb_refl.
    + now rewrite E.
Qed.

Lemma lookup_set_other (d : Py.dict) (k k' : string) (v : pyval) :
  k <> k' -> Py.lookup (Py.set d k v) k' = Py.lookup d k'.
Proof.
  intros Hne. induction d as [|[k0 v0] r IH]; simpl.
  - destruct (String.eqb k k') eqn:E; [apply String.eqb_eq in E; contradiction | reflexivity].
  - destruct (String.eqb k0 k) eqn:E; simpl.
    + apply String.eqb_eq in E. subst k0.
      destruct (String.eqb k k') eqn:E'; [apply String.eqb_eq in E'; contradiction | reflexivity].
    + destruct (String.eqb k0 k'); [reflexivity | exact IH].
Qed.

Lemma get_set_same (d : Py.dict) (k : string) (v dflt : pyval) :
  Py.get (Py.set d k v) k dflt = v.
Proof. unfold Py.get. now rewrite lookup_set_same. Qed.

Lemma get_set_other (d : Py.dict) (k k' : string) (v dflt : pyval) :
  k <> k' -> Py.get (Py.set d k v) k' dflt = Py.get d k' dflt.
Proof. intros H. unfold Py.get. now rewrite lookup_set_other. Qed.

Ltac dict_get :=
  repeat first
    [ rewrite get_set_same
    | rewrite get_set_other by discriminate ].


(** ** The guideline extraction *)

Lemma extract_line_passport (st : list string * bool) (line : string) :
  passport_or_nothing (fst st) ->
  passport_or_nothing (fst (RagService.extract_line st line)).
Proof.
  destruct st as [docs flag]. unfold RagService.extract_line. simpl.
  intros [-> | ->].
  - repeat match goal with |- context [if ?b then _ else _] => destruct b end;
      simpl; unfold passport_or_nothing; auto.
  - assert (Hm : Text.mem "passport" (map Text.lower ["passport"]) = true) by reflexivity.
    rewrite Hm. rewrite andb_false_r.
    repeat match goal with |- context [if ?b then _ else _] => destruct b end;
      simpl; unfold passport_or_nothing; auto.
Qed.

Lemma extract_lines_passport (lines : list string) (st : list string * bool) :
  passport_or_nothing (fst st) ->
  passport_or_nothing (fst (fold_left RagService.extract_line lines st)).
Proof.
  revert st. induction lines as [|l r IH]; intros st H; simpl.
  - exact H.
  - apply IH. now apply extract_line_passport.
Qed.

Lemma extract_passport_or_nothing (guideline_text : string) :
  passport_or_nothing
    (RagService._extract_required_documents_from_guideline guideline_text).
Proof.
  unfold RagService._extract_required_documents_from_guideline.
  destruct (String.eqb guideline_text EmptyString); [now left|].
  pose proof (extract_lines_passport
                (Text.split Text.newline guideline_text) ([], false)
                (or_introl eq_refl)) as H.
  destruct (fst (fold_left RagService.extract_line
                   (Text.split Text.newline guideline_text) ([], false))) as [|d ds] eqn:E.
  - repeat match goal with |- context [if ?b then _ else _] => destruct b end;
      unfold passport_or_nothing; simpl; auto.
  - exact H.
Qed.

(** ** The correction pass *)

Lemma missing_from_ok (required : list string) (present : pyval) (missing : list string) :
  required <> [] ->
  RagService.missing_from required present = Ok missing ->
  exists lowered,
    Py.lowered present = Some lowered /\ missing = ci_difference required lowered.
Proof.
  intros Hne H. unfold RagService.missing_from in H.
  destruct required as [|d ds]; [contradiction|].
  destruct (Py.lowered present) as [lowered|]; [|discriminate].
  exists lowered. split; [reflexivity|]. now inversion H.
Qed.

Lemma ci_difference_length (required lowered : list string) :
  List.length (ci_difference required lowered) <= List.length required.
Proof. unfold ci_difference. apply filter_length_le. Qed.

Lemma strs_nil (l : list string) : Py.strs l = PList [] <-> l = [].
Proof.
  unfold Py.strs. split.
  - intros H. destruct l; [reflexivity | discriminate].
  - now intros ->.
Qed.

(** What the correction pass leaves in the dictionary. *)
Lemma correction_pass_fields (student_text : string) (student_documents : list string)
  (required : list string) (data data' : Py.dict) :
  required <> [] ->
  RagService.correction_pass student_text student_documents required data = Ok data' ->
  exists lowered,
    let missing := ci_difference required lowered in
    Py.lowered (Py.get data' "present_documents" (PList [])) = Some lowered /\
    Py.get data' "required_documents" (PList []) = Py.strs required /\
    Py.get data' "missing_documents" (PList []) = Py.strs missing /\
    Py.get data' "is_compliant" (PBool false) = PBool (List.length missing =? 0) /\
    Py.get data' "compliance_score" (Py.float 0) =
      PFloat (if List.length missing =? 0 then Fin 100
              else RagService.partial_score (List.length required) (List.length missing)).
Proof.
  intros Hne H. unfold RagService.correction_pass in H.
  destruct (RagService.add_passport_by_keyword _ _ _) as [present|err]; [|discriminate].
  simpl in H.
  destruct (RagService.missing_from required present) as [missing|err] eqn:Em;
    [|discriminate].
  simpl in H. inversion H; subst data'; clear H.
  destruct (missing_from_ok _ _ _ Hne Em) as (lowered & Hl & ->).
  exists lowered. simpl. dict_get. repeat split; auto.
Qed.

Lemma compare_steps (ext : RagService.collaborators) (student_text : string)
  (student_documents : list string) (request_type : option string)
  (v : RagService.verdict) :
  RagService.compare_with_guidelines ext student_text student_documents request_type = Ok v ->
  exists relevant analysis_text,
    RagService.retrieve ext student_text student_documents request_type = Ok relevant /\
    RagService.llm_invoke ext (RagService.combined student_text student_documents)
      (RagService.guidelines_context (map RagService.hit_document relevant)) =
      Ok analysis_text /\
    RagService.merge_judgment student_text student_documents relevant analysis_text = Ok v.
Proof.
  unfold RagService.compare_with_guidelines. intros H.
  destruct (RagService.retrieve _ _ _ _) as [relevant|e]; [|discriminate].
  simpl in H.
  destruct (RagService.llm_invoke _ _ _) as [analysis_text|e] eqn:El; [|discriminate].
  simpl in H. now exists relevant, analysis_text.
Qed.

(** The verdict when the guideline extraction is not empty. *)
Lemma merge_overridden (student_text : string) (student_documents : list string)
  (relevant : list RagService.hit) (analysis_text : string) (v : RagService.verdict) :
  let required :=
    RagService._extract_required_documents_from_guideline
      (RagService.primary_text relevant) in
  required <> [] ->
  RagService.merge_judgment student_text student_documents relevant analysis_text = Ok v ->
  exists lowered,
    let missing := ci_difference required lowered in
    Py.lowered (RagService.present_documents v) = Some lowered /\
    RagService.required_documents v = Py.strs required /\
    RagService.missing_documents v = Py.strs missing /\
    RagService.is_compliant v = PBool (List.length missing =? 0) /\
    RagService.compliance_score v =
      PFloat (if List.length missing =? 0 then Fin 100
              else RagService.partial_score (List.length required) (List.length missing)).
Proof.
  intros required Hne H. unfold RagService.merge_judgment in H. fold required in H.
  destruct required as [|d ds] eqn:Er; [contradiction|].
  destruct (RagService.correction_pass _ _ _ _) as [data'|e] eqn:Ec; [|discriminate].
  simpl in H. inversion H; subst v; clear H. simpl.
  destruct (correction_pass_fields _ _ _ _ _ Hne Ec) as (lowered & H1 & H2 & H3 & H4 & H5).
  exists lowered. auto.
Qed.

(** C5.  When the guideline extraction returns a non-empty list, the
    verdict of [compare_with_guidelines] has that list as its required
    documents, its missing documents are the case-insensitive difference
    of the required and the present documents, and its score is 100 when
    nothing is missing and otherwise the share of required documents that
    are present, times 100. *)
Theorem guideline_extraction_overrides (ext : RagService.collaborators)
  (student_text : string) (student_documents : list string)
  (request_type : option string) (relevant : list RagService.hit)
  (v : RagService.verdict) :
  RagService.retrieve ext student_text student_documents request_type = Ok relevant ->
  RagService.compare_with_guidelines ext student_text student_documents request_type = Ok v ->
  let required :=
    RagService._extract_required_documents_from_guideline
      (RagService.primary_text relevant) in
  required <> [] ->
  RagService.required_documents v = Py.strs required /\
  exists present missing score,
    Py.lowered (RagService.present_documents v) = Some present /\
    missing = ci_difference required present /\
    RagService.missing_documents v = Py.strs missing /\
    RagService.compliance_score v = Py.float score /\
    (score == share_score (List.length required) (List.length missing))%Q.
Proof.
  intros Hr Hc required Hne.
  destruct (compare_steps _ _ _ _ _ Hc) as (relevant' & analysis_text & Hr' & _ & Hm).
  rewrite Hr in Hr'. inversion Hr'; subst relevant'; clear Hr'.
  destruct (merge_overridden _ _ _ _ _ Hne Hm) as (lowered & H1 & H2 & H3 & _ & H5).
  split; [exact H2|].
  fold required in H5, H3.
  destruct (extract_passport_or_nothing (RagService.primary_text relevant)) as [E|E];
    fold required in E; [contradiction|].
  exists lowered, (ci_difference required lowered).
  rewrite E in *. unfold ci_difference in *. cbn [filter map] in *.
  destruct (negb _).
  - exists 0%Q. repeat split; auto.
  - exists 100%Q. repeat split; auto.
Qed.

Lemma guideline_extraction_overrides_witness :
  let v := {| RagService.is_compliant := PBool false;
              RagService.compliance_score := Py.float 0;
              RagService.present_documents := PList [];
              RagService.missing_documents := PList [PStr "passport"];
              RagService.required_documents := PList [PStr "passport"];
              RagService.issues := PList [];
              RagService.analysis := Sample.structured_answer;
              RagService.relevant_guidelines := ["guideline_residence_permit"] |} in
  RagService.compare_with_guidelines (Sample.grounded Sample.structured_answer)
    "Please extend my permit." [] None = Ok v /\
  RagService.required_documents v = Py.strs ["passport"] /\
  exists present missing score,
    Py.lowered (RagService.present_documents v) = Some present /\
    missing = ci_difference ["passport"] present /\
    RagService.missing_documents v = Py.strs missing /\
    RagService.compliance_score v = Py.float score /\
    (score == share_score 1 (List.length missing))%Q.
Proof.
  intros v.
  assert (Hc : RagService.compare_with_guidelines (Sample.grounded Sample.structured_answer)
                 "Please extend my permit." [] None = Ok v) by (vm_compute; reflexivity).
  split; [exact Hc|].
  apply (guideline_extraction_overrides (Sample.grounded Sample.structured_answer)
           "Please extend my permit." [] None
           [ {| RagService.hit_id := "guideline_residence_permit";
                RagService.hit_document := Sample.passport_guideline |} ] v).
  - reflexivity.
  - exact Hc.
  - vm_compute. discriminate.
Defined.

(** C1 (as stated, refuted).  With no guideline retrieved and a judgment
    that is plain text saying the request is not compliant, the verdict is
    non-compliant with an empty list of missing documents. *)
Lemma verdict_inconsistent_without_extraction :
  exists v,
    RagService.compare_with_guidelines (Sample.ungrounded "The request is not compliant.")
      "Please extend my permit." [] None = Ok v /\
    RagService._extract_required_documents_from_guideline (RagService.primary_text []) = [] /\
    RagService.is_compliant v = PBool false /\
    RagService.missing_documents v = PList [] /\
    ~ verdict_consistent v.
Proof.
  eexists. split; [vm_compute; reflexivity|].
  split; [reflexivity|]. split; [reflexivity|]. split; [reflexivity|].
  intros [[_ H] _]. simpl in H. specialize (H eq_refl). discriminate.
Qed.

(** C1 (amended).  On every return of [compare_with_guidelines] for which
    the guideline extraction is not empty, whatever the judgment's answer
    was (parsed or not), the verdict is compliant exactly when its list of
    missing documents is empty, and a compliant verdict has score 100. *)
Theorem verdict_consistent_after_extraction (ext : RagService.collaborators)
  (student_text : string) (student_documents : list string)
  (request_type : option string) (relevant : list RagService.hit)
  (v : RagService.verdict) :
  RagService.retrieve ext student_text student_documents request_type = Ok relevant ->
  RagService._extract_required_documents_from_guideline
    (RagService.primary_text relevant) <> [] ->
  RagService.compare_with_guidelines ext student_text student_documents request_type = Ok v ->
  verdict_consistent v.
Proof.
  intros Hr Hne Hc.
  destruct (compare_steps _ _ _ _ _ Hc) as (relevant' & analysis_text & Hr' & _ & Hm).
  rewrite Hr in Hr'. inversion Hr'; subst relevant'; clear Hr'.
  destruct (merge_overridden _ _ _ _ _ Hne Hm) as (lowered & _ & _ & H3 & H4 & H5).
  unfold verdict_consistent. rewrite H3, H4, H5.
  destruct (ci_difference _ lowered) as [|m ms]; simpl.
  - split; [tauto|]. intros _. reflexivity.
  - split; [split; discriminate | discriminate].
Qed.

Lemma verdict_consistent_after_extraction_witness :
  let ext := Sample.grounded "The request is not compliant." in
  exists v,
    RagService.compare_with_guidelines ext "Attached: passport copy." [] None = Ok v /\
    RagService.is_compliant v = PBool true /\
    verdict_consistent v.
Proof.
  intros ext.
  eexists. split; [vm_compute; reflexivity|]. split; [reflexivity|].
  apply (verdict_consistent_after_extraction ext "Attached: passport copy." [] None
           [ {| RagService.hit_id := "guideline_residence_permit";
                RagService.hit_document := Sample.passport_guideline |} ]).
  - reflexivity.
  - vm_compute. discriminate.
  - vm_compute. reflexivity.
Defined.

(** C10.  The guideline extraction returns the empty list or the list
    with the one entry "passport"; so the correction pass, which runs when
    the extraction is not empty, leaves exactly that list as the required
    documents of the verdict. *)
Theorem extraction_is_passport_only :
  (forall guideline_text,
     RagService._extract_required_documents_from_guideline guideline_text = [] \/
     RagService._extract_required_documents_from_guideline guideline_text = ["passport"]) /\
  (forall ext student_text student_documents request_type relevant v,
     RagService.retrieve ext student_text student_documents request_type = Ok relevant ->
     RagService._extract_required_documents_from_guideline
       (RagService.primary_text relevant) <> [] ->
     RagService.compare_with_guidelines ext student_text student_documents request_type = Ok v ->
     RagService.required_documents v = PList [PStr "passport"]).
Proof.
  split.
  - intros guideline_text. apply extract_passport_or_nothing.
  - intros ext student_text student_documents request_type relevant v Hr Hne Hc.
    destruct (compare_steps _ _ _ _ _ Hc) as (relevant' & analysis_text & Hr' & _ & Hm).
    rewrite Hr in Hr'. inversion Hr'; subst relevant'; clear Hr'.
    destruct (merge_overridden _ _ _ _ _ Hne Hm) as (lowered & _ & H2 & _).
    rewrite H2.
    destruct (extract_passport_or_nothing (RagService.primary_text relevant)) as [E|E].
    + contradiction.
    + now rewrite E.
Qed.

Lemma extraction_is_passport_only_witness :
  RagService._extract_required_documents_from_guideline Sample.passport_guideline =
    ["passport"] /\
  exists v,
    RagService.compare_with_guidelines (Sample.grounded Sample.structured_answer)
      "Please extend my permit." [] None = Ok v /\
    RagService.required_documents v = PList [PStr "passport"].
Proof.
  split; [vm_compute; reflexivity|].
  eexists. split; [vm_compute; reflexivity|].
  apply (proj2 extraction_is_passport_only (Sample.grounded Sample.structured_answer)
           "Please extend my permit." [] None
           [ {| RagService.hit_id := "guideline_residence_permit";
                RagService.hit_document := Sample.passport_guideline |} ]).
  - reflexivity.
  - vm_compute. discriminate.
  - vm_compute. reflexivity.
Defined.

(** ** The keyword fallback *)

Lemma not_compliant_is_negative (text_lower : string) :
  Text.contains "not compliant" text_lower = true ->
  Text.any_in RagService.negative_indicators text_lower = true.
Proof.
  intros H. unfold Text.any_in, RagService.negative_indicators.
  cbn [existsb]. now rewrite H.
Qed.

(** C4 (as stated, refuted).  The answer "not compliant" holds no JSON,
    no positive keyword and no number; the fallback classifies it as
    non-compliant and leaves the score at its default of 50, not 30. *)
Lemma fallback_score_stays_50 :
  let text := "not compliant" in
  RagService.first_parsed RagService.json_patterns text = None /\
  Text.contains "not compliant" (Text.lower text) = true /\
  Text.any_in RagService.positive_indicators (Text.lower text) = false /\
  RagService.extract_score RagService.score_patterns (Text.lower text) = None /\
  Py.lookup (RagService._parse_compliance_analysis text) "is_compliant" =
    Some (PBool false) /\
  Py.lookup (RagService._parse_compliance_analysis text) "compliance_score" =
    Some (Py.float 50) /\
  ~ is_number (Py.float 50) 30.
Proof.
  cbv zeta. repeat (split; [vm_compute; reflexivity|]).
  simpl. intros H. vm_compute in H. discriminate.
Qed.

(** C4 (amended).  For every answer in ASCII from which no JSON with the
    flag can be parsed, that contains "not compliant", no positive keyword
    and no score that the patterns extract, the fallback yields a
    non-compliant verdict with the default score 50 and empty document
    lists.  The answer is taken in ASCII because the patterns of the code
    read any Unicode digit as a digit and any Unicode white space as
    white space, so that only there "no score that the patterns extract"
    means the same here and in the code. *)
Theorem fallback_not_compliant (analysis_text : string) :
  Text.is_ascii analysis_text = true ->
  RagService.first_parsed RagService.json_patterns analysis_text = None ->
  Text.contains "not compliant" (Text.lower analysis_text) = true ->
  Text.any_in RagService.positive_indicators (Text.lower analysis_text) = false ->
  RagService.extract_score RagService.score_patterns (Text.lower analysis_text) = None ->
  RagService._parse_compliance_analysis analysis_text =
    [ ("is_compliant", PBool false);
      ("compliance_score", Py.float 50);
      ("present_documents", PList []);
      ("missing_documents", PList []);
      ("required_documents", PList []);
      ("issues", PList [PStr analysis_text]) ].
Proof.
  intros _ Hjson Hneg Hpos Hscore.
  unfold RagService._parse_compliance_analysis. rewrite Hjson.
  assert (Hflag : RagService.fallback_flag (Text.lower analysis_text) = false).
  { unfold RagService.fallback_flag.
    rewrite (not_compliant_is_negative _ Hneg), Hpos. reflexivity. }
  rewrite Hflag.
  unfold RagService.fallback_score. rewrite Hscore. reflexivity.
Qed.

Lemma fallback_not_compliant_witness :
  RagService._parse_compliance_analysis "The submission is not compliant." =
    [ ("is_compliant", PBool false);
      ("compliance_score", Py.float 50);
      ("present_documents", PList []);
      ("missing_documents", PList []);
      ("required_documents", PList []);
      ("issues", PList [PStr "The submission is not compliant."]) ].
Proof.
  apply (fallback_not_compliant "The submission is not compliant.");
    vm_compute; reflexivity.
Defined.

(** ** The categoriser *)




(** ** The slot allocator *)

Lemma enumerate_In {A : Type} (l : list A) (k i : nat) (x : A) :
  In (i, x) (AppointmentService.enumerate k l) <->
  k <= i /\ nth_error l (i - k) = Some x.
Proof.
  revert k. induction l as [|y r IH]; intros k; simpl.
  - split; [contradiction|]. intros [_ H]. destruct (i - k); discriminate.
  - rewrite IH. split.
    + intros [H | [Hle Hn]].
      * inversion H; subst. split; [lia|]. now rewrite Nat.sub_diag.
      * split; [lia|]. replace (i - k) with (S (i - S k)) by lia. exact Hn.
    + intros [Hle Hn]. destruct (i - k) as [|j] eqn:E.
      * left. inversion Hn; subst. f_equal. lia.
      * right. split; [lia|]. replace (i - S k) with j by lia. exact Hn.
Qed.

Lemma enumerate_in_row_order (l : list AvailableSlot) (k : nat) :
  in_row_order (AppointmentService.enumerate k l).
Proof.
  revert k. induction l as [|y r IH]; intros k; simpl.
  - constructor.
  - constructor; [apply IH|].
    apply Forall_forall. intros [i x] Hin. apply enumerate_In in Hin. simpl. lia.
Qed.

Lemma filter_in_row_order (f : nat * AvailableSlot -> bool)
  (rows : list (nat * AvailableSlot)) :
  in_row_order rows -> in_row_order (filter f rows).
Proof.
  induction 1 as [|a l Hs IH Hall]; simpl.
  - constructor.
  - destruct (f a); [|exact IH].
    constructor; [exact IH|].
    apply Forall_forall. intros x Hx. apply filter_In in Hx.
    rewrite Forall_forall in Hall. now apply Hall.
Qed.

(** [earliest] returns a row of the least date, and of the rows with
    that date the one that comes first. *)
Lemma earliest_spec (rows : list (nat * AvailableSlot)) :
  forall best,
    in_row_order (best :: rows) ->
    let r := AppointmentService.earliest best rows in
    In r (best :: rows) /\
    forall x, In x (best :: rows) ->
      (slot_date (snd r) <= slot_date (snd x))%Z /\
      (slot_date (snd x) = slot_date (snd r) -> fst r <= fst x).
Proof.
  induction rows as [|c rest IH]; intros best Hs; simpl.
  - split; [now left|]. intros x [<- | []]. split; [lia | auto].
  - inversion Hs as [|? ? Hs' Hall]; subst.
    inversion Hs' as [|? ? Hs'' Hall']; subst.
    inversion Hall as [|? ? Hbc Hbrest]; subst.
    destruct (Z.ltb_spec (slot_date (snd c)) (slot_date (snd best))) as [Hlt | Hge].
    + destruct (IH c Hs') as [Hin Hmin].
      split; [now right|].
      intros x [<- | Hx].
      * destruct (Hmin c (or_introl eq_refl)) as [Hd _]. split; lia.
      * now apply Hmin.
    + assert (Hs1 : in_row_order (best :: rest)) by (constructor; assumption).
      destruct (IH best Hs1) as [Hin Hmin].
      split; [destruct Hin as [<- | Hin]; [now left | right; now right]|].
      intros x [<- | [<- | Hx]].
      * now apply Hmin; left.
      * destruct (Hmin best (or_introl eq_refl)) as [Hd Ht].
        split; [lia|]. intros E. assert (fst (AppointmentService.earliest best rest) <= fst best)
          by (apply Ht; lia). lia.
      * apply Hmin. now right.
Qed.

Lemma bookable_available (now : time) (s : AvailableSlot) :
  is_available s = (current_bookings s <? max_capacity s)%Z ->
  (AppointmentService.bookable now s = true <-> available now s).
Proof.
  intros Hf. unfold AppointmentService.bookable, available. rewrite Hf.
  rewrite !andb_true_iff, !Z.ltb_lt. tauto.
Qed.

(** What the query returns, in terms of its own filter. *)
Lemma get_next_available_slot_spec (db : database) (now : time) :
  match AppointmentService.get_next_available_slot db now with
  | None =>
      forall s, In s (available_slots db) -> AppointmentService.bookable now s = false
  | Some (i, s) =>
      nth_error (available_slots db) i = Some s /\
      AppointmentService.bookable now s = true /\
      forall j s', nth_error (available_slots db) j = Some s' ->
        AppointmentService.bookable now s' = true ->
        (slot_date s <= slot_date s')%Z /\ (slot_date s' = slot_date s -> i <= j)
  end.
Proof.
  unfold AppointmentService.get_next_available_slot.
  set (f := fun r : nat * AvailableSlot => AppointmentService.bookable now (snd r)).
  set (rows := filter f (AppointmentService.enumerate 0 (available_slots db))).
  assert (Hrows : forall i s, In (i, s) rows <->
                    nth_error (available_slots db) i = Some s /\
                    AppointmentService.bookable now s = true).
  { intros i s. unfold rows. rewrite filter_In, enumerate_In. unfold f. simpl.
    rewrite Nat.sub_0_r. split; [tauto|]. intros [H1 H2]. repeat split; auto; lia. }
  assert (Hs : in_row_order rows)
    by (apply filter_in_row_order, enumerate_in_row_order).
  destruct rows as [|best rest] eqn:E; simpl.
  - intros s Hin. destruct (AppointmentService.bookable now s) eqn:Eb; [|reflexivity].
    apply In_nth_error in Hin. destruct Hin as [i Hi].
    exfalso. apply (proj2 (Hrows i s)). split; assumption.
  - destruct (earliest_spec rest best Hs) as [Hin Hmin].
    destruct (AppointmentService.earliest best rest) as [i s] eqn:Er.
    apply Hrows in Hin. destruct Hin as [Hn Hb].
    split; [exact Hn|]. split; [exact Hb|].
    intros j s' Hn' Hb'.
    apply (Hmin (j, s')). apply Hrows. split; assumption.
Qed.

Lemma update_row_length {A : Type} (i : nat) (f : A -> A) (l : list A) :
  List.length (AppointmentService.update_row i f l) = List.length l.
Proof.
  revert i. induction l as [|x r IH]; intros [|j]; simpl; auto.
Qed.



Lemma update_row_Forall {A : Type} (P : A -> Prop) (i : nat) (f : A -> A) (l : list A) :
  Forall P l ->
  (forall x, nth_error l i = Some x -> P (f x)) ->
  Forall P (AppointmentService.update_row i f l).
Proof.
  revert i. induction l as [|y r IH]; intros [|j] Hall Hf; simpl; auto.
  - inversion Hall; subst. constructor; [now apply Hf | assumption].
  - inversion Hall; subst. constructor; [assumption|]. apply IH; auto.
Qed.


Lemma update_row_app_last {A : Type} (f : A -> A) (l : list A) (x : A) :
  AppointmentService.update_row (List.length l) f (l ++ [x]) = l ++ [f x].
Proof. induction l as [|y r IH]; simpl; [reflexivity | now rewrite IH]. Qed.

Lemma nth_error_app_last {A : Type} (l : list A) (x : A) :
  nth_error (l ++ [x]) (List.length l) = Some x.
Proof. induction l as [|y r IH]; simpl; auto. Qed.





Lemma book_within_capacity (now : time) (s : AvailableSlot) :
  AppointmentService.bookable now s = true ->
  (0 <= current_bookings s <= max_capacity s)%Z ->
  (0 <= current_bookings (AppointmentService.book s) <=
   max_capacity (AppointmentService.book s))%Z.
Proof.
  unfold AppointmentService.bookable. intros Hb Hc. simpl.
  apply andb_true_iff in Hb. destruct Hb as [_ Hlt]. apply Z.ltb_lt in Hlt. lia.
Qed.

Lemma book_flag_derived (now : time) (s : AvailableSlot) :
  AppointmentService.bookable now s = true ->
  is_available (AppointmentService.book s) =
  (current_bookings (AppointmentService.book s) <?
   max_capacity (AppointmentService.book s))%Z.
Proof.
  unfold AppointmentService.bookable. intros Hb. simpl.
  apply andb_true_iff in Hb. destruct Hb as [Hb _].
  apply andb_true_iff in Hb. destruct Hb as [Ha _].
  destruct (Z.leb_spec (max_capacity s) (current_bookings s + 1)) as [H|H];
    destruct (Z.ltb_spec (current_bookings s + 1) (max_capacity s)); try lia; auto.
Qed.

(** One allocation, as it changes the slot table. *)
Lemma schedule_appointment_step (db : database) (now : time)
  (student_id request_id : Z) (required_documents : pyval) :
  match AppointmentService.get_next_available_slot db now with
  | None =>
      AppointmentService.schedule_appointment db now student_id request_id
        required_documents = (None, db)
  | Some (i, s) =>
      exists a db',
        AppointmentService.schedule_appointment db now student_id request_id
          required_documents = (Some a, db') /\
        available_slots db' =
          AppointmentService.update_row i AppointmentService.book (available_slots db) /\
        appointments db' = appointments db ++ [a] /\
        requests db' = requests db /\
        students db' = students db /\
        documents db' = documents db /\
        status_log db' = status_log db
  end.
Proof.
  unfold AppointmentService.schedule_appointment.
  destruct (AppointmentService.get_next_available_slot db now) as [[i s]|].
  - eexists. eexists. split; [reflexivity|]. simpl. repeat split.
  - reflexivity.
Qed.



Lemma In_update_row {A : Type} (i : nat) (f : A -> A) (l : list A) (x : A) :
  In x (AppointmentService.update_row i f l) ->
  In x l \/ exists y, nth_error l i = Some y /\ x = f y.
Proof.
  revert i. induction l as [|y r IH]; intros [|j] H; simpl in *; auto.
  - destruct H as [<- | H]; [right; eauto | left; now right].
  - destruct H as [<- | H]; [left; now left|].
    destruct (IH j H) as [H' | H']; [left; now right | now right].
Qed.


(** C6.  In a pool whose availability flags are the derived ones,
    [get_next_available_slot] returns none when no slot has a place left
    and a date strictly in the future, and otherwise returns, of all such
    slots, one of the earliest date, the first in insertion order among
    those of that date. *)
Theorem next_slot_is_earliest_available (db : database) (now : time) :
  flags_derived (available_slots db) ->
  ((forall s, In s (available_slots db) -> ~ available now s) ->
   AppointmentService.get_next_available_slot db now = None) /\
  ((exists s, In s (available_slots db) /\ available now s) ->
   exists i s,
     AppointmentService.get_next_available_slot db now = Some (i, s) /\
     nth_error (available_slots db) i = Some s /\
     available now s /\
     forall j s', nth_error (available_slots db) j = Some s' -> available now s' ->
       (slot_date s <= slot_date s')%Z /\ (slot_date s' = slot_date s -> i <= j)).
Proof.
  intros Hf. unfold flags_derived in Hf. rewrite Forall_forall in Hf.
  pose proof (get_next_available_slot_spec db now) as Hspec.
  destruct (AppointmentService.get_next_available_slot db now) as [[i s]|].
  - destruct Hspec as (Hn & Hb & Hmin).
    assert (Hin : In s (available_slots db)) by (eapply nth_error_In; eauto).
    assert (Ha : available now s) by (apply (bookable_available now s (Hf s Hin)); exact Hb).
    split.
    + intros Hnone. exfalso. exact (Hnone s Hin Ha).
    + intros _. exists i, s. repeat split; try assumption; try apply Ha.
      * apply (Hmin j s' H).
        apply (bookable_available now s' (Hf s' (nth_error_In _ _ H))). exact H0.
      * apply (Hmin j s' H).
        apply (bookable_available now s' (Hf s' (nth_error_In _ _ H))). exact H0.
  - split; [reflexivity|].
    intros (s & Hin & Ha). exfalso.
    apply (bookable_available now s (Hf s Hin)) in Ha.
    rewrite (Hspec s Hin) in Ha. discriminate.
Qed.

Lemma next_slot_is_earliest_available_witness :
  flags_derived (available_slots Sample.pool) /\
  (exists s, In s (available_slots Sample.pool) /\ available 50%Z s) /\
  AppointmentService.get_next_available_slot Sample.pool 50%Z =
    Some (1, Sample.slot 200 "09:00" 1 0) /\
  exists i s,
    AppointmentService.get_next_available_slot Sample.pool 50%Z = Some (i, s) /\
    nth_error (available_slots Sample.pool) i = Some s /\
    available 50%Z s /\
    forall j s', nth_error (available_slots Sample.pool) j = Some s' ->
      available 50%Z s' ->
      (slot_date s <= slot_date s')%Z /\ (slot_date s' = slot_date s -> i <= j).
Proof.
  assert (Hf : flags_derived (available_slots Sample.pool)) by (repeat constructor).
  assert (He : exists s, In s (available_slots Sample.pool) /\ available 50%Z s).
  { exists (Sample.slot 300 "09:00" 1 0). split; [now left|].
    unfold available. simpl. lia. }
  split; [exact Hf|]. split; [exact He|]. split; [reflexivity|].
  exact (proj2 (next_slot_is_earliest_available Sample.pool 50%Z Hf) He).
Defined.

Lemma update_row_at {A : Type} (i : nat) (f g : A -> A) (l : list A) (x : A) :
  nth_error l i = Some x -> f x = g x ->
  AppointmentService.update_row i f l = AppointmentService.update_row i g l.
Proof.
  revert i. induction l as [|y r IH]; intros [|j] Hx Hfg; simpl in *;
    try discriminate.
  - inversion Hx; subst y. now rewrite Hfg.
  - f_equal. now apply IH.
Qed.

(** A call that nothing interrupts is its query followed by its commit. *)
Lemma schedule_appointment_in_one_session (db : database) (now : time)
  (student_id request_id : Z) (required_documents : pyval) :
  AppointmentService.schedule_appointment db now student_id request_id
    required_documents =
  match AppointmentSession.load db now with
  | Some (row, loaded) =>
      let '(appointment, db') :=
        AppointmentSession.commit db row loaded student_id request_id
          required_documents in
      (Some appointment, db')
  | None => (None, db)
  end.
Proof.
  unfold AppointmentService.schedule_appointment, AppointmentSession.load,
    AppointmentSession.commit.
  pose proof (get_next_available_slot_spec db now) as Hspec.
  destruct (AppointmentService.get_next_available_slot db now) as [[row loaded]|];
    [|reflexivity].
  destruct Hspec as (Hrow & _).
  rewrite (update_row_at row AppointmentService.book
             (AppointmentSession.written loaded) _ loaded Hrow); reflexivity.
Qed.




(** ** The worker *)

Lemma process_attachment_frame (w : EmailWorker.world) (request_id : Z)
  (st : database * list string) (a : EmailWorker.attachment) :
  let st' := EmailWorker.process_attachment w request_id st a in
  students (fst st') = students (fst st) /\
  requests (fst st') = requests (fst st) /\
  appointments (fst st') = appointments (fst st) /\
  available_slots (fst st') = available_slots (fst st) /\
  status_log (fst st') = status_log (fst st).
Proof.
  destruct st as [db texts]. unfold EmailWorker.process_attachment.
  destruct (EmailWorker.attachment_file_path a) as [path|]; [|simpl; auto].
  destruct (_ && _); [|simpl; auto].
  destruct (EmailWorker.extract_text w path) as [extracted|err]; [|simpl; auto].
  destruct (EmailWorker.add_document w _); simpl; auto.
Qed.

Lemma attachments_frame (w : EmailWorker.world) (request_id : Z)
  (l : list EmailWorker.attachment) :
  forall st,
    let st' := fold_left (EmailWorker.process_attachment w request_id) l st in
    students (fst st') = students (fst st) /\
    requests (fst st') = requests (fst st) /\
    appointments (fst st') = appointments (fst st) /\
    available_slots (fst st') = available_slots (fst st) /\
    status_log (fst st') = status_log (fst st).
Proof.
  induction l as [|a r IH]; intros st; simpl; [auto|].
  destruct (IH (EmailWorker.process_attachment w request_id st a)) as (H1 & H2 & H3 & H4 & H5).
  destruct (process_attachment_frame w request_id st a) as (F1 & F2 & F3 & F4 & F5).
  simpl in *. repeat split; congruence.
Qed.

Lemma process_attachment_text (w : EmailWorker.world) (request_id : Z)
  (st : database * list string) (a : EmailWorker.attachment) :
  snd (EmailWorker.process_attachment w request_id st a) = snd st ++ attachment_text w a.
Proof.
  destruct st as [db texts]. unfold EmailWorker.process_attachment, attachment_text.
  destruct (EmailWorker.attachment_file_path a) as [path|];
    [|simpl; now rewrite app_nil_r].
  destruct (_ && _); [|simpl; now rewrite app_nil_r].
  destruct (EmailWorker.extract_text w path) as [extracted|err];
    [|simpl; now rewrite app_nil_r].
  destruct (EmailWorker.add_document w _); reflexivity.
Qed.

Lemma attachments_texts (w : EmailWorker.world) (request_id : Z)
  (l : list EmailWorker.attachment) :
  forall st,
    snd (fold_left (EmailWorker.process_attachment w request_id) l st) =
    snd st ++ flat_map (attachment_text w) l.
Proof.
  induction l as [|a r IH]; intros st; simpl.
  - now rewrite app_nil_r.
  - rewrite IH, process_attachment_text. now rewrite app_assoc.
Qed.

Lemma find_or_create_student_frame (db : database) (sender : string) :
  let db' := snd (EmailWorker.find_or_create_student db sender) in
  requests db' = requests db /\
  appointments db' = appointments db /\
  available_slots db' = available_slots db /\
  status_log db' = status_log db.
Proof.
  unfold EmailWorker.find_or_create_student.
  destruct (find _ (students db)); simpl; auto.
Qed.

Lemma get_next_available_slot_slots (db db' : database) (now : time) :
  available_slots db' = available_slots db ->
  AppointmentService.get_next_available_slot db' now =
  AppointmentService.get_next_available_slot db now.
Proof. unfold AppointmentService.get_next_available_slot. now intros ->. Qed.

Lemma categorize_update (w : EmailWorker.world) (db : database) (row : nat)
  (e : EmailWorker.email_data) (documents_text : list string) :
  EmailWorker.categorize w db row e documents_text =
  EmailWorker.update_request db row (categorized_row w e documents_text).
Proof.
  unfold EmailWorker.categorize, categorized_row.
  now destruct (LLMService.categorize_request _ _ _ _).
Qed.

(** A run of the task on a message that passes the gate, stage by stage. *)
Lemma process_email_task_new (w : EmailWorker.world) (e : EmailWorker.email_data)
  (db : database) :
  EmailWorker.duplicate_of db (EmailWorker.now_at_gate w) (EmailWorker.subject e) = None ->
  let row := List.length (requests db) in
  let request_id := (Z.of_nat row + 1)%Z in
  let res := EmailWorker.process_email_task w e db in
  let student := fst (EmailWorker.find_or_create_student db (EmailWorker.sender e)) in
  let documents_text := documents_text_of w e in
    let r1 :=
      EmailWorker.with_status PROCESSING
        (EmailWorker.new_request request_id (student_pk student)
           (EmailWorker.subject e) (EmailWorker.body e) (EmailWorker.now_at_insert w)) in
    match verdict_of w e with
    | Raised err =>
        fst res = EmailWorker.Error err /\
        requests (snd res) = requests db ++ [EmailWorker.with_error err r1] /\
        status_log (snd res) =
          status_log db ++ [(request_id, PENDING); (request_id, PROCESSING)] /\
        appointments (snd res) = appointments db /\
        available_slots (snd res) = available_slots db
    | Ok v =>
        let r2 :=
          EmailWorker.with_processed_at (EmailWorker.now_at_processed w)
            (EmailWorker.with_status CATEGORIZED
               (categorized_row w e documents_text (EmailWorker.with_compliance v r1))) in
        let stays :=
          fst res = EmailWorker.Success request_id
                      (EmailWorker.str_of_type (request_type r2)) false /\
          requests (snd res) = requests db ++ [r2] /\
          status_log (snd res) =
            status_log db ++
            [(request_id, PENDING); (request_id, PROCESSING); (request_id, CATEGORIZED)] /\
          appointments (snd res) = appointments db /\
          available_slots (snd res) = available_slots db in
        if Py.truthy (RagService.is_compliant v) then
          match AppointmentService.get_next_available_slot db
                  (EmailWorker.now_at_allocation w) with
          | None => stays
          | Some (i, s) =>
              exists a,
                fst res = EmailWorker.Success request_id
                            (EmailWorker.str_of_type (request_type r2)) true /\
                requests (snd res) =
                  requests db ++
                  [EmailWorker.with_status APPOINTMENT_SCHEDULED
                     (EmailWorker.with_appointment (appointment_pk a) r2)] /\
                status_log (snd res) =
                  status_log db ++
                  [(request_id, PENDING); (request_id, PROCESSING);
                   (request_id, CATEGORIZED); (request_id, APPOINTMENT_SCHEDULED)] /\
                appointments (snd res) = appointments db ++ [a] /\
                available_slots (snd res) =
                  AppointmentService.update_row i AppointmentService.book
                    (available_slots db)
          end
        else stays
    end.
Proof.
  intros Hdup row request_id res. subst res.
  unfold verdict_of.
  unfold EmailWorker.process_email_task. rewrite Hdup.
  pose proof (find_or_create_student_frame db (EmailWorker.sender e)) as Hs.
  destruct (EmailWorker.find_or_create_student db (EmailWorker.sender e))
    as [student db1] eqn:Es.
  simpl in Hs. destruct Hs as (S1 & S2 & S3 & S4).
  rewrite S1. fold row. fold request_id.
  set (r0 := EmailWorker.new_request request_id (student_pk student)
               (EmailWorker.subject e) (EmailWorker.body e) (EmailWorker.now_at_insert w)).
  pose proof (attachments_frame w request_id (EmailWorker.attachments e)
                (EmailWorker.insert_request db1 r0, [])) as Hf.
  destruct (fold_left (EmailWorker.process_attachment w request_id)
              (EmailWorker.attachments e) (EmailWorker.insert_request db1 r0, []))
    as [db3 documents_text] eqn:Ef.
  simpl in Hf. destruct Hf as (_ & F2 & F3 & F4 & F5).
  rewrite S1 in F2. rewrite S2 in F3. rewrite S3 in F4. rewrite S4 in F5.
  pose proof (attachments_texts w request_id (EmailWorker.attachments e)
                (EmailWorker.insert_request db1 r0, [])) as Ht.
  rewrite Ef in Ht. simpl in Ht. fold (documents_text_of w e) in Ht. subst documents_text.
  cbn [fst].
  destruct (RagService.compare_with_guidelines _ _ _ _) as [v|err].
  - rewrite categorize_update.
    set (r1 := EmailWorker.with_status PROCESSING r0).
    set (r2 := EmailWorker.with_processed_at (EmailWorker.now_at_processed w)
                 (EmailWorker.with_status CATEGORIZED
                    (categorized_row w e (documents_text_of w e) (EmailWorker.with_compliance v r1)))).
    match goal with
    | |- context [if ?c then EmailWorker.allocate w ?d _ _ _ _ else _] =>
        set (db8 := d) in *
    end.
    assert (Hstay :
      requests db8 = requests db ++ [r2] /\
      status_log db8 =
        status_log db ++
        [(request_id, PENDING); (request_id, PROCESSING); (request_id, CATEGORIZED)] /\
      appointments db8 = appointments db /\
      available_slots db8 = available_slots db).
    { unfold db8. simpl. rewrite F2, F3, F4, F5. unfold row.
      rewrite !update_row_app_last. simpl. rewrite <- !app_assoc. simpl. auto. }
    destruct Hstay as (H1 & H2 & H3 & H4).
    assert (Hno : let stays :=
                fst (EmailWorker.Success request_id
                       (EmailWorker.str_of_type
                          match nth_error (requests db8) row with
                          | Some r => request_type r
                          | None => None
                          end)
                       match nth_error (requests db8) row with
                       | Some r => match appointment_id r with Some _ => true | None => false end
                       | None => false
                       end, db8) =
                EmailWorker.Success request_id
                  (EmailWorker.str_of_type (request_type r2)) false /\
                requests db8 = requests db ++ [r2] /\
                status_log db8 =
                  status_log db ++
                  [(request_id, PENDING); (request_id, PROCESSING);
                   (request_id, CATEGORIZED)] /\
                appointments db8 = appointments db /\
                available_slots db8 = available_slots db in stays).
    { cbv zeta. cbn [fst]. rewrite H1. unfold row. rewrite nth_error_app_last.
      repeat split; auto.
      unfold r2, categorized_row.
      destruct (LLMService.categorize_request _ _ _ _); reflexivity. }
    destruct (Py.truthy (RagService.is_compliant v)); [|exact Hno].
    unfold EmailWorker.allocate.
    pose proof (schedule_appointment_step db8 (EmailWorker.now_at_allocation w)
                  (student_pk student) request_id (RagService.required_documents v))
      as Hstep.
    rewrite (get_next_available_slot_slots db db8 _ H4) in Hstep.
    destruct (AppointmentService.get_next_available_slot db
                (EmailWorker.now_at_allocation w)) as [[i s]|].
    + destruct Hstep as (a & db9 & -> & A1 & A2 & A3 & _ & _ & A6).
      exists a.
      set (dbf := EmailWorker.set_status
                    (EmailWorker.update_request db9 row
                       (EmailWorker.with_appointment (appointment_pk a)))
                    row request_id APPOINTMENT_SCHEDULED).
      assert (Hfin :
        requests dbf =
          requests db ++
          [EmailWorker.with_status APPOINTMENT_SCHEDULED
             (EmailWorker.with_appointment (appointment_pk a) r2)] /\
        status_log dbf =
          status_log db ++
          [(request_id, PENDING); (request_id, PROCESSING);
           (request_id, CATEGORIZED); (request_id, APPOINTMENT_SCHEDULED)] /\
        appointments dbf = appointments db ++ [a] /\
        available_slots dbf =
          AppointmentService.update_row i AppointmentService.book (available_slots db)).
      { unfold dbf. simpl. rewrite A1, A2, A3, A6, H1, H2, H3, H4. unfold row.
        rewrite !update_row_app_last. rewrite <- !app_assoc. simpl. auto. }
      destruct Hfin as (G1 & G2 & G3 & G4).
      destruct (EmailWorker.send_appointment_confirmation w _ _);
        cbn [fst snd]; rewrite G1; unfold row; rewrite nth_error_app_last; simpl;
        (split; [|repeat split; assumption]);
        unfold r2, categorized_row;
        destruct (LLMService.categorize_request _ _ _ _); reflexivity.
    + rewrite Hstep. exact Hno.
  - simpl. rewrite F2, F3, F4, F5. unfold row. rewrite update_row_app_last.
    simpl. rewrite update_row_app_last. rewrite <- app_assoc. repeat split.
Qed.

Lemma is_prefix_firstn {A : Type} (n : nat) (l full : list A) :
  is_prefix l full -> is_prefix (firstn n l) full.
Proof.
  intros [rest ->]. exists (skipn n l ++ rest).
  now rewrite app_assoc, firstn_skipn.
Qed.

(** C8.  In every run of the task, whatever the collaborators answer or
    raise, the values given to the status of the run's request are, in
    order, a prefix of pending, processing, categorized,
    appointment_scheduled; so is the sequence up to any point of the run;
    and the stored status is the last of them. *)
Theorem status_sequence_is_prefix (w : EmailWorker.world) (e : EmailWorker.email_data)
  (db : database) :
  let request_id := (Z.of_nat (List.length (requests db)) + 1)%Z in
  let db' := snd (EmailWorker.process_email_task w e db) in
  exists trace,
    status_log db' = status_log db ++ map (pair request_id) trace /\
    is_prefix trace pipeline_states /\
    (forall n, is_prefix (firstn n trace) pipeline_states) /\
    match nth_error (requests db') (List.length (requests db)) with
    | Some r => status r = last trace PENDING /\ trace <> []
    | None => trace = []
    end.
Proof.
  intros request_id db'.
  assert (Hgoal : forall trace,
    status_log db' = status_log db ++ map (pair request_id) trace ->
    is_prefix trace pipeline_states ->
    match nth_error (requests db') (List.length (requests db)) with
    | Some r => status r = last trace PENDING /\ trace <> []
    | None => trace = []
    end ->
    exists trace,
      status_log db' = status_log db ++ map (pair request_id) trace /\
      is_prefix trace pipeline_states /\
      (forall n, is_prefix (firstn n trace) pipeline_states) /\
      match nth_error (requests db') (List.length (requests db)) with
      | Some r => status r = last trace PENDING /\ trace <> []
      | None => trace = []
      end).
  { intros trace H1 H2 H3. exists trace. repeat split; auto.
    intros n. now apply is_prefix_firstn. }
  destruct (EmailWorker.duplicate_of db (EmailWorker.now_at_gate w) (EmailWorker.subject e))
    as [existing|] eqn:Hdup.
  - assert (Hdb : db' = db).
    { unfold db', EmailWorker.process_email_task. now rewrite Hdup. }
    apply (Hgoal []).
    + rewrite Hdb. simpl. now rewrite app_nil_r.
    + now exists pipeline_states.
    + rewrite Hdb.
      destruct (nth_error (requests db) (List.length (requests db))) eqn:En; [|reflexivity].
      exfalso. assert (Hlt : List.length (requests db) < List.length (requests db)).
      { apply nth_error_Some. congruence. }
      lia.
  - pose proof (process_email_task_new w e db Hdup) as Hrun.
    cbv zeta in Hrun. fold db' in Hrun. fold request_id in Hrun.
    destruct (verdict_of w e) as [v|err].
    + assert (Hstay :
        forall r2,
          requests db' = requests db ++ [r2] ->
          status r2 = CATEGORIZED ->
          status_log db' =
            status_log db ++
            [(request_id, PENDING); (request_id, PROCESSING); (request_id, CATEGORIZED)] ->
          exists trace,
            status_log db' = status_log db ++ map (pair request_id) trace /\
            is_prefix trace pipeline_states /\
            (forall n, is_prefix (firstn n trace) pipeline_states) /\
            match nth_error (requests db') (List.length (requests db)) with
            | Some r => status r = last trace PENDING /\ trace <> []
            | None => trace = []
            end).
      { intros r2 Hr Hst Hl. apply (Hgoal [PENDING; PROCESSING; CATEGORIZED]).
        - exact Hl.
        - now exists [APPOINTMENT_SCHEDULED].
        - rewrite Hr, nth_error_app_last. split; [exact Hst | discriminate]. }
      destruct (Py.truthy (RagService.is_compliant v)).
      * destruct (AppointmentService.get_next_available_slot db
                    (EmailWorker.now_at_allocation w)) as [[i s]|].
        -- destruct Hrun as (a & _ & Hr & Hl & _).
           apply (Hgoal [PENDING; PROCESSING; CATEGORIZED; APPOINTMENT_SCHEDULED]).
           ++ exact Hl.
           ++ exists []. reflexivity.
           ++ rewrite Hr, nth_error_app_last. split; [reflexivity | discriminate].
        -- destruct Hrun as (_ & Hr & Hl & _).
           eapply Hstay; [exact Hr | reflexivity | exact Hl].
      * destruct Hrun as (_ & Hr & Hl & _).
        eapply Hstay; [exact Hr | reflexivity | exact Hl].
    + destruct Hrun as (_ & Hr & Hl & _).
      apply (Hgoal [PENDING; PROCESSING]).
      * exact Hl.
      * now exists [CATEGORIZED; APPOINTMENT_SCHEDULED].
      * rewrite Hr, nth_error_app_last. split; [|discriminate].
        unfold EmailWorker.with_error. simpl. reflexivity.
Qed.

Lemma no_slot_when_booked_out (db : database) (now : time) :
  (forall s, In s (available_slots db) -> (now < slot_date s)%Z ->
     current_bookings s = max_capacity s) ->
  AppointmentService.get_next_available_slot db now = None.
Proof.
  intros Hfull.
  pose proof (get_next_available_slot_spec db now) as Hspec.
  destruct (AppointmentService.get_next_available_slot db now) as [[i s]|];
    [|reflexivity].
  destruct Hspec as (Hn & Hb & _). exfalso.
  unfold AppointmentService.bookable in Hb.
  apply andb_true_iff in Hb. destruct Hb as [Hb Hc].
  apply andb_true_iff in Hb. destruct Hb as [_ Hd].
  apply Z.ltb_lt in Hc, Hd.
  pose proof (Hfull s (nth_error_In _ _ Hn) Hd). lia.
Qed.

(** C7.  When a message passes the gate, its compliance verdict is
    compliant and every slot in the future is full, the allocator returns
    none, the run ends with a success result, no appointment is created,
    and the request is left in status categorized, compliant, with no
    appointment. *)
Theorem compliant_without_slot_stays_categorized (w : EmailWorker.world)
  (e : EmailWorker.email_data) (db : database) (v : RagService.verdict) :
  EmailWorker.duplicate_of db (EmailWorker.now_at_gate w) (EmailWorker.subject e) = None ->
  verdict_of w e = Ok v ->
  RagService.is_compliant v = PBool true ->
  (forall s, In s (available_slots db) ->
     (EmailWorker.now_at_allocation w < slot_date s)%Z ->
     current_bookings s = max_capacity s) ->
  let request_id := (Z.of_nat (List.length (requests db)) + 1)%Z in
  let res := EmailWorker.process_email_task w e db in
  (forall student_id required_documents,
     AppointmentService.schedule_appointment db (EmailWorker.now_at_allocation w)
       student_id request_id required_documents = (None, db)) /\
  (exists categorized_as, fst res = EmailWorker.Success request_id categorized_as false) /\
  appointments (snd res) = appointments db /\
  available_slots (snd res) = available_slots db /\
  exists r,
    requests (snd res) = requests db ++ [r] /\
    request_pk r = request_id /\
    status r = CATEGORIZED /\
    request_is_compliant r = PBool true /\
    appointment_id r = None.
Proof.
  intros Hdup Hv Hc Hfull request_id res.
  pose proof (no_slot_when_booked_out db _ Hfull) as Hnone.
  split.
  { intros student_id required_documents.
    pose proof (schedule_appointment_step db (EmailWorker.now_at_allocation w)
                  student_id request_id required_documents) as Hstep.
    now rewrite Hnone in Hstep. }
  pose proof (process_email_task_new w e db Hdup) as Hrun.
  cbv zeta in Hrun. rewrite Hv, Hc, Hnone in Hrun. simpl Py.truthy in Hrun. cbv iota in Hrun.
  destruct Hrun as (Hres & Hreq & _ & Happ & Hslots).
  split; [eexists; exact Hres|].
  split; [exact Happ|]. split; [exact Hslots|].
  eexists. split; [exact Hreq|].
  unfold categorized_row.
  destruct (LLMService.categorize_request _ _ _ _); simpl; rewrite Hc; auto.
Qed.

Lemma compliant_without_slot_stays_categorized_witness :
  let w := Sample.world "The request is compliant." in
  let res := EmailWorker.process_email_task w Sample.from_alice Sample.booked_out in
  (forall student_id required_documents,
     AppointmentService.schedule_appointment Sample.booked_out
       (EmailWorker.now_at_allocation w) student_id 1%Z required_documents =
     (None, Sample.booked_out)) /\
  (exists categorized_as, fst res = EmailWorker.Success 1%Z categorized_as false) /\
  appointments (snd res) = [] /\
  available_slots (snd res) = available_slots Sample.booked_out /\
  exists r,
    requests (snd res) = [r] /\
    request_pk r = 1%Z /\
    status r = CATEGORIZED /\
    request_is_compliant r = PBool true /\
    appointment_id r = None.
Proof.
  intros w res.
  assert (Hv : exists v, verdict_of w Sample.from_alice = Ok v /\
                         RagService.is_compliant v = PBool true).
  { eexists. split; [vm_compute; reflexivity | reflexivity]. }
  destruct Hv as (v & Hv & Hc).
  apply (compliant_without_slot_stays_categorized w Sample.from_alice Sample.booked_out v).
  - reflexivity.
  - exact Hv.
  - exact Hc.
  - intros s Hin Hfut. simpl in Hin.
    destruct Hin as [<- | [<- | [<- | []]]]; simpl in *; try reflexivity; lia.
Defined.

(** ** The gate *)

Lemma duplicate_of_recent (db : database) (now : time) (subj : string) (id : Z) :
  EmailWorker.duplicate_of db now subj = Some id ->
  recent_same_subject db now subj.
Proof.
  unfold EmailWorker.duplicate_of, EmailWorker.first_with_subject.
  destruct (find _ (requests db)) as [r|] eqn:Ef; [|discriminate].
  destruct (created_at r) as [t|] eqn:Ec; [|discriminate].
  destruct (Z.ltb_spec (now - t) EmailWorker.window) as [Hlt|]; [|discriminate].
  intros _. apply find_some in Ef. destruct Ef as [Hin Heq].
  apply String.eqb_eq in Heq. now exists r, t.
Qed.

Lemma recent_is_duplicate (db : database) (now : time) (subj : string) :
  (forall r1 r2, In r1 (requests db) -> In r2 (requests db) ->
     email_subject r1 = subj -> email_subject r2 = subj -> r1 = r2) ->
  recent_same_subject db now subj ->
  exists id, EmailWorker.duplicate_of db now subj = Some id.
Proof.
  intros Huniq (r & t & Hin & Hs & Hc & Hw).
  unfold EmailWorker.duplicate_of, EmailWorker.first_with_subject.
  destruct (find _ (requests db)) as [r'|] eqn:Ef.
  - apply find_some in Ef. destruct Ef as [Hin' Heq]. apply String.eqb_eq in Heq.
    assert (r' = r) by (apply Huniq; assumption). subst r'.
    rewrite Hc. apply Z.ltb_lt in Hw. rewrite Hw. eauto.
  - exfalso. pose proof (find_none _ _ Ef r Hin) as Hn. simpl in Hn.
    rewrite Hs, String.eqb_refl in Hn. discriminate.
Qed.

Lemma skipped_iff_duplicate (w : EmailWorker.world) (e : EmailWorker.email_data)
  (db : database) (id : Z) :
  fst (EmailWorker.process_email_task w e db) = EmailWorker.Skipped id <->
  EmailWorker.duplicate_of db (EmailWorker.now_at_gate w) (EmailWorker.subject e) = Some id.
Proof.
  destruct (EmailWorker.duplicate_of db (EmailWorker.now_at_gate w) (EmailWorker.subject e))
    as [existing|] eqn:Hdup.
  - unfold EmailWorker.process_email_task. rewrite Hdup. simpl.
    split; intros H; inversion H; reflexivity.
  - split; [|discriminate]. intros H. exfalso.
    pose proof (process_email_task_new w e db Hdup) as Hrun. cbv zeta in Hrun.
    destruct (verdict_of w e) as [v|err].
    + destruct (Py.truthy (RagService.is_compliant v)).
      * destruct (AppointmentService.get_next_available_slot db _) as [[i s]|].
        -- destruct Hrun as (a & Hres & _). rewrite Hres in H. discriminate.
        -- destruct Hrun as (Hres & _). rewrite Hres in H. discriminate.
      * destruct Hrun as (Hres & _). rewrite Hres in H. discriminate.
    + destruct Hrun as (Hres & _). rewrite Hres in H. discriminate.
Qed.

Lemma new_request_appended (w : EmailWorker.world) (e : EmailWorker.email_data)
  (db : database) :
  EmailWorker.duplicate_of db (EmailWorker.now_at_gate w) (EmailWorker.subject e) = None ->
  exists r,
    requests (snd (EmailWorker.process_email_task w e db)) = requests db ++ [r] /\
    email_subject r = EmailWorker.subject e /\
    created_at r = Some (EmailWorker.now_at_insert w).
Proof.
  intros Hdup.
  pose proof (process_email_task_new w e db Hdup) as Hrun. cbv zeta in Hrun.
  destruct (verdict_of w e) as [v|err].
  - assert (Hcat : forall r, email_subject (categorized_row w e (documents_text_of w e) r) =
                             email_subject r /\
                             created_at (categorized_row w e (documents_text_of w e) r) =
                             created_at r).
    { intros r. unfold categorized_row.
      destruct (LLMService.categorize_request _ _ _ _); simpl; auto. }
    destruct (Py.truthy (RagService.is_compliant v)).
    + destruct (AppointmentService.get_next_available_slot db _) as [[i s]|].
      * destruct Hrun as (a & _ & Hr & _). eexists. split; [exact Hr|].
        simpl. rewrite (proj1 (Hcat _)), (proj2 (Hcat _)). simpl. auto.
      * destruct Hrun as (_ & Hr & _). eexists. split; [exact Hr|].
        simpl. rewrite (proj1 (Hcat _)), (proj2 (Hcat _)). simpl. auto.
    + destruct Hrun as (_ & Hr & _). eexists. split; [exact Hr|].
      simpl. rewrite (proj1 (Hcat _)), (proj2 (Hcat _)). simpl. auto.
  - destruct Hrun as (_ & Hr & _). eexists. split; [exact Hr|].
    unfold EmailWorker.with_error. simpl. auto.
Qed.

(** C3 (as stated, refuted).  Bob's message carries the subject of the
    request Alice sent a moment ago; it is classified as a duplicate and
    no request is created, although no stored request has Bob's address
    and this subject as its key. *)
Lemma other_sender_same_subject_is_duplicate :
  let w := Sample.world "The request is compliant." in
  EmailWorker.process_email_task w Sample.from_bob Sample.after_alice =
    (EmailWorker.Skipped 1, Sample.after_alice) /\
  EmailWorker.email_address_of (EmailWorker.sender Sample.from_bob) = "bob@uni.example" /\
  forall r, In r (requests Sample.after_alice) ->
    sender_of Sample.after_alice r = Some "alice@uni.example" /\
    ~ same_key Sample.after_alice Sample.from_bob r.
Proof.
  cbv zeta. split; [vm_compute; reflexivity|]. split; [vm_compute; reflexivity|].
  intros r [<- | []]. split; [reflexivity|].
  intros [_ H]. vm_compute in H. discriminate.
Qed.

(** C3 (amended).  The key of the gate is the subject line alone.  When
    at most one stored request has the subject of a message, the message
    is classified as a duplicate if and only if that request was created
    less than 24 hours before; a duplicate leaves the database as it is,
    and any other message creates exactly one new request, whoever the
    sender is. *)
Theorem gate_keys_on_subject (w : EmailWorker.world) (e : EmailWorker.email_data)
  (db : database) :
  (forall r1 r2, In r1 (requests db) -> In r2 (requests db) ->
     email_subject r1 = EmailWorker.subject e ->
     email_subject r2 = EmailWorker.subject e -> r1 = r2) ->
  let res := EmailWorker.process_email_task w e db in
  ((exists id, fst res = EmailWorker.Skipped id) <->
   recent_same_subject db (EmailWorker.now_at_gate w) (EmailWorker.subject e)) /\
  ((exists id, fst res = EmailWorker.Skipped id) -> snd res = db) /\
  ((forall id, fst res <> EmailWorker.Skipped id) ->
   exists r,
     requests (snd res) = requests db ++ [r] /\
     email_subject r = EmailWorker.subject e /\
     created_at r = Some (EmailWorker.now_at_insert w)).
Proof.
  intros Huniq res. split; [|split].
  - split.
    + intros [id H]. apply skipped_iff_duplicate in H.
      eapply duplicate_of_recent; eauto.
    + intros H. destruct (recent_is_duplicate _ _ _ Huniq H) as [id Hd].
      exists id. now apply skipped_iff_duplicate.
  - intros [id H]. apply skipped_iff_duplicate in H.
    unfold res, EmailWorker.process_email_task. now rewrite H.
  - intros Hnot. apply new_request_appended.
    destruct (EmailWorker.duplicate_of db _ _) as [id|] eqn:Hd; [|reflexivity].
    exfalso. apply (Hnot id). now apply skipped_iff_duplicate.
Qed.

Lemma gate_keys_on_subject_witness :
  let w := Sample.world "The request is compliant." in
  let late :=
    {| EmailWorker.now_at_gate := EmailWorker.window;
       EmailWorker.now_at_insert := EmailWorker.window + 1;
       EmailWorker.now_at_processed := EmailWorker.window + 2;
       EmailWorker.now_at_allocation := EmailWorker.window + 3;
       EmailWorker.path_exists := EmailWorker.path_exists w;
       EmailWorker.extract_text := EmailWorker.extract_text w;
       EmailWorker.add_document := EmailWorker.add_document w;
       EmailWorker.rag := EmailWorker.rag w;
       EmailWorker.categorizer := EmailWorker.categorizer w;
       EmailWorker.send_appointment_confirmation :=
         EmailWorker.send_appointment_confirmation w |} in
  let early := EmailWorker.process_email_task w Sample.from_alice Sample.after_alice in
  let res := EmailWorker.process_email_task late Sample.from_alice Sample.after_alice in
  (recent_same_subject Sample.after_alice (EmailWorker.now_at_gate w)
     (EmailWorker.subject Sample.from_alice) /\
   (exists id, fst early = EmailWorker.Skipped id) /\
   snd early = Sample.after_alice) /\
  ((forall id, fst res <> EmailWorker.Skipped id) /\
   exists r,
     requests (snd res) = requests Sample.after_alice ++ [r] /\
     email_subject r = EmailWorker.subject Sample.from_alice /\
     created_at r = Some (EmailWorker.now_at_insert late)).
Proof.
  intros w late early res.
  assert (Huniq : forall r1 r2,
            In r1 (requests Sample.after_alice) -> In r2 (requests Sample.after_alice) ->
            email_subject r1 = EmailWorker.subject Sample.from_alice ->
            email_subject r2 = EmailWorker.subject Sample.from_alice -> r1 = r2).
  { intros r1 r2 H1 H2 _ _. simpl in H1, H2.
    destruct H1 as [<- | []]. destruct H2 as [<- | []]. reflexivity. }
  split.
  - destruct (gate_keys_on_subject w Sample.from_alice Sample.after_alice Huniq)
      as (Hiff & Hsame & _).
    assert (Hskip : exists id, fst early = EmailWorker.Skipped id)
      by (exists 1%Z; vm_compute; reflexivity).
    split; [exact (proj1 Hiff Hskip)|]. split; [exact Hskip | exact (Hsame Hskip)].
  - destruct (gate_keys_on_subject late Sample.from_alice Sample.after_alice Huniq)
      as (_ & _ & Hnew).
    assert (Hnot : forall id, fst res <> EmailWorker.Skipped id).
    { intros id H. vm_compute in H. discriminate. }
    split; [exact Hnot | exact (Hnew Hnot)].
Defined.

(** ** The pool invariants hold in the states the code produces *)

Lemma create_on_Forall (P : AvailableSlot -> Prop) (date : time)
  (slots : list AvailableSlot) (label : string) :
  (forall l, P {| slot_date := date; slot_time := l; is_available := true;
                  max_capacity := 1; current_bookings := 0 |}) ->
  Forall P slots -> Forall P (AppointmentService.create_on date slots label).
Proof.
  intros Hnew H. unfold AppointmentService.create_on.
  destruct (AppointmentService.slot_exists slots date label); [exact H|].
  apply Forall_app. split; [exact H|]. constructor; [apply Hnew | constructor].
Qed.

Lemma create_days_Forall (P : AvailableSlot -> Prop) (start_date : time)
  (num_days slots_per_day : nat) :
  (forall date l, P {| slot_date := date; slot_time := l; is_available := true;
                       max_capacity := 1; current_bookings := 0 |}) ->
  forall d slots,
    Forall P slots ->
    Forall P (AppointmentService.create_days start_date d num_days slots_per_day slots).
Proof.
  intros Hnew. induction num_days as [|n IH]; intros d slots H; simpl; [exact H|].
  apply IH.
  generalize (firstn slots_per_day AppointmentService.time_slots). intros labels.
  revert slots H. induction labels as [|l r IHl]; intros slots H; simpl; [exact H|].
  apply IHl. apply create_on_Forall; [intros; apply Hnew | exact H].
Qed.

(** Slots created by [create_available_slots] keep the pool well formed. *)
Lemma create_available_slots_well_formed (db : database) (start_date : time)
  (num_days slots_per_day : nat) :
  flags_derived (available_slots db) /\ within_capacity (available_slots db) ->
  let db' := AppointmentService.create_available_slots db start_date num_days slots_per_day in
  flags_derived (available_slots db') /\ within_capacity (available_slots db').
Proof.
  intros [Hf Hw]. simpl. split.
  - apply create_days_Forall; [intros; reflexivity | exact Hf].
  - apply create_days_Forall; [intros; simpl; lia | exact Hw].
Qed.

(** An allocation keeps the pool well formed. *)
Lemma schedule_appointment_well_formed (db : database) (now : time)
  (student_id request_id : Z) (required_documents : pyval) :
  flags_derived (available_slots db) /\ within_capacity (available_slots db) ->
  let db' := snd (AppointmentService.schedule_appointment db now student_id request_id
                    required_documents) in
  flags_derived (available_slots db') /\ within_capacity (available_slots db').
Proof.
  intros [Hf Hw].
  pose proof (get_next_available_slot_spec db now) as Hspec.
  pose proof (schedule_appointment_step db now student_id request_id required_documents)
    as Hstep.
  destruct (AppointmentService.get_next_available_slot db now) as [[i s]|].
  - destruct Hstep as (a & db1 & -> & Hslots & _). destruct Hspec as (Hn & Hb & _).
    simpl. rewrite Hslots. split.
    + apply update_row_Forall; [exact Hf|].
      intros x Hx. rewrite Hn in Hx. inversion Hx; subst x.
      apply (book_flag_derived _ _ Hb).
    + apply update_row_Forall; [exact Hw|].
      intros x Hx. rewrite Hn in Hx. inversion Hx; subst x.
      apply (book_within_capacity _ _ Hb).
      unfold within_capacity in Hw. rewrite Forall_forall in Hw.
      apply Hw. eapply nth_error_In; eauto.
  - rewrite Hstep. simpl. auto.
Qed.

(** * Further properties *)

(** ** Substrings *)

Lemma prefix_app (p s : string) :
  String.prefix p s = true <-> exists b, s = (p ++ b)%string.
Proof.
  revert s. induction p as [|c p IH]; intros s.
  - split; [intros _; now exists s | intros _; now destruct s].
  - destruct s as [|d s]; simpl.
    + split; [discriminate | intros [b H]; discriminate].
    + destruct (Ascii.ascii_dec c d) as [->|Hne].
      * rewrite IH. split; intros [b H]; exists b; [now subst | now inversion H].
      * split; [discriminate|]. intros [b H]. inversion H. subst. exfalso. now apply Hne.
Qed.

Lemma contains_nil (n : string) :
  Text.contains n EmptyString = String.prefix n EmptyString.
Proof. unfold Text.contains. apply orb_false_r. Qed.

Lemma contains_cons (n : string) (c : ascii) (h : string) :
  Text.contains n (String c h) = String.prefix n (String c h) || Text.contains n h.
Proof. reflexivity. Qed.

Lemma contains_app (n h : string) :
  Text.contains n h = true <-> exists a b, h = (a ++ n ++ b)%string.
Proof.
  induction h as [|c h IH].
  - rewrite contains_nil, prefix_app. split.
    + intros [b H]. now exists EmptyString, b.
    + intros (a & b & H). destruct a; simpl in H; [now exists b | discriminate].
  - rewrite contains_cons, orb_true_iff, prefix_app, IH. split.
    + intros [[b H] | (a & b & H)].
      * now exists EmptyString, b.
      * exists (String c a), b. simpl. now rewrite H.
    + intros (a & b & H). destruct a as [|d a]; simpl in H.
      * left. now exists b.
      * right. inversion H. now exists a, b.
Qed.

Lemma string_app_assoc (a b c : string) :
  ((a ++ b) ++ c = a ++ b ++ c)%string.
Proof. induction a as [|x a IH]; simpl; [reflexivity | now rewrite IH]. Qed.

(** A text that contains a text that contains [n] contains [n]. *)
Lemma contains_inside (n inner outer : string) :
  Text.contains n inner = true ->
  (exists a b, outer = (a ++ inner ++ b)%string) ->
  Text.contains n outer = true.
Proof.
  intros Hn (a & b & ->). apply contains_app in Hn. destruct Hn as (a' & b' & ->).
  apply contains_app. exists (a ++ a')%string, (b' ++ b)%string.
  now rewrite !string_app_assoc.
Qed.

Lemma lower_app (a b : string) :
  Text.lower (a ++ b) = (Text.lower a ++ Text.lower b)%string.
Proof. induction a as [|c a IH]; simpl; [reflexivity | now rewrite IH]. Qed.

Lemma lstrip_inside (s : string) : exists a, s = (a ++ Text.lstrip s)%string.
Proof.
  induction s as [|c s (a & IH)]; simpl.
  - now exists EmptyString.
  - destruct (Text.is_space c).
    + exists (String c a). simpl. now rewrite <- IH.
    + now exists EmptyString.
Qed.

Lemma rstrip_inside (s : string) : exists b, s = (Text.rstrip s ++ b)%string.
Proof.
  induction s as [|c s (b & IH)]; simpl.
  - now exists EmptyString.
  - destruct (Text.rstrip s) as [|d r] eqn:E.
    + destruct (Text.is_space c).
      * exists (String c s). reflexivity.
      * exists b. simpl. simpl in IH. now rewrite <- IH.
    + exists b. simpl. simpl in IH. now rewrite <- IH.
Qed.

Lemma strip_inside (s : string) : exists a b, s = (a ++ Text.strip s ++ b)%string.
Proof.
  unfold Text.strip. destruct (lstrip_inside s) as [a Ha].
  destruct (rstrip_inside (Text.lstrip s)) as [b Hb].
  exists a, b. now rewrite <- Hb.
Qed.

Lemma split_head (sep : ascii) (s : string) :
  exists b, s = (hd EmptyString (Text.split sep s) ++ b)%string.
Proof.
  induction s as [|c s (b & IH)]; simpl.
  - now exists EmptyString.
  - destruct (Ascii.eqb c sep).
    + now exists (String c s).
    + destruct (Text.split sep s) as [|h t]; simpl in *.
      * now exists s.
      * exists b. now rewrite <- IH.
Qed.

Lemma split_inside (sep : ascii) (s line : string) :
  In line (Text.split sep s) -> exists a b, s = (a ++ line ++ b)%string.
Proof.
  revert line. induction s as [|c s IH]; intros line; simpl.
  - intros [<- | []]. now exists EmptyString, EmptyString.
  - destruct (Ascii.eqb c sep).
    + intros [<- | H].
      * now exists EmptyString, (String c s).
      * destruct (IH _ H) as (a & b & E). exists (String c a), b. simpl. now rewrite <- E.
    + pose proof (split_head sep s) as [b0 Hh].
      destruct (Text.split sep s) as [|h t] eqn:E.
      * intros [<- | []]. exists EmptyString, s. reflexivity.
      * simpl in Hh. intros [<- | H].
        -- exists EmptyString, b0. simpl. now rewrite <- Hh.
        -- destruct (IH line (or_intror H)) as (a & b & E').
           exists (String c a), b. simpl. now rewrite <- E'.
Qed.

(** ** The guideline extraction, in three substring tests *)

Lemma line_mention (n text line : string) :
  In line (Text.split Text.newline text) ->
  Text.contains n (Text.strip (Text.lower line)) = true ->
  Text.contains n (Text.lower text) = true.
Proof.
  intros Hin Hn.
  apply (contains_inside n (Text.lower line)).
  - apply (contains_inside n _ _ Hn). apply strip_inside.
  - destruct (split_inside _ _ _ Hin) as (a & b & ->).
    exists (Text.lower a), (Text.lower b). now rewrite !lower_app.
Qed.

Lemma extract_lines_mention (text : string) (lines : list string) :
  (forall line, In line lines -> In line (Text.split Text.newline text)) ->
  forall st,
    (snd st = true -> Text.contains "required" (Text.lower text) = true) ->
    (fst st <> [] ->
     Text.contains "passport" (Text.lower text) = true /\
     Text.contains "required" (Text.lower text) = true) ->
    fst (fold_left RagService.extract_line lines st) <> [] ->
    Text.contains "passport" (Text.lower text) = true /\
    Text.contains "required" (Text.lower text) = true.
Proof.
  induction lines as [|line rest IH]; intros Hsub st Hsec Hdocs; simpl.
  - exact Hdocs.
  - assert (Hline : In line (Text.split Text.newline text)) by (apply Hsub; now left).
    apply IH; [intros l Hl; apply Hsub; now right | |];
      destruct st as [docs sec]; unfold RagService.extract_line; simpl in *.
    + destruct (Text.contains "required" (Text.strip (Text.lower line))) eqn:Er.
      * intros _. apply (line_mention _ _ _ Hline Er).
      * simpl.
        repeat match goal with |- context [if ?b then _ else _] => destruct b end;
          simpl; auto.
    + destruct (Text.contains "required" (Text.strip (Text.lower line)) &&
                (Text.contains "document" (Text.strip (Text.lower line)) ||
                 Text.contains "valid" (Text.strip (Text.lower line)))) eqn:Eh;
        simpl; [exact Hdocs|].
      destruct (sec && _) eqn:Eb; simpl; [|exact Hdocs].
      destruct (Text.contains "passport" (Text.strip (Text.lower line))) eqn:Ep;
        simpl; [|exact Hdocs].
      destruct (negb _); simpl; [|exact Hdocs].
      intros _. apply andb_true_iff in Eb. destruct Eb as [Hs _].
      split; [apply (line_mention _ _ _ Hline Ep) | now apply Hsec].
Qed.

(** X1.  The guideline extraction returns ["passport"] exactly when the
    guideline mentions "passport" (in any case) and either mentions
    "required" (in any case) or contains a dash; otherwise it returns the
    empty list.  The scan for a requirements section does not change the
    result. *)
Theorem extraction_is_three_tests (guideline_text : string) :
  RagService._extract_required_documents_from_guideline guideline_text =
  if Text.contains "passport" (Text.lower guideline_text) &&
     (Text.contains "required" (Text.lower guideline_text) ||
      Text.contains "-" guideline_text)
  then ["passport"] else [].
Proof.
  pose proof (extract_passport_or_nothing guideline_text) as Hshape.
  unfold RagService._extract_required_documents_from_guideline in *.
  destruct (String.eqb guideline_text EmptyString) eqn:Ee.
  - apply String.eqb_eq in Ee. subst. reflexivity.
  - pose proof (extract_lines_mention guideline_text
                  (Text.split Text.newline guideline_text) (fun _ H => H) ([], false)) as Hm.
    simpl in Hm.
    destruct (fst (fold_left RagService.extract_line
                     (Text.split Text.newline guideline_text) ([], false))) as [|d ds].
    + destruct (Text.contains "passport" (Text.lower guideline_text)); [|reflexivity].
      simpl. now destruct (_ || _).
    + destruct Hm as [Hp Hr]; try discriminate; try (intros; contradiction).
      rewrite Hp, Hr. simpl.
      destruct Hshape as [H | H]; [discriminate | exact H].
Qed.

(** ** The parsed judgment *)

Lemma normalise_flag_bool (v : pyval) : exists b, RagService.normalise_flag v = PBool b.
Proof. destruct v; simpl; eauto. Qed.

Lemma first_parsed_flag (patterns : list (@Re.cont string -> @Re.cont string))
  (analysis_text : string) (parsed : Py.dict) :
  RagService.first_parsed patterns analysis_text = Some parsed ->
  exists b, Py.lookup parsed "is_compliant" = Some (PBool b).
Proof.
  induction patterns as [|p rest IH]; simpl; [discriminate|].
  destruct (RagService.try_pattern p analysis_text) as [d|] eqn:Et; [|exact IH].
  intros H. inversion H; subst d; clear H.
  unfold RagService.try_pattern in Et.
  destruct (Re.search_text p analysis_text) as [matched|]; [|discriminate].
  destruct (Json.loads matched) as [[ | | | | | |d]|]; try discriminate.
  destruct (Py.lookup d "is_compliant") as [flag|]; [|discriminate].
  inversion Et; subst parsed.
  destruct (normalise_flag_bool flag) as [b Hb]. exists b.
  now rewrite lookup_set_same, Hb.
Qed.

Lemma parse_flag_bool (analysis_text : string) :
  exists b,
    Py.lookup (RagService._parse_compliance_analysis analysis_text) "is_compliant" =
    Some (PBool b).
Proof.
  unfold RagService._parse_compliance_analysis.
  destruct (RagService.first_parsed RagService.json_patterns analysis_text)
    as [parsed|] eqn:E.
  - eapply first_parsed_flag; eauto.
  - eexists. reflexivity.
Qed.

(** X2.  Every verdict [compare_with_guidelines] returns has a boolean
    under is_compliant, whatever the model wrote there (a string, a
    number, null), carries the model's answer unchanged as its analysis,
    and lists the ids of the retrieved passages in retrieval order. *)
Theorem verdict_flag_is_boolean (ext : RagService.collaborators)
  (student_text : string) (student_documents : list string)
  (request_type : option string) (v : RagService.verdict) :
  RagService.compare_with_guidelines ext student_text student_documents request_type = Ok v ->
  exists b relevant,
    RagService.is_compliant v = PBool b /\
    RagService.retrieve ext student_text student_documents request_type = Ok relevant /\
    RagService.relevant_guidelines v = map RagService.hit_id relevant /\
    RagService.llm_invoke ext (RagService.combined student_text student_documents)
      (RagService.guidelines_context (map RagService.hit_document relevant)) =
      Ok (RagService.analysis v).
Proof.
  intros Hc.
  destruct (compare_steps _ _ _ _ _ Hc) as (relevant & analysis_text & Hr & Hl & Hm).
  assert (Hshape : RagService.relevant_guidelines v = map RagService.hit_id relevant /\
                   RagService.analysis v = analysis_text).
  { unfold RagService.merge_judgment in Hm.
    destruct (match RagService._extract_required_documents_from_guideline _ with
              | [] => _ | _ :: _ => _ end) as [d|e]; [|discriminate].
    simpl in Hm. inversion Hm; subst v. simpl. auto. }
  destruct Hshape as [Hids Han].
  destruct (RagService._extract_required_documents_from_guideline
              (RagService.primary_text relevant)) as [|d ds] eqn:Ex.
  - unfold RagService.merge_judgment in Hm. rewrite Ex in Hm. simpl in Hm.
    inversion Hm; subst v; simpl in *.
    destruct (parse_flag_bool analysis_text) as [b Hb].
    exists b, relevant. unfold Py.get. rewrite Hb. auto.
  - assert (Hne : RagService._extract_required_documents_from_guideline
                    (RagService.primary_text relevant) <> []) by (rewrite Ex; discriminate).
    destruct (merge_overridden _ _ _ _ _ Hne Hm) as (lowered & _ & _ & _ & H4 & _).
    eexists. exists relevant. rewrite Han. split; [exact H4|]. auto.
Qed.

Lemma verdict_flag_is_boolean_witness :
  let answer :=
    ("{" ++ Text.quoted "is_compliant" ++ ": " ++ Text.quoted "Yes" ++ ", " ++
     Text.quoted "missing_documents" ++ ": null}")%string in
  exists v b relevant,
    RagService.compare_with_guidelines (Sample.ungrounded answer) "Hello" [] None = Ok v /\
    RagService.missing_documents v = PNone /\
    RagService.is_compliant v = PBool b /\
    RagService.retrieve (Sample.ungrounded answer) "Hello" [] None = Ok relevant /\
    RagService.relevant_guidelines v = map RagService.hit_id relevant /\
    RagService.llm_invoke (Sample.ungrounded answer) (RagService.combined "Hello" [])
      (RagService.guidelines_context (map RagService.hit_document relevant)) =
      Ok (RagService.analysis v).
Proof.
  intros answer.
  assert (Hc : exists v,
             RagService.compare_with_guidelines (Sample.ungrounded answer) "Hello" [] None =
             Ok v /\ RagService.missing_documents v = PNone).
  { eexists. split; [vm_compute; reflexivity | reflexivity]. }
  destruct Hc as (v & Hc & Hm).
  destruct (verdict_flag_is_boolean _ _ _ _ _ Hc) as (b & relevant & H).
  exists v, b, relevant. split; [exact Hc|]. split; [exact Hm | exact H].
Defined.

Lemma extract_score_range (patterns : list (@Re.cont pyfloat)) (text_lower : string)
  (q : Q) :
  RagService.extract_score patterns text_lower = Some q -> (0 <= q /\ q <= 100)%Q.
Proof.
  induction patterns as [|p rest IH]; simpl; [discriminate|].
  destruct (Re.search p text_lower) as [[score| | |]|]; try exact IH.
  destruct (Qle_bool 0 score && Qle_bool score 100) eqn:E; [|exact IH].
  intros H. inversion H; subst q.
  apply andb_true_iff in E. destruct E as [E1 E2].
  split; now apply Qle_bool_iff.
Qed.

Lemma Qlt_bool_false (a b : Q) : RagService.Qlt_bool a b = false -> (b <= a)%Q.
Proof.
  unfold RagService.Qlt_bool. rewrite negb_false_iff. apply Qle_bool_iff.
Qed.

(** X3.  When no JSON with the flag can be parsed from the answer, the
    keyword fallback returns a score between 0 and 100 that agrees with
    its flag (at least 50 when compliant, at most 50 when not), empty
    document lists, and the answer itself as the only issue. *)
Theorem fallback_score_agrees_with_flag (analysis_text : string) :
  RagService.first_parsed RagService.json_patterns analysis_text = None ->
  exists b q,
    RagService._parse_compliance_analysis analysis_text =
      [ ("is_compliant", PBool b);
        ("compliance_score", Py.float q);
        ("present_documents", PList []);
        ("missing_documents", PList []);
        ("required_documents", PList []);
        ("issues", PList [PStr analysis_text]) ] /\
    (0 <= q /\ q <= 100)%Q /\
    (b = true -> (50 <= q)%Q) /\
    (b = false -> (q <= 50)%Q).
Proof.
  intros Hjson. unfold RagService._parse_compliance_analysis. rewrite Hjson.
  set (b := RagService.fallback_flag (Text.lower analysis_text)).
  exists b, (RagService.fallback_score b (Text.lower analysis_text)).
  split; [reflexivity|].
  unfold RagService.fallback_score.
  assert (Hs : exists s, match RagService.extract_score RagService.score_patterns
                                 (Text.lower analysis_text) with
                         | Some score => score | None => 50%Q end = s /\
                         (0 <= s /\ s <= 100)%Q).
  { destruct (RagService.extract_score _ _) as [s|] eqn:E.
    - exists s. split; [reflexivity|]. eapply extract_score_range; eauto.
    - exists 50%Q. split; [reflexivity|]. split; discriminate. }
  destruct Hs as (s & -> & Hs0 & Hs1).
  destruct b; simpl.
  - destruct (RagService.Qlt_bool s 50) eqn:E.
    + repeat split; try discriminate.
    + apply Qlt_bool_false in E. repeat split; auto; discriminate.
  - destruct (RagService.Qlt_bool 50 s) eqn:E.
    + repeat split; try discriminate.
    + apply Qlt_bool_false in E. repeat split; auto; discriminate.
Qed.

Lemma fallback_score_agrees_with_flag_witness :
  exists b q,
    RagService._parse_compliance_analysis "Fully compliant. Score: 20" =
      [ ("is_compliant", PBool b);
        ("compliance_score", Py.float q);
        ("present_documents", PList []);
        ("missing_documents", PList []);
        ("required_documents", PList []);
        ("issues", PList [PStr "Fully compliant. Score: 20"]) ] /\
    (0 <= q /\ q <= 100)%Q /\
    (b = true -> (50 <= q)%Q) /\
    (b = false -> (q <= 50)%Q).
Proof.
  apply (fallback_score_agrees_with_flag "Fully compliant. Score: 20").
  vm_compute. reflexivity.
Defined.

(** ** The passport evidence *)

(** Nine of the ten passport keywords contain the first one. *)
Lemma passport_keywords_two (text : string) :
  Text.any_in RagService.passport_keywords text =
  Text.contains "passport" text || Text.contains "travel document" text.
Proof.
  unfold Text.any_in, RagService.passport_keywords. cbn [existsb].
  destruct (Text.contains "passport" text) eqn:Ep; [reflexivity|].
  assert (H : forall k, (exists a b, k = (a ++ "passport" ++ b)%string) ->
                        Text.contains k text = false).
  { intros k Hk. destruct (Text.contains k text) eqn:Ek; [|reflexivity].
    apply contains_app in Ek. destruct Ek as (a & b & Ht).
    assert (Hc : Text.contains "passport" text = true).
    { apply (contains_inside "passport" k).
      - apply contains_app. exact Hk.
      - now exists a, b. }
    congruence. }
  rewrite (H "passport number"), (H "passport no"), (H "passport #"),
    (H "passport id"), (H "passport document"), (H "passport page"),
    (H "passport copy"), (H "passport details");
    try (exists EmptyString; eexists; reflexivity).
  cbn [orb]. now rewrite orb_false_r.
Qed.

Lemma lower_strs_app (l : list pyval) (ps : list string) (s : string) :
  Py.lower_strs l = Some ps ->
  Py.lower_strs (l ++ [PStr s]) = Some (ps ++ [Text.lower s]).
Proof.
  revert ps. induction l as [|x l IH]; intros ps; simpl.
  - intros H. now inversion H.
  - destruct x; try discriminate.
    destruct (Py.lower_strs l) as [t|]; [|discriminate].
    intros H. inversion H; subst ps. now rewrite (IH t eq_refl).
Qed.

Lemma mem_app_last (x : string) (ps : list string) :
  Text.mem x (ps ++ [x]) = true.
Proof.
  unfold Text.mem. rewrite existsb_app. simpl.
  rewrite String.eqb_refl. now rewrite orb_true_r.
Qed.

(** X4.  When the primary guideline yields a requirement and the parsed
    judgment lists its present documents as strings, the verdict is
    decided by passport evidence alone: the request is compliant with
    score 100 and nothing missing exactly when the student text or a
    document text mentions "passport" or "travel document" (in any case)
    or the judgment already lists a passport; otherwise it is not
    compliant, with score 0 and the passport missing.  The comparison
    returns a verdict in either case. *)
Theorem passport_evidence_decides (ext : RagService.collaborators)
  (student_text : string) (student_documents : list string)
  (request_type : option string) (relevant : list RagService.hit)
  (analysis_text : string) (l : list pyval) (ps : list string) :
  RagService.retrieve ext student_text student_documents request_type = Ok relevant ->
  RagService.llm_invoke ext (RagService.combined student_text student_documents)
    (RagService.guidelines_context (map RagService.hit_document relevant)) =
    Ok analysis_text ->
  RagService._extract_required_documents_from_guideline
    (RagService.primary_text relevant) <> [] ->
  Py.get (RagService._parse_compliance_analysis analysis_text)
    "present_documents" (PList []) = PList l ->
  Py.lower_strs l = Some ps ->
  let text_lower :=
    Text.lower (student_text ++ " " ++ Text.join " " student_documents)%string in
  let mentioned :=
    Text.contains "passport" text_lower || Text.contains "travel document" text_lower in
  let evidence := mentioned || Text.mem "passport" ps in
  exists v,
    RagService.compare_with_guidelines ext student_text student_documents request_type =
      Ok v /\
    RagService.is_compliant v = PBool evidence /\
    RagService.compliance_score v = Py.float (if evidence then 100 else 0) /\
    RagService.missing_documents v = Py.strs (if evidence then [] else ["passport"]) /\
    RagService.required_documents v = Py.strs ["passport"] /\
    RagService.present_documents v =
      PList (if mentioned && negb (Text.mem "passport" ps)
             then l ++ [PStr "passport"] else l).
Proof.
  intros Hr Hl Hne Hp Hps text_lower mentioned evidence.
  unfold RagService.compare_with_guidelines. rewrite Hr. simpl. rewrite Hl. simpl.
  unfold RagService.merge_judgment.
  destruct (extract_passport_or_nothing (RagService.primary_text relevant)) as [E|E];
    [contradiction|].
  rewrite E. unfold RagService.correction_pass.
  rewrite get_set_other by discriminate. rewrite Hp.
  unfold RagService.add_passport_by_keyword.
  replace (Text.mem "passport" (map Text.lower ["passport"])) with true by reflexivity.
  fold text_lower. rewrite passport_keywords_two. fold mentioned.
  unfold evidence.
  destruct mentioned; cbn [orb andb].
  - cbn [Py.lowered]. rewrite Hps.
    destruct (Text.mem "passport" ps) eqn:Em; cbn [negb Py.append bind].
    + unfold RagService.missing_from. cbn [Py.lowered]. rewrite Hps.
      cbn [filter]. replace (Text.lower "passport") with "passport" by reflexivity.
      rewrite Em. cbn [negb bind]. eexists. split; [reflexivity|].
      cbn [RagService.is_compliant RagService.compliance_score
           RagService.missing_documents RagService.required_documents
           RagService.present_documents]. dict_get. repeat split.
    + unfold RagService.missing_from. cbn [Py.lowered].
      rewrite (lower_strs_app _ _ "passport" Hps).
      cbn [filter]. replace (Text.lower "passport") with "passport" by reflexivity.
      rewrite mem_app_last. cbn [negb bind]. eexists. split; [reflexivity|].
      cbn [RagService.is_compliant RagService.compliance_score
           RagService.missing_documents RagService.required_documents
           RagService.present_documents]. dict_get. repeat split.
  - cbn [bind]. unfold RagService.missing_from. cbn [Py.lowered]. rewrite Hps.
    cbn [filter]. replace (Text.lower "passport") with "passport" by reflexivity.
    destruct (Text.mem "passport" ps) eqn:Em; cbn [negb bind];
      (eexists; split; [reflexivity|]);
      cbn [RagService.is_compliant RagService.compliance_score
           RagService.missing_documents RagService.required_documents
           RagService.present_documents]; dict_get; repeat split.
Qed.

Lemma passport_evidence_decides_witness :
  exists v,
    RagService.compare_with_guidelines (Sample.grounded Sample.structured_answer)
      "My Travel Document is attached" [] None = Ok v /\
    RagService.is_compliant v = PBool true /\
    RagService.compliance_score v = Py.float 100 /\
    RagService.missing_documents v = Py.strs [] /\
    RagService.required_documents v = Py.strs ["passport"] /\
    RagService.present_documents v = PList [PStr "passport"].
Proof.
  apply (passport_evidence_decides (Sample.grounded Sample.structured_answer)
           "My Travel Document is attached" [] None
           [ {| RagService.hit_id := "guideline_residence_permit";
                RagService.hit_document := Sample.passport_guideline |} ]
           Sample.structured_answer [] []).
  - reflexivity.
  - reflexivity.
  - vm_compute. discriminate.
  - vm_compute. reflexivity.
  - reflexivity.
Defined.

(** ** One run of the task, stage by stage *)

Lemma find_none_subject (db : database) (subj : string) :
  (forall r, In r (requests db) -> email_subject r <> subj) ->
  EmailWorker.first_with_subject db subj = None.
Proof.
  intros H. unfold EmailWorker.first_with_subject.
  destruct (find _ (requests db)) as [r|] eqn:E; [|reflexivity].
  apply find_some in E. destruct E as [Hin Heq]. apply String.eqb_eq in Heq.
  exfalso. exact (H r Hin Heq).
Qed.

Lemma categorized_row_keeps (w : EmailWorker.world) (e : EmailWorker.email_data)
  (documents_text : list string) (r : Request) :
  let r' := categorized_row w e documents_text r in
  request_pk r' = request_pk r /\
  request_student_id r' = request_student_id r /\
  email_subject r' = email_subject r /\
  email_body r' = email_body r /\
  status r' = status r /\
  request_is_compliant r' = request_is_compliant r /\
  request_compliance_score r' = request_compliance_score r /\
  request_missing_documents r' = request_missing_documents r /\
  request_required_documents r' = request_required_documents r /\
  appointment_id r' = appointment_id r /\
  created_at r' = created_at r /\
  processed_at r' = processed_at r.
Proof.
  unfold categorized_row.
  destruct (LLMService.categorize_request _ _ _ _); simpl; repeat split.
Qed.

(** The row of the run in every outcome. *)
Lemma new_request_row (w : EmailWorker.world) (e : EmailWorker.email_data)
  (db : database) :
  EmailWorker.duplicate_of db (EmailWorker.now_at_gate w) (EmailWorker.subject e) = None ->
  exists r,
    requests (snd (EmailWorker.process_email_task w e db)) = requests db ++ [r] /\
    request_pk r = (Z.of_nat (List.length (requests db)) + 1)%Z /\
    request_student_id r =
      student_pk (fst (EmailWorker.find_or_create_student db (EmailWorker.sender e))) /\
    email_subject r = EmailWorker.subject e /\
    email_body r = EmailWorker.body e /\
    created_at r = Some (EmailWorker.now_at_insert w).
Proof.
  intros Hdup.
  pose proof (process_email_task_new w e db Hdup) as Hrun. cbv zeta in Hrun.
  destruct (verdict_of w e) as [v|err].
  - pose proof (fun r => categorized_row_keeps w e (documents_text_of w e) r) as Hcat.
    cbv zeta in Hcat.
    destruct (Py.truthy (RagService.is_compliant v)).
    + destruct (AppointmentService.get_next_available_slot db _) as [[i s]|].
      * destruct Hrun as (a & _ & Hr & _). eexists. split; [exact Hr|].
        simpl.
        destruct (Hcat (EmailWorker.with_compliance v
                    (EmailWorker.with_status PROCESSING
                       (EmailWorker.new_request
                          (Z.of_nat (List.length (requests db)) + 1)
                          (student_pk (fst (EmailWorker.find_or_create_student db
                                              (EmailWorker.sender e))))
                          (EmailWorker.subject e) (EmailWorker.body e)
                          (EmailWorker.now_at_insert w)))))
          as (K1 & K2 & K3 & K4 & _ & _ & _ & _ & _ & _ & K11 & _).
        rewrite K1, K2, K3, K4, K11. simpl. repeat split.
      * destruct Hrun as (_ & Hr & _). eexists. split; [exact Hr|].
        simpl.
        destruct (Hcat (EmailWorker.with_compliance v
                    (EmailWorker.with_status PROCESSING
                       (EmailWorker.new_request
                          (Z.of_nat (List.length (requests db)) + 1)
                          (student_pk (fst (EmailWorker.find_or_create_student db
                                              (EmailWorker.sender e))))
                          (EmailWorker.subject e) (EmailWorker.body e)
                          (EmailWorker.now_at_insert w)))))
          as (K1 & K2 & K3 & K4 & _ & _ & _ & _ & _ & _ & K11 & _).
        rewrite K1, K2, K3, K4, K11. simpl. repeat split.
    + destruct Hrun as (_ & Hr & _). eexists. split; [exact Hr|].
      simpl.
      destruct (Hcat (EmailWorker.with_compliance v
                  (EmailWorker.with_status PROCESSING
                     (EmailWorker.new_request
                        (Z.of_nat (List.length (requests db)) + 1)
                        (student_pk (fst (EmailWorker.find_or_create_student db
                                            (EmailWorker.sender e))))
                        (EmailWorker.subject e) (EmailWorker.body e)
                        (EmailWorker.now_at_insert w)))))
        as (K1 & K2 & K3 & K4 & _ & _ & _ & _ & _ & _ & K11 & _).
      rewrite K1, K2, K3, K4, K11. simpl. repeat split.
  - destruct Hrun as (_ & Hr & _). eexists. split; [exact Hr|].
    unfold EmailWorker.with_error. simpl. repeat split.
Qed.

(** X5.  A message whose subject no stored request has is taken in, and
    any message with the same subject that arrives less than 24 hours
    after the request was created is skipped: the task answers with the
    key of the first request and leaves the database as it is. *)
Theorem redelivery_is_skipped (w w' : EmailWorker.world)
  (e e' : EmailWorker.email_data) (db : database) :
  (forall r, In r (requests db) -> email_subject r <> EmailWorker.subject e) ->
  EmailWorker.subject e' = EmailWorker.subject e ->
  (EmailWorker.now_at_gate w' - EmailWorker.now_at_insert w < EmailWorker.window)%Z ->
  let db1 := snd (EmailWorker.process_email_task w e db) in
  List.length (requests db1) = S (List.length (requests db)) /\
  EmailWorker.process_email_task w' e' db1 =
    (EmailWorker.Skipped (Z.of_nat (List.length (requests db)) + 1), db1).
Proof.
  intros Hfresh Hsubj Hwin db1.
  assert (Hdup : EmailWorker.duplicate_of db (EmailWorker.now_at_gate w)
                   (EmailWorker.subject e) = None).
  { unfold EmailWorker.duplicate_of. now rewrite find_none_subject. }
  destruct (new_request_row w e db Hdup) as (r & Hr & Hpk & _ & Hs & _ & Hc).
  fold db1 in Hr. split.
  - rewrite Hr, length_app. simpl. lia.
  - unfold EmailWorker.process_email_task, EmailWorker.duplicate_of,
      EmailWorker.first_with_subject.
    rewrite Hsubj, Hr.
    assert (Hfind : find (fun r0 => String.eqb (email_subject r0) (EmailWorker.subject e))
                      (requests db ++ [r]) = Some r).
    { pose proof (find_none_subject db _ Hfresh) as Hn.
      unfold EmailWorker.first_with_subject in Hn.
      clear - Hn Hs. induction (requests db) as [|x l IH]; simpl in *.
      - now rewrite Hs, String.eqb_refl.
      - destruct (String.eqb (email_subject x) (EmailWorker.subject e));
          [discriminate | now apply IH]. }
    rewrite Hfind, Hc. apply Z.ltb_lt in Hwin. rewrite Hwin. now rewrite Hpk.
Qed.

Lemma redelivery_is_skipped_witness :
  let w := Sample.world Sample.structured_answer in
  let db1 := snd (EmailWorker.process_email_task w Sample.from_alice Sample.pool) in
  List.length (requests db1) = 1 /\
  EmailWorker.process_email_task w Sample.from_bob db1 = (EmailWorker.Skipped 1, db1).
Proof.
  apply (redelivery_is_skipped (Sample.world Sample.structured_answer)
           (Sample.world Sample.structured_answer) Sample.from_alice Sample.from_bob
           Sample.pool).
  - intros r [].
  - reflexivity.
  - reflexivity.
Defined.

(** The state a run that is not skipped ends in, as the stages of the
    task applied in order. *)
Lemma process_email_task_run (w : EmailWorker.world) (e : EmailWorker.email_data)
  (db : database) :
  EmailWorker.duplicate_of db (EmailWorker.now_at_gate w) (EmailWorker.subject e) = None ->
  let row := List.length (requests db) in
  let request_id := (Z.of_nat row + 1)%Z in
  let student := fst (EmailWorker.find_or_create_student db (EmailWorker.sender e)) in
  match verdict_of w e with
  | Raised err =>
      snd (EmailWorker.process_email_task w e db) =
      EmailWorker.update_request (processing_state w e db) row (EmailWorker.with_error err)
  | Ok v =>
      snd (EmailWorker.process_email_task w e db) =
      if Py.truthy (RagService.is_compliant v)
      then EmailWorker.allocate w (categorized_state w e db v) row request_id student v
      else categorized_state w e db v
  end.
Proof.
  intros Hdup row request_id student.
  unfold categorized_state, processing_state.
  unfold verdict_of, EmailWorker.process_email_task. rewrite Hdup.
  pose proof (find_or_create_student_frame db (EmailWorker.sender e)) as Hs.
  subst student.
  destruct (EmailWorker.find_or_create_student db (EmailWorker.sender e))
    as [student db1] eqn:Es.
  simpl in Hs. destruct Hs as (S1 & _). rewrite S1. fold row. fold request_id.
  cbn [fst snd].
  pose proof (attachments_texts w request_id (EmailWorker.attachments e)
                (EmailWorker.insert_request db1
                   (EmailWorker.new_request request_id (student_pk student)
                      (EmailWorker.subject e) (EmailWorker.body e)
                      (EmailWorker.now_at_insert w)), [])) as Ht.
  destruct (fold_left (EmailWorker.process_attachment w request_id)
              (EmailWorker.attachments e) _) as [db3 documents_text] eqn:Ef.
  simpl in Ht. fold (documents_text_of w e) in Ht. subst documents_text.
  cbn [fst].
  destruct (RagService.compare_with_guidelines _ _ _ _) as [v|err].
  - rewrite categorize_update. cbv zeta. cbn [snd].
    destruct (Py.truthy (RagService.is_compliant v)); reflexivity.
  - reflexivity.
Qed.

Lemma update_request_frame (db : database) (row : nat) (f : Request -> Request) :
  students (EmailWorker.update_request db row f) = students db /\
  documents (EmailWorker.update_request db row f) = documents db /\
  appointments (EmailWorker.update_request db row f) = appointments db /\
  available_slots (EmailWorker.update_request db row f) = available_slots db.
Proof. repeat split. Qed.

Lemma allocate_frame (w : EmailWorker.world) (db : database) (row : nat)
  (request_id : Z) (student : Student) (v : RagService.verdict) :
  students (EmailWorker.allocate w db row request_id student v) = students db /\
  documents (EmailWorker.allocate w db row request_id student v) = documents db.
Proof.
  unfold EmailWorker.allocate, AppointmentService.schedule_appointment.
  destruct (AppointmentService.get_next_available_slot db _) as [[i s]|]; [|auto].
  destruct (EmailWorker.send_appointment_confirmation _ _ _); simpl; auto.
Qed.

Lemma processing_state_frame (w : EmailWorker.world) (e : EmailWorker.email_data)
  (db : database) :
  let request_id := (Z.of_nat (List.length (requests db)) + 1)%Z in
  let student := fst (EmailWorker.find_or_create_student db (EmailWorker.sender e)) in
  let db1 := snd (EmailWorker.find_or_create_student db (EmailWorker.sender e)) in
  let r0 := EmailWorker.new_request request_id (student_pk student)
              (EmailWorker.subject e) (EmailWorker.body e) (EmailWorker.now_at_insert w) in
  let db3 := fst (fold_left (EmailWorker.process_attachment w request_id)
                    (EmailWorker.attachments e) (EmailWorker.insert_request db1 r0, [])) in
  students (processing_state w e db) = students db1 /\
  documents (processing_state w e db) = documents db3 /\
  appointments (processing_state w e db) = appointments db /\
  available_slots (processing_state w e db) = available_slots db.
Proof.
  intros request_id student db1 r0 db3.
  pose proof (find_or_create_student_frame db (EmailWorker.sender e)) as Hs.
  cbv zeta in Hs. fold db1 in Hs. destruct Hs as (_ & S2 & S3 & _).
  pose proof (attachments_frame w request_id (EmailWorker.attachments e)
                (EmailWorker.insert_request db1 r0, [])) as Hf.
  cbv zeta in Hf. fold db3 in Hf. destruct Hf as (F1 & _ & F3 & F4 & _).
  simpl in F1, F3, F4.
  unfold processing_state. fold request_id student db1 r0 db3. simpl.
  rewrite F1, F3, F4, S2, S3. auto.
Qed.

(** Students and documents after a run: what the first two stages left. *)
Lemma process_email_task_tables (w : EmailWorker.world) (e : EmailWorker.email_data)
  (db : database) :
  EmailWorker.duplicate_of db (EmailWorker.now_at_gate w) (EmailWorker.subject e) = None ->
  let request_id := (Z.of_nat (List.length (requests db)) + 1)%Z in
  let student := fst (EmailWorker.find_or_create_student db (EmailWorker.sender e)) in
  let db1 := snd (EmailWorker.find_or_create_student db (EmailWorker.sender e)) in
  let r0 := EmailWorker.new_request request_id (student_pk student)
              (EmailWorker.subject e) (EmailWorker.body e) (EmailWorker.now_at_insert w) in
  let db3 := fst (fold_left (EmailWorker.process_attachment w request_id)
                    (EmailWorker.attachments e) (EmailWorker.insert_request db1 r0, [])) in
  students (snd (EmailWorker.process_email_task w e db)) = students db1 /\
  documents (snd (EmailWorker.process_email_task w e db)) = documents db3.
Proof.
  intros Hdup request_id student db1 r0 db3.
  pose proof (process_email_task_run w e db Hdup) as Hrun. cbv zeta in Hrun.
  destruct (processing_state_frame w e db) as (P1 & P2 & _).
  fold request_id student db1 r0 db3 in P1, P2.
  destruct (verdict_of w e) as [v|err].
  - rewrite Hrun. destruct (Py.truthy (RagService.is_compliant v)).
    + destruct (allocate_frame w (categorized_state w e db v)
                  (List.length (requests db)) request_id
                  (fst (EmailWorker.find_or_create_student db (EmailWorker.sender e))) v)
        as (A1 & A2).
      unfold request_id in A1, A2.
      rewrite A1, A2. unfold categorized_state. simpl. auto.
    + unfold categorized_state. simpl. auto.
  - rewrite Hrun. simpl. auto.
Qed.

(** ** Documents and students *)

Lemma process_attachment_document (w : EmailWorker.world) (request_id : Z)
  (st : database * list string) (a : EmailWorker.attachment) :
  exists new,
    documents (fst (EmailWorker.process_attachment w request_id st a)) =
      documents (fst st) ++ new /\
    map filename new =
      map EmailWorker.attachment_filename (if stored w a then [a] else []) /\
    Forall (fun d => document_request_id d = request_id /\ file_type d = "pdf" /\
                     extracted_text d <> EmptyString) new.
Proof.
  destruct st as [db texts]. unfold EmailWorker.process_attachment, stored.
  destruct (EmailWorker.attachment_file_path a) as [path|];
    [|exists []; simpl; rewrite app_nil_r; auto].
  destruct (EmailWorker.is_pdf a && negb (String.eqb path EmptyString) &&
            EmailWorker.path_exists w path);
    [|exists []; simpl; rewrite app_nil_r; auto].
  destruct (EmailWorker.extract_text w path) as [extracted|doc_error].
  - destruct (EmailWorker.add_document w _) as [vector|doc_error];
      eexists; simpl; (split; [reflexivity|]); (split; [reflexivity|]);
      constructor; auto; simpl; repeat split; try discriminate.
    destruct extracted as [|c r]; simpl; discriminate.
  - eexists; simpl; (split; [reflexivity|]); (split; [reflexivity|]).
    constructor; auto. simpl. repeat split. discriminate.
Qed.

Lemma attachments_documents (w : EmailWorker.world) (request_id : Z)
  (l : list EmailWorker.attachment) :
  forall st,
  exists new,
    documents (fst (fold_left (EmailWorker.process_attachment w request_id) l st)) =
      documents (fst st) ++ new /\
    map filename new = map EmailWorker.attachment_filename (filter (stored w) l) /\
    Forall (fun d => document_request_id d = request_id /\ file_type d = "pdf" /\
                     extracted_text d <> EmptyString) new.
Proof.
  induction l as [|a l IH]; intros st; simpl.
  - exists []. rewrite app_nil_r. auto.
  - destruct (process_attachment_document w request_id st a) as (n1 & D1 & M1 & P1).
    destruct (IH (EmailWorker.process_attachment w request_id st a)) as (n2 & D2 & M2 & P2).
    exists (n1 ++ n2). rewrite D2, D1, <- app_assoc. split; [reflexivity|].
    rewrite map_app, M1, M2. split.
    + destruct (stored w a); reflexivity.
    + apply Forall_app. auto.
Qed.

(** X6.  A run that is not skipped stores one document row for every
    attachment that is a PDF (by content type or by a name ending in
    .pdf, in any case) with a path that exists, in the order of the
    attachments and under the key of the run's request, whether the
    extraction or the indexing of the file succeeds or raises and
    whatever happens in the later stages; no other attachment is stored,
    and the text stored is never empty. *)
Theorem one_document_per_stored_pdf (w : EmailWorker.world) (e : EmailWorker.email_data)
  (db : database) :
  EmailWorker.duplicate_of db (EmailWorker.now_at_gate w) (EmailWorker.subject e) = None ->
  exists new,
    documents (snd (EmailWorker.process_email_task w e db)) = documents db ++ new /\
    map filename new =
      map EmailWorker.attachment_filename (filter (stored w) (EmailWorker.attachments e)) /\
    Forall (fun d =>
              document_request_id d = (Z.of_nat (List.length (requests db)) + 1)%Z /\
              file_type d = "pdf" /\ extracted_text d <> EmptyString) new.
Proof.
  intros Hdup.
  destruct (process_email_task_tables w e db Hdup) as (_ & Hd). cbv zeta in Hd.
  rewrite Hd.
  match goal with
  | |- context [fold_left ?f ?l ?st] =>
      destruct (attachments_documents w (Z.of_nat (List.length (requests db)) + 1) l st)
        as (new & D & M & P)
  end.
  exists new. rewrite D. split; [|auto]. simpl.
  unfold EmailWorker.find_or_create_student.
  destruct (find _ (students db)); reflexivity.
Qed.

Lemma one_document_per_stored_pdf_witness :
  let e := {| EmailWorker.subject := "Visa";
              EmailWorker.sender := "carol@uni.example";
              EmailWorker.body := "See attachments.";
              EmailWorker.attachments :=
                [ {| EmailWorker.content_type := "image/png";
                     EmailWorker.attachment_filename := "photo.png";
                     EmailWorker.attachment_file_path := Some "/tmp/photo.png" |};
                  {| EmailWorker.content_type := "application/octet-stream";
                     EmailWorker.attachment_filename := "Passport.PDF";
                     EmailWorker.attachment_file_path := Some "/tmp/Passport.PDF" |} ] |} in
  let w := {| EmailWorker.now_at_gate := 1000;
              EmailWorker.now_at_insert := 1001;
              EmailWorker.now_at_processed := 1002;
              EmailWorker.now_at_allocation := 1003;
              EmailWorker.path_exists := fun _ => true;
              EmailWorker.extract_text := fun _ => Raised "not a PDF";
              EmailWorker.add_document := fun _ => Ok "vector-1";
              EmailWorker.rag := Sample.grounded Sample.structured_answer;
              EmailWorker.categorizer := fun _ => Raised "quota";
              EmailWorker.send_appointment_confirmation := fun _ _ => Ok true |} in
  exists new,
    documents (snd (EmailWorker.process_email_task w e Sample.pool)) =
      documents Sample.pool ++ new /\
    map filename new = ["Passport.PDF"] /\
    Forall (fun d =>
              document_request_id d = 1%Z /\
              file_type d = "pdf" /\ extracted_text d <> EmptyString) new.
Proof.
  intros e w. apply (one_document_per_stored_pdf w e Sample.pool). reflexivity.
Defined.

Lemma find_or_create_student_spec (db : database) (sender : string) :
  let student := fst (EmailWorker.find_or_create_student db sender) in
  let db1 := snd (EmailWorker.find_or_create_student db sender) in
  In student (students db1) /\
  student_email student = EmailWorker.email_address_of sender /\
  (students db1 = students db \/
   students db1 = students db ++ [student] /\
   forall st, In st (students db) ->
     student_email st <> EmailWorker.email_address_of sender).
Proof.
  unfold EmailWorker.find_or_create_student.
  destruct (find _ (students db)) as [st|] eqn:E; simpl.
  - apply find_some in E. destruct E as [Hin Heq]. apply String.eqb_eq in Heq. auto.
  - split; [apply in_or_app; right; now left|]. split; [reflexivity|]. right.
    split; [reflexivity|]. intros st Hin Heq.
    pose proof (find_none _ _ E st Hin) as Hn. simpl in Hn.
    rewrite Heq, String.eqb_refl in Hn. discriminate.
Qed.

(** X7.  A run that is not skipped links its request to the student row
    that bears the sender's address.  That row is the stored one when
    the address is known and a new last row otherwise; the rows stored
    before are kept as they are, and when no two students shared an
    address before the run, none do after it. *)
Theorem request_linked_to_senders_student (w : EmailWorker.world)
  (e : EmailWorker.email_data) (db : database) :
  EmailWorker.duplicate_of db (EmailWorker.now_at_gate w) (EmailWorker.subject e) = None ->
  let db' := snd (EmailWorker.process_email_task w e db) in
  (exists student r,
     requests db' = requests db ++ [r] /\
     In student (students db') /\
     student_email student = EmailWorker.email_address_of (EmailWorker.sender e) /\
     request_student_id r = student_pk student /\
     (students db' = students db \/ students db' = students db ++ [student])) /\
  (NoDup (map student_email (students db)) -> NoDup (map student_email (students db'))).
Proof.
  intros Hdup db'.
  destruct (process_email_task_tables w e db Hdup) as (Hst & _). cbv zeta in Hst.
  fold db' in Hst.
  destruct (new_request_row w e db Hdup) as (r & Hr & _ & Hsid & _). fold db' in Hr.
  destruct (find_or_create_student_spec db (EmailWorker.sender e)) as (Hin & Hem & Hcase).
  rewrite <- Hst in Hin, Hcase. split.
  - exists (fst (EmailWorker.find_or_create_student db (EmailWorker.sender e))), r.
    repeat split; auto. destruct Hcase as [H | [H _]]; auto.
  - intros Hnd. destruct Hcase as [H | [H Hnew]]; rewrite H; [exact Hnd|].
    rewrite map_app. simpl.
    apply NoDup_app; [exact Hnd | constructor; [intros [] | constructor] |].
    intros x Hx [<- | []].
    apply in_map_iff in Hx. destruct Hx as (st & Heq & Hin').
    apply (Hnew st Hin'). now rewrite Heq, Hem.
Qed.

Lemma request_linked_to_senders_student_witness :
  let db' := snd (EmailWorker.process_email_task (Sample.world Sample.structured_answer)
                    Sample.from_bob Sample.pool) in
  (exists student r,
     requests db' = requests Sample.pool ++ [r] /\
     In student (students db') /\
     student_email student = EmailWorker.email_address_of (EmailWorker.sender Sample.from_bob) /\
     request_student_id r = student_pk student /\
     (students db' = students Sample.pool \/
      students db' = students Sample.pool ++ [student])) /\
  (NoDup (map student_email (students Sample.pool)) ->
   NoDup (map student_email (students db'))).
Proof.
  apply (request_linked_to_senders_student (Sample.world Sample.structured_answer)
           Sample.from_bob Sample.pool).
  reflexivity.
Defined.

(** ** The sender line *)

Lemma contains_char (c d : ascii) (r : string) :
  Text.contains (String c EmptyString) (String d r) =
  Ascii.eqb d c || Text.contains (String c EmptyString) r.
Proof.
  rewrite contains_cons. f_equal. simpl.
  destruct (Ascii.ascii_dec c d) as [->|Hne].
  - rewrite Ascii.eqb_refl. now destruct r.
  - symmetry. apply Ascii.eqb_neq. congruence.
Qed.

Lemma split_without (sep : ascii) (s : string) :
  Text.contains (String sep EmptyString) s = false -> Text.split sep s = [s].
Proof.
  induction s as [|c s IH]; [reflexivity|].
  rewrite contains_char. intros H. apply orb_false_iff in H. destruct H as [Hc Hs].
  simpl. rewrite Hc, (IH Hs). reflexivity.
Qed.

Lemma split_at_first (sep : ascii) (a b : string) :
  Text.contains (String sep EmptyString) a = false ->
  Text.split sep (a ++ String sep b) = a :: Text.split sep b.
Proof.
  induction a as [|c a IH]; simpl append.
  - intros _. simpl. now rewrite Ascii.eqb_refl.
  - rewrite contains_char. intros H. apply orb_false_iff in H. destruct H as [Hc Ha].
    simpl. rewrite Hc, (IH Ha). reflexivity.
Qed.

Lemma contains_char_app (c : ascii) (a b : string) :
  Text.contains (String c EmptyString) (a ++ b) =
  Text.contains (String c EmptyString) a || Text.contains (String c EmptyString) b.
Proof.
  induction a as [|d a IH]; simpl append.
  - reflexivity.
  - now rewrite !contains_char, IH, orb_assoc.
Qed.

(** X8.  A sender line of the form name<address>, where the name has
    no opening bracket and the address no bracket at all, is read as that
    address, and a student created for it is given the name with the
    white space around it removed.  The name is taken in ASCII for its
    stripping: [strip] of the code also removes white space outside
    ASCII, such as a no-break space. *)
Theorem sender_display_form (name address : string) :
  Text.contains "<" name = false ->
  Text.contains "<" address = false ->
  Text.contains ">" address = false ->
  let sender := (name ++ "<" ++ address ++ ">")%string in
  EmailWorker.email_address_of sender = address /\
  (Text.is_ascii name = true ->
   EmailWorker.name_of sender address = Text.strip name).
Proof.
  intros Hn Ha1 Ha2 sender.
  assert (Hc : Text.contains "<" sender = true).
  { apply contains_app. now exists name, (address ++ ">")%string. }
  assert (Hs : Text.split "<"%char sender = [name; (address ++ ">")%string]).
  { unfold sender. simpl append. rewrite (split_at_first _ _ _ Hn).
    rewrite split_without; [reflexivity|].
    rewrite contains_char_app, Ha1. reflexivity. }
  unfold EmailWorker.email_address_of, EmailWorker.name_of.
  rewrite Hc, Hs. cbn [last hd]. split; [|intros _; reflexivity].
  change (address ++ ">")%string with (address ++ String ">"%char EmptyString)%string.
  now rewrite (split_at_first _ _ _ Ha2).
Qed.

Lemma sender_display_form_witness :
  EmailWorker.email_address_of "Alice Ng <alice@uni.example>" = "alice@uni.example" /\
  Text.is_ascii "Alice Ng " = true /\
  EmailWorker.name_of "Alice Ng <alice@uni.example>" "alice@uni.example" = "Alice Ng".
Proof.
  destruct (sender_display_form "Alice Ng " "alice@uni.example" eq_refl eq_refl eq_refl)
    as [Haddress Hname].
  split; [exact Haddress|]. split; [reflexivity|]. exact (Hname eq_refl).
Defined.

(** ** The outcomes of a run *)

(** X9.  When the comparison with the guidelines raises, whether the
    error comes from the search, from the model or from the correction
    pass itself (a judgment whose present documents cannot be iterated or
    lowered), the task answers with the text of that error; the run's
    request stays in the processing state and is never categorised, its
    audit field holds the text "Processing error: " followed by the error
    text, its compliance fields keep their defaults, and no appointment
    is made and no slot touched. *)
Theorem comparison_failure_is_recorded (w : EmailWorker.world)
  (e : EmailWorker.email_data) (db : database) (err : string) :
  EmailWorker.duplicate_of db (EmailWorker.now_at_gate w) (EmailWorker.subject e) = None ->
  verdict_of w e = Raised err ->
  let res := EmailWorker.process_email_task w e db in
  fst res = EmailWorker.Error err /\
  appointments (snd res) = appointments db /\
  available_slots (snd res) = available_slots db /\
  exists r,
    requests (snd res) = requests db ++ [r] /\
    status r = PROCESSING /\
    llm_analysis r = Some ("Processing error: " ++ err)%string /\
    request_type r = None /\
    llm_category r = None /\
    request_is_compliant r = PBool false /\
    request_compliance_score r = Py.float 0 /\
    processed_at r = None /\
    appointment_id r = None.
Proof.
  intros Hdup Hv res.
  pose proof (process_email_task_new w e db Hdup) as Hrun. cbv zeta in Hrun.
  rewrite Hv in Hrun. destruct Hrun as (H1 & H2 & _ & H4 & H5).
  repeat (split; [assumption|]).
  eexists. split; [exact H2|]. unfold EmailWorker.with_error. simpl. repeat split.
Qed.

Lemma comparison_failure_is_recorded_witness :
  let answer :=
    ("{" ++ Text.quoted "is_compliant" ++ ": false, " ++
     Text.quoted "present_documents" ++ ": null}")%string in
  let e := {| EmailWorker.subject := "Residence permit extension";
              EmailWorker.sender := "Dan <dan@uni.example>";
              EmailWorker.body := "Please extend my permit.";
              EmailWorker.attachments := [] |} in
  let res := EmailWorker.process_email_task (Sample.world answer) e Sample.pool in
  fst res = EmailWorker.Error "'NoneType' object is not iterable" /\
  appointments (snd res) = appointments Sample.pool /\
  available_slots (snd res) = available_slots Sample.pool /\
  exists r,
    requests (snd res) = requests Sample.pool ++ [r] /\
    status r = PROCESSING /\
    llm_analysis r = Some "Processing error: 'NoneType' object is not iterable" /\
    request_type r = None /\
    llm_category r = None /\
    request_is_compliant r = PBool false /\
    request_compliance_score r = Py.float 0 /\
    processed_at r = None /\
    appointment_id r = None.
Proof.
  intros answer e.
  apply (comparison_failure_is_recorded (Sample.world answer) e Sample.pool
           "'NoneType' object is not iterable"); [reflexivity|].
  vm_compute. reflexivity.
Defined.

Lemma categorized_state_frame (w : EmailWorker.world) (e : EmailWorker.email_data)
  (db : database) (v : RagService.verdict) :
  appointments (categorized_state w e db v) = appointments db /\
  available_slots (categorized_state w e db v) = available_slots db.
Proof.
  destruct (processing_state_frame w e db) as (_ & _ & P3 & P4).
  unfold categorized_state. simpl. auto.
Qed.

Lemma allocate_appointment (w : EmailWorker.world) (db : database) (row : nat)
  (request_id : Z) (student : Student) (v : RagService.verdict)
  (i : nat) (s : AvailableSlot) :
  AppointmentService.get_next_available_slot db (EmailWorker.now_at_allocation w) =
    Some (i, s) ->
  exists a,
    appointments (EmailWorker.allocate w db row request_id student v) =
      appointments db ++ [a] /\
    appointment_pk a = (Z.of_nat (List.length (appointments db)) + 1)%Z /\
    appointment_student_id a = student_pk student /\
    appointment_request_id a = request_id /\
    appointment_date a = slot_date s /\
    appointment_time a = slot_time s /\
    appointment_status a = "scheduled" /\
    appointment_required_documents a = RagService.required_documents v.
Proof.
  intros Hslot. unfold EmailWorker.allocate, AppointmentService.schedule_appointment.
  rewrite Hslot.
  destruct (EmailWorker.send_appointment_confirmation _ _ _);
    eexists; simpl; (split; [reflexivity|]); repeat split.
Qed.

(** The appointment a run makes. *)
Lemma scheduled_appointment_fields (w : EmailWorker.world)
  (e : EmailWorker.email_data) (db : database) (v : RagService.verdict)
  (i : nat) (s : AvailableSlot) (a : Appointment) :
  EmailWorker.duplicate_of db (EmailWorker.now_at_gate w) (EmailWorker.subject e) = None ->
  verdict_of w e = Ok v ->
  Py.truthy (RagService.is_compliant v) = true ->
  AppointmentService.get_next_available_slot db (EmailWorker.now_at_allocation w) =
    Some (i, s) ->
  appointments (snd (EmailWorker.process_email_task w e db)) = appointments db ++ [a] ->
  appointment_pk a = (Z.of_nat (List.length (appointments db)) + 1)%Z /\
  appointment_student_id a =
    student_pk (fst (EmailWorker.find_or_create_student db (EmailWorker.sender e))) /\
  appointment_request_id a = (Z.of_nat (List.length (requests db)) + 1)%Z /\
  appointment_date a = slot_date s /\
  appointment_time a = slot_time s /\
  appointment_required_documents a = RagService.required_documents v.
Proof.
  intros Hdup Hv Ht Hslot Happ.
  pose proof (process_email_task_run w e db Hdup) as Hrun. cbv zeta in Hrun.
  rewrite Hv, Ht in Hrun.
  destruct (categorized_state_frame w e db v) as (C1 & C2).
  rewrite <- (get_next_available_slot_slots db _ _ C2) in Hslot.
  destruct (allocate_appointment w (categorized_state w e db v)
              (List.length (requests db)) (Z.of_nat (List.length (requests db)) + 1)%Z
              (fst (EmailWorker.find_or_create_student db (EmailWorker.sender e))) v
              i s Hslot)
    as (a0 & A0 & A1 & A2 & A3 & A4 & A5 & _ & A7).
  rewrite <- Hrun, Happ, C1 in A0.
  apply app_inv_head in A0. inversion A0; subst a0; clear A0.
  rewrite C1 in A1. repeat split; assumption.
Qed.

(** X10.  When the verdict is compliant and a slot can be booked, the
    task answers success with an appointment; the run's request ends in
    the appointment_scheduled state and carries the key of the new
    appointment; the appointment is for the run's request and its
    student, at the date and time of the slot returned by the slot
    query, with the verdict's required documents; and that slot is the
    only one changed.  This holds whether the confirmation message can be
    sent or not. *)
Theorem compliant_with_slot_is_scheduled (w : EmailWorker.world)
  (e : EmailWorker.email_data) (db : database) (v : RagService.verdict)
  (i : nat) (s : AvailableSlot) :
  EmailWorker.duplicate_of db (EmailWorker.now_at_gate w) (EmailWorker.subject e) = None ->
  verdict_of w e = Ok v ->
  Py.truthy (RagService.is_compliant v) = true ->
  AppointmentService.get_next_available_slot db (EmailWorker.now_at_allocation w) =
    Some (i, s) ->
  let request_id := (Z.of_nat (List.length (requests db)) + 1)%Z in
  let res := EmailWorker.process_email_task w e db in
  exists a r categorized_as,
    fst res = EmailWorker.Success request_id categorized_as true /\
    requests (snd res) = requests db ++ [r] /\
    status r = APPOINTMENT_SCHEDULED /\
    appointment_id r = Some (appointment_pk a) /\
    appointments (snd res) = appointments db ++ [a] /\
    appointment_pk a = (Z.of_nat (List.length (appointments db)) + 1)%Z /\
    appointment_request_id a = request_id /\
    appointment_student_id a = request_student_id r /\
    appointment_date a = slot_date s /\
    appointment_time a = slot_time s /\
    appointment_required_documents a = RagService.required_documents v /\
    available_slots (snd res) =
      AppointmentService.update_row i AppointmentService.book (available_slots db).
Proof.
  intros Hdup Hv Ht Hslot request_id res.
  pose proof (process_email_task_new w e db Hdup) as Hnew. cbv zeta in Hnew.
  rewrite Hv, Ht, Hslot in Hnew.
  destruct Hnew as (a & Hres & Hreq & _ & Happ & Hslots).
  destruct (scheduled_appointment_fields w e db v i s a Hdup Hv Ht Hslot Happ)
    as (A1 & A2 & A3 & A4 & A5 & A6).
  exists a. eexists. eexists. split; [exact Hres|]. split; [exact Hreq|].
  pose proof (categorized_row_keeps w e (documents_text_of w e)) as Hcat.
  cbv zeta in Hcat.
  simpl. rewrite (proj1 (proj2 (Hcat _))). simpl.
  repeat split; auto.
Qed.

Lemma compliant_with_slot_is_scheduled_witness :
  let w := {| EmailWorker.now_at_gate := 10;
              EmailWorker.now_at_insert := 11;
              EmailWorker.now_at_processed := 12;
              EmailWorker.now_at_allocation := 13;
              EmailWorker.path_exists := fun _ => true;
              EmailWorker.extract_text := fun _ => Ok "Scan of a passport page";
              EmailWorker.add_document := fun _ => Ok "vector-1";
              EmailWorker.rag := Sample.grounded Sample.structured_answer;
              EmailWorker.categorizer := fun _ => Ok Sample.category_answer;
              EmailWorker.send_appointment_confirmation :=
                fun _ _ => Raised "SMTP is down" |} in
  let res := EmailWorker.process_email_task w Sample.from_alice Sample.pool in
  exists a r categorized_as,
    fst res = EmailWorker.Success 1 categorized_as true /\
    requests (snd res) = requests Sample.pool ++ [r] /\
    status r = APPOINTMENT_SCHEDULED /\
    appointment_id r = Some (appointment_pk a) /\
    appointments (snd res) = appointments Sample.pool ++ [a] /\
    appointment_pk a = 1%Z /\
    appointment_request_id a = 1%Z /\
    appointment_student_id a = request_student_id r /\
    appointment_date a = 200%Z /\
    appointment_time a = "09:00" /\
    appointment_required_documents a = PList [PStr "passport"] /\
    available_slots (snd res) =
      AppointmentService.update_row 1 AppointmentService.book
        (available_slots Sample.pool).
Proof.
  intros w.
  apply (compliant_with_slot_is_scheduled w Sample.from_alice Sample.pool
           {| RagService.is_compliant := PBool true;
              RagService.compliance_score := Py.float 100;
              RagService.present_documents := PList [PStr "passport"];
              RagService.missing_documents := PList [];
              RagService.required_documents := PList [PStr "passport"];
              RagService.issues := PList [];
              RagService.analysis := Sample.structured_answer;
              RagService.relevant_guidelines := ["guideline_residence_permit"] |}
           1 (Sample.slot 200 "09:00" 1 0)).
  - reflexivity.
  - vm_compute. reflexivity.
  - reflexivity.
  - reflexivity.
Defined.

(** X11.  When the verdict is not compliant, the task answers success
    without an appointment, however many slots are free: the run's
    request ends in the categorized state with the verdict's flag, score,
    missing and required documents stored and its processing time set,
    no appointment is made and no slot is touched. *)
Theorem non_compliant_is_not_scheduled (w : EmailWorker.world)
  (e : EmailWorker.email_data) (db : database) (v : RagService.verdict) :
  EmailWorker.duplicate_of db (EmailWorker.now_at_gate w) (EmailWorker.subject e) = None ->
  verdict_of w e = Ok v ->
  RagService.is_compliant v = PBool false ->
  let request_id := (Z.of_nat (List.length (requests db)) + 1)%Z in
  let res := EmailWorker.process_email_task w e db in
  appointments (snd res) = appointments db /\
  available_slots (snd res) = available_slots db /\
  exists r categorized_as,
    fst res = EmailWorker.Success request_id categorized_as false /\
    requests (snd res) = requests db ++ [r] /\
    status r = CATEGORIZED /\
    appointment_id r = None /\
    request_is_compliant r = PBool false /\
    request_compliance_score r = RagService.compliance_score v /\
    request_missing_documents r = Some (RagService.missing_documents v) /\
    request_required_documents r = Some (RagService.required_documents v) /\
    processed_at r = Some (EmailWorker.now_at_processed w).
Proof.
  intros Hdup Hv Hc request_id res.
  pose proof (process_email_task_new w e db Hdup) as Hnew. cbv zeta in Hnew.
  rewrite Hv, Hc in Hnew. cbn [Py.truthy] in Hnew.
  destruct Hnew as (Hres & Hreq & _ & Happ & Hslots).
  split; [exact Happ|]. split; [exact Hslots|].
  eexists. eexists. split; [exact Hres|]. split; [exact Hreq|].
  pose proof (categorized_row_keeps w e (documents_text_of w e)) as Hcat.
  cbv zeta in Hcat. simpl.
  match goal with
  | |- context [categorized_row w e _ ?r] =>
      destruct (Hcat r) as (_ & _ & _ & _ & _ & K6 & K7 & K8 & K9 & K10 & _)
  end.
  rewrite K6, K7, K8, K9, K10. simpl. rewrite Hc. repeat split.
Qed.

Lemma non_compliant_is_not_scheduled_witness :
  let e := {| EmailWorker.subject := "Residence permit extension";
              EmailWorker.sender := "Dan <dan@uni.example>";
              EmailWorker.body := "Please extend my permit.";
              EmailWorker.attachments := [] |} in
  let w := Sample.world Sample.structured_answer in
  let res := EmailWorker.process_email_task w e Sample.pool in
  appointments (snd res) = appointments Sample.pool /\
  available_slots (snd res) = available_slots Sample.pool /\
  exists r categorized_as,
    fst res = EmailWorker.Success 1 categorized_as false /\
    requests (snd res) = requests Sample.pool ++ [r] /\
    status r = CATEGORIZED /\
    appointment_id r = None /\
    request_is_compliant r = PBool false /\
    request_compliance_score r = Py.float 0 /\
    request_missing_documents r = Some (PList [PStr "passport"]) /\
    request_required_documents r = Some (PList [PStr "passport"]) /\
    processed_at r = Some 1002%Z.
Proof.
  intros e w.
  apply (non_compliant_is_not_scheduled w e Sample.pool
           {| RagService.is_compliant := PBool false;
              RagService.compliance_score := Py.float 0;
              RagService.present_documents := PList [];
              RagService.missing_documents := PList [PStr "passport"];
              RagService.required_documents := PList [PStr "passport"];
              RagService.issues := PList [];
              RagService.analysis := Sample.structured_answer;
              RagService.relevant_guidelines := ["guideline_residence_permit"] |}).
  - reflexivity.
  - vm_compute. reflexivity.
  - reflexivity.
Defined.

(** ** Creating the slots *)

Lemma slot_exists_app (a b : list AvailableSlot) (date : time) (label : string) :
  AppointmentService.slot_exists (a ++ b) date label =
  AppointmentService.slot_exists a date label ||
  AppointmentService.slot_exists b date label.
Proof. unfold AppointmentService.slot_exists. apply existsb_app. Qed.

Lemma create_on_spec (date : time) (slots : list AvailableSlot) (label : string) :
  exists added,
    AppointmentService.create_on date slots label = slots ++ added /\
    List.length added <= 1 /\
    Forall (fun s => slot_date s = date /\ slot_time s = label /\
                     max_capacity s = 1%Z /\ current_bookings s = 0%Z /\
                     is_available s = true) added /\
    AppointmentService.slot_exists (slots ++ added) date label = true.
Proof.
  unfold AppointmentService.create_on.
  destruct (AppointmentService.slot_exists slots date label) eqn:E.
  - exists []. rewrite app_nil_r. repeat split; auto.
  - eexists. split; [reflexivity|]. split; [simpl; lia|]. split.
    + constructor; [simpl; auto | constructor].
    + rewrite slot_exists_app. unfold AppointmentService.slot_exists at 2. simpl.
      rewrite Z.eqb_refl, String.eqb_refl. now rewrite orb_true_r.
Qed.

Lemma create_labels_spec (date : time) (labels : list string) :
  forall slots,
  exists added,
    fold_left (AppointmentService.create_on date) labels slots = slots ++ added /\
    List.length added <= List.length labels /\
    Forall (fun s => slot_date s = date /\ In (slot_time s) labels /\
                     max_capacity s = 1%Z /\ current_bookings s = 0%Z /\
                     is_available s = true) added /\
    forall label, In label labels ->
      AppointmentService.slot_exists (slots ++ added) date label = true.
Proof.
  induction labels as [|l labels IH]; intros slots; simpl.
  - exists []. rewrite app_nil_r. repeat split; auto; intros label [].
  - destruct (create_on_spec date slots l) as (a1 & E1 & L1 & P1 & X1).
    rewrite E1.
    destruct (IH (slots ++ a1)) as (a2 & E2 & L2 & P2 & X2).
    exists (a1 ++ a2). rewrite E2, <- app_assoc. split; [reflexivity|].
    split; [rewrite length_app; lia|]. split.
    + apply Forall_app. split.
      * eapply Forall_impl; [|exact P1]. simpl. intros s (A & B & C). subst. auto.
      * eapply Forall_impl; [|exact P2]. simpl. intros s (A & B & C). auto.
    + intros label [<- | Hin].
      * rewrite app_assoc, slot_exists_app, X1. reflexivity.
      * rewrite app_assoc. now apply X2.
Qed.

Lemma create_days_spec (start_date : time) (slots_per_day num_days : nat) :
  forall d slots,
  exists added,
    AppointmentService.create_days start_date d num_days slots_per_day slots =
      slots ++ added /\
    List.length added <=
      num_days * List.length (firstn slots_per_day AppointmentService.time_slots) /\
    Forall (fun s => In (slot_time s) (firstn slots_per_day AppointmentService.time_slots) /\
                     max_capacity s = 1%Z /\ current_bookings s = 0%Z /\
                     is_available s = true) added /\
    forall j label, d <= j < d + num_days ->
      In label (firstn slots_per_day AppointmentService.time_slots) ->
      AppointmentService.slot_exists (slots ++ added)
        (start_date + Z.of_nat j * AppointmentService.day)%Z label = true.
Proof.
  induction num_days as [|n IH]; intros d slots; simpl.
  - exists []. rewrite app_nil_r. repeat split; auto; intros j label Hj; lia.
  - destruct (create_labels_spec (start_date + Z.of_nat d * AppointmentService.day)%Z
                (firstn slots_per_day AppointmentService.time_slots) slots)
      as (a1 & E1 & L1 & P1 & X1).
    rewrite E1.
    destruct (IH (S d) (slots ++ a1)) as (a2 & E2 & L2 & P2 & X2).
    exists (a1 ++ a2). rewrite E2, <- app_assoc. split; [reflexivity|].
    split; [rewrite length_app; lia|]. split.
    + apply Forall_app. split; [|exact P2].
      eapply Forall_impl; [|exact P1]. simpl. intros s (A & B & C). auto.
    + intros j label Hj Hin.
      destruct (Nat.eq_dec j d) as [->|Hne].
      * rewrite app_assoc, slot_exists_app, (X1 _ Hin). reflexivity.
      * rewrite app_assoc. apply X2; [lia | exact Hin].
Qed.

Lemma create_labels_noop (date : time) (labels : list string)
  (slots : list AvailableSlot) :
  (forall label, In label labels ->
     AppointmentService.slot_exists slots date label = true) ->
  fold_left (AppointmentService.create_on date) labels slots = slots.
Proof.
  induction labels as [|l labels IH]; intros H; simpl; [reflexivity|].
  unfold AppointmentService.create_on at 2. rewrite (H l (or_introl eq_refl)).
  apply IH. intros label Hin. apply H. now right.
Qed.

Lemma create_days_noop (start_date : time) (slots_per_day num_days : nat)
  (slots : list AvailableSlot) :
  forall d,
  (forall j label, d <= j < d + num_days ->
     In label (firstn slots_per_day AppointmentService.time_slots) ->
     AppointmentService.slot_exists slots
       (start_date + Z.of_nat j * AppointmentService.day)%Z label = true) ->
  AppointmentService.create_days start_date d num_days slots_per_day slots = slots.
Proof.
  induction num_days as [|n IH]; intros d H; simpl; [reflexivity|].
  rewrite create_labels_noop.
  - apply IH. intros j label Hj. apply H. lia.
  - intros label. apply H. lia.
Qed.

(** X12.  [create_available_slots] keeps every stored slot as it is,
    with its bookings, and adds after them only free slots of capacity 1
    whose labels are among the first [slots_per_day] of the five labels,
    at most one for each day and label.  Afterwards a slot exists for
    every one of the [num_days] days and each of those labels, and
    running it again with the same arguments changes nothing. *)
Theorem create_available_slots_idempotent (db : database) (start_date : time)
  (num_days slots_per_day : nat) :
  let labels := firstn slots_per_day AppointmentService.time_slots in
  let db' :=
    AppointmentService.create_available_slots db start_date num_days slots_per_day in
  (exists added,
     available_slots db' = available_slots db ++ added /\
     List.length added <= num_days * Nat.min slots_per_day 5 /\
     Forall (fun s => In (slot_time s) labels /\ max_capacity s = 1%Z /\
                      current_bookings s = 0%Z /\ is_available s = true) added) /\
  (forall j label, j < num_days -> In label labels ->
     AppointmentService.slot_exists (available_slots db')
       (start_date + Z.of_nat j * AppointmentService.day)%Z label = true) /\
  AppointmentService.create_available_slots db' start_date num_days slots_per_day = db'.
Proof.
  intros labels db'.
  destruct (create_days_spec start_date slots_per_day num_days 0 (available_slots db))
    as (added & E & L & P & X).
  assert (Hs : available_slots db' = available_slots db ++ added) by exact E.
  split; [|split].
  - exists added. split; [exact Hs|]. split; [|exact P].
    rewrite length_firstn in L. exact L.
  - intros j label Hj Hin. rewrite Hs. apply X; [lia | exact Hin].
  - unfold AppointmentService.create_available_slots at 1.
    rewrite create_days_noop.
    + reflexivity.
    + intros j label Hj Hin. rewrite Hs. apply X; [lia | exact Hin].
Qed.

(** ** Generated keys and the lookups by key *)

Lemma find_keyed_from {A : Type} (pk : A -> Z) (rows : list A) :
  forall k,
  (forall i x, nth_error rows i = Some x -> pk x = (Z.of_nat (k + i) + 1)%Z) ->
  forall i x, nth_error rows i = Some x ->
    find (fun y => (pk y =? Z.of_nat (k + i) + 1)%Z) rows = Some x.
Proof.
  induction rows as [|y r IH]; intros k H i x Hx.
  - destruct i; discriminate.
  - destruct i as [|j]; simpl in *.
    + inversion Hx; subst y. rewrite (H 0 x eq_refl). now rewrite Z.eqb_refl.
    + pose proof (H 0 y eq_refl) as Hy.
      replace (pk y =? Z.of_nat (k + S j) + 1)%Z with false
        by (symmetry; apply Z.eqb_neq; lia).
      replace (k + S j) with (S k + j) by lia.
      apply IH; [|exact Hx].
      intros i' x' Hx'. rewrite (H (S i') x' Hx'). f_equal. lia.
Qed.

Lemma find_keyed {A : Type} (pk : A -> Z) (rows : list A) (i : nat) (x : A) :
  keyed pk rows -> nth_error rows i = Some x ->
  find (fun y => (pk y =? Z.of_nat i + 1)%Z) rows = Some x.
Proof. intros H Hx. exact (find_keyed_from pk rows 0 H i x Hx). Qed.

Lemma keyed_app_last {A : Type} (pk : A -> Z) (rows : list A) (x : A) :
  keyed pk rows -> pk x = (Z.of_nat (List.length rows) + 1)%Z ->
  keyed pk (rows ++ [x]).
Proof.
  intros H Hx i y Hy.
  destruct (Nat.lt_ge_cases i (List.length rows)) as [Hlt|Hge].
  - rewrite nth_error_app1 in Hy by exact Hlt. now apply H.
  - rewrite nth_error_app2 in Hy by exact Hge.
    destruct (i - List.length rows) as [|n] eqn:E; simpl in Hy.
    + inversion Hy; subst y. rewrite Hx. f_equal. lia.
    + destruct n; discriminate.
Qed.

Lemma find_app_old {A : Type} (f : A -> bool) (rows : list A) (x : A) :
  f x = false -> find f (rows ++ [x]) = find f rows.
Proof.
  intros Hx. induction rows as [|y r IH]; simpl.
  - now rewrite Hx.
  - destruct (f y); [reflexivity | exact IH].
Qed.

(** X13.  In a database whose request keys are the generated ones, the
    key a run gives its request is the key under which the request
    route returns that request: after a run that is not skipped,
    [get_request] at that key returns the run's request, with the
    subject and body of the message, and at every other key it answers
    what it answered before the run; the keys stay the generated ones. *)
Theorem run_request_is_served (w : EmailWorker.world) (e : EmailWorker.email_data)
  (db : database) :
  keyed request_pk (requests db) ->
  EmailWorker.duplicate_of db (EmailWorker.now_at_gate w) (EmailWorker.subject e) = None ->
  let request_id := (Z.of_nat (List.length (requests db)) + 1)%Z in
  let db' := snd (EmailWorker.process_email_task w e db) in
  (exists r,
     Routes.get_request db' request_id = Routes.Returned r /\
     request_pk r = request_id /\
     email_subject r = EmailWorker.subject e /\
     email_body r = EmailWorker.body e) /\
  (forall other, other <> request_id ->
     Routes.get_request db' other = Routes.get_request db other) /\
  keyed request_pk (requests db').
Proof.
  intros Hk Hdup request_id db'.
  destruct (new_request_row w e db Hdup) as (r & Hr & Hpk & _ & Hs & Hb & _).
  fold db' in Hr. fold request_id in Hpk.
  assert (Hk' : keyed request_pk (requests db')).
  { rewrite Hr. now apply keyed_app_last. }
  split; [|split; [|exact Hk']].
  - exists r. unfold Routes.get_request, request_id.
    rewrite (find_keyed request_pk (requests db') (List.length (requests db)) r Hk').
    + auto.
    + rewrite Hr. apply nth_error_app_last.
  - intros other Hne. unfold Routes.get_request. rewrite Hr.
    rewrite find_app_old; [reflexivity|].
    rewrite Hpk. apply Z.eqb_neq. congruence.
Qed.

Lemma run_request_is_served_witness :
  let w := Sample.world Sample.structured_answer in
  let db' := snd (EmailWorker.process_email_task w Sample.from_bob Sample.pool) in
  (exists r,
     Routes.get_request db' 1 = Routes.Returned r /\
     request_pk r = 1%Z /\
     email_subject r = "Residence permit extension" /\
     email_body r = "Please find my documents attached.") /\
  (forall other, other <> 1%Z ->
     Routes.get_request db' other = Routes.get_request Sample.pool other) /\
  keyed request_pk (requests db').
Proof.
  apply (run_request_is_served (Sample.world Sample.structured_answer)
           Sample.from_bob Sample.pool).
  - intros i x H. destruct i; discriminate.
  - reflexivity.
Defined.

(** ** The appointments of a student *)

Lemma insert_by_date_perm (a : Appointment) (l : list Appointment) :
  Permutation (a :: l) (AppointmentQueries.insert_by_date a l).
Proof.
  induction l as [|b r IH]; simpl; [apply Permutation_refl|].
  destruct (appointment_date a <=? appointment_date b)%Z.
  - apply Permutation_refl.
  - eapply Permutation_trans; [apply perm_swap|]. now apply perm_skip.
Qed.

Lemma order_by_date_perm (l : list Appointment) :
  Permutation l (AppointmentQueries.order_by_date l).
Proof.
  induction l as [|a r IH]; simpl; [constructor|].
  eapply Permutation_trans; [apply perm_skip; exact IH|].
  apply insert_by_date_perm.
Qed.

Lemma insert_by_date_sorted (a : Appointment) (l : list Appointment) :
  StronglySorted by_date l ->
  StronglySorted by_date (AppointmentQueries.insert_by_date a l).
Proof.
  induction 1 as [|b r Hr IH Hb]; simpl.
  - constructor; constructor.
  - destruct (Z.leb_spec (appointment_date a) (appointment_date b)) as [Hle|Hgt].
    + constructor; [constructor; assumption|].
      constructor; [exact Hle|].
      eapply Forall_impl; [|exact Hb]. unfold by_date. intros c Hc. lia.
    + constructor; [exact IH|].
      apply (Permutation_Forall (insert_by_date_perm a r)).
      constructor; [unfold by_date; lia | exact Hb].
Qed.

Lemma order_by_date_sorted (l : list Appointment) :
  StronglySorted by_date (AppointmentQueries.order_by_date l).
Proof.
  induction l as [|a r IH]; simpl; [constructor|].
  now apply insert_by_date_sorted.
Qed.

(** X14.  After [schedule_appointment] has made an appointment in a
    database whose appointment keys are the generated ones,
    [get_appointment_details] and the appointment route at the
    appointment's key return that appointment, and
    [get_student_appointments] for its student returns,
    in ascending order of date, exactly what it returned before together
    with the new appointment; the listing of every other student is what
    it was. *)
Theorem scheduled_appointment_is_listed (db db' : database) (now : time)
  (student_id request_id : Z) (required_documents : pyval) (a : Appointment) :
  keyed appointment_pk (appointments db) ->
  AppointmentService.schedule_appointment db now student_id request_id
    required_documents = (Some a, db') ->
  AppointmentQueries.get_appointment_details db' (appointment_pk a) = Some a /\
  Routes.get_appointment db' (appointment_pk a) = Routes.Returned a /\
  keyed appointment_pk (appointments db') /\
  StronglySorted by_date (AppointmentQueries.get_student_appointments db' student_id) /\
  Permutation (a :: AppointmentQueries.get_student_appointments db student_id)
    (AppointmentQueries.get_student_appointments db' student_id) /\
  (forall other, other <> student_id ->
     AppointmentQueries.get_student_appointments db' other =
     AppointmentQueries.get_student_appointments db other).
Proof.
  intros Hk Hs. unfold AppointmentService.schedule_appointment in Hs.
  destruct (AppointmentService.get_next_available_slot db now) as [[row slot]|];
    [|discriminate].
  inversion Hs; subst a db'; clear Hs.
  match goal with
  | |- context [appointment_pk ?x] => set (a := x)
  end.
  assert (Hk' : keyed appointment_pk (appointments db ++ [a]))
    by (apply keyed_app_last; [exact Hk | reflexivity]).
  assert (Hfind : find (fun x => (appointment_pk x =? appointment_pk a)%Z)
                    (appointments db ++ [a]) = Some a).
  { change (appointment_pk a) with (Z.of_nat (List.length (appointments db)) + 1)%Z.
    apply find_keyed; [exact Hk' | apply nth_error_app_last]. }
  unfold AppointmentQueries.get_appointment_details, Routes.get_appointment,
    AppointmentQueries.get_student_appointments.
  cbn [appointments]. rewrite Hfind.
  split; [reflexivity|].
  split; [reflexivity|split; [exact Hk'|split; [apply order_by_date_sorted|split]]].
  - rewrite filter_app. cbn [filter].
    change (appointment_student_id a) with student_id. rewrite Z.eqb_refl.
    eapply Permutation_trans; [|apply order_by_date_perm].
    eapply Permutation_trans; [|apply Permutation_cons_append].
    apply perm_skip. apply Permutation_sym. apply order_by_date_perm.
  - intros other Hne. rewrite filter_app. cbn [filter].
    change (appointment_student_id a) with student_id.
    replace (student_id =? other)%Z with false
      by (symmetry; apply Z.eqb_neq; congruence).
    now rewrite app_nil_r.
Qed.

Lemma scheduled_appointment_is_listed_witness :
  let db := snd (AppointmentService.schedule_appointment Sample.pool 10 7 1
                   (PList [PStr "passport"])) in
  let a := {| appointment_pk := 2;
              appointment_student_id := 7;
              appointment_request_id := 2;
              appointment_date := 200;
              appointment_time := "10:30";
              appointment_status := "scheduled";
              location := "Immigration Office - Main Building";
              appointment_required_documents := PList [];
              notes := "Automated appointment for request #2" |} in
  let db' := snd (AppointmentService.schedule_appointment db 20 7 2 (PList [])) in
  AppointmentQueries.get_appointment_details db' (appointment_pk a) = Some a /\
  Routes.get_appointment db' (appointment_pk a) = Routes.Returned a /\
  keyed appointment_pk (appointments db') /\
  StronglySorted by_date (AppointmentQueries.get_student_appointments db' 7) /\
  Permutation (a :: AppointmentQueries.get_student_appointments db 7)
    (AppointmentQueries.get_student_appointments db' 7) /\
  (forall other, other <> 7%Z ->
     AppointmentQueries.get_student_appointments db' other =
     AppointmentQueries.get_student_appointments db other).
Proof.
  intros db a db'.
  apply (scheduled_appointment_is_listed db db' 20 7 2 (PList []) a).
  - intros i x H. destruct i as [|[|i]]; simpl in H; try discriminate.
    now inversion H.
  - vm_compute. reflexivity.
Defined.

(** ** The statistics *)

Lemma process_email_task_settled (w : EmailWorker.world) (e : EmailWorker.email_data)
  (db : database) :
  Forall settled (requests db) ->
  Forall settled (requests (snd (EmailWorker.process_email_task w e db))).
Proof.
  intros H.
  destruct (EmailWorker.duplicate_of db (EmailWorker.now_at_gate w)
              (EmailWorker.subject e)) as [id|] eqn:Hdup.
  - unfold EmailWorker.process_email_task. rewrite Hdup. exact H.
  - pose proof (process_email_task_new w e db Hdup) as Hrun. cbv zeta in Hrun.
    assert (Hcat : forall r,
               status (categorized_row w e (documents_text_of w e) r) = status r /\
               request_type (categorized_row w e (documents_text_of w e) r) <> None).
    { intros r. unfold categorized_row.
      destruct (LLMService.categorize_request _ _ _ _); simpl; split;
        try reflexivity; discriminate. }
    destruct (verdict_of w e) as [v|err].
    + destruct (Py.truthy (RagService.is_compliant v)).
      * destruct (AppointmentService.get_next_available_slot db _) as [[i s]|].
        -- destruct Hrun as (a & _ & Hr & _). rewrite Hr.
           apply Forall_app. split; [exact H|]. constructor; [|constructor].
           right. simpl. split; [auto | apply Hcat].
        -- destruct Hrun as (_ & Hr & _). rewrite Hr.
           apply Forall_app. split; [exact H|]. constructor; [|constructor].
           right. simpl. split; [auto | apply Hcat].
      * destruct Hrun as (_ & Hr & _). rewrite Hr.
        apply Forall_app. split; [exact H|]. constructor; [|constructor].
        right. simpl. split; [auto | apply Hcat].
    + destruct Hrun as (_ & Hr & _). rewrite Hr.
      apply Forall_app. split; [exact H|]. constructor; [|constructor].
      left. unfold EmailWorker.with_error. simpl. auto.
Qed.

Lemma run_all_settled (runs : list (EmailWorker.world * EmailWorker.email_data)) :
  forall db, Forall settled (requests db) -> Forall settled (requests (run_all runs db)).
Proof.
  induction runs as [|[w e] runs IH]; intros db H; simpl; [exact H|].
  apply IH. now apply process_email_task_settled.
Qed.

Lemma settled_counts (rows : list Request) :
  Forall settled rows ->
  let count (f : Request -> bool) := List.length (filter f rows) in
  count (fun r => Routes.status_eqb (status r) PENDING) = 0 /\
  count (fun r => Routes.status_eqb (status r) PROCESSING) +
  count (fun r => Routes.status_eqb (status r) CATEGORIZED) +
  count (fun r => Routes.status_eqb (status r) APPOINTMENT_SCHEDULED) =
    List.length rows /\
  count (fun r => match request_type r with
                  | Some t => Routes.type_eqb t RESIDENCE_PERMIT_EXTENSION
                  | None => false end) +
  (count (fun r => match request_type r with
                   | Some t => Routes.type_eqb t RESIDENCE_PERMIT_NEW
                   | None => false end) +
   (count (fun r => match request_type r with
                    | Some t => Routes.type_eqb t VISA_EXTENSION
                    | None => false end) +
    (count (fun r => match request_type r with
                     | Some t => Routes.type_eqb t TEMPORARY_VISA
                     | None => false end) +
     (count (fun r => match request_type r with
                      | Some t => Routes.type_eqb t WORK_PERMIT
                      | None => false end) +
      (count (fun r => match request_type r with
                       | Some t => Routes.type_eqb t OTHER
                       | None => false end) + 0))))) =
    count (fun r => Routes.status_eqb (status r) CATEGORIZED) +
    count (fun r => Routes.status_eqb (status r) APPOINTMENT_SCHEDULED).
Proof.
  cbv zeta. induction 1 as [|r rows Hr Hrows IH]; [simpl; auto|].
  destruct IH as (I1 & I2 & I3).
  destruct Hr as [[Hs Ht] | [[Hs | Hs] Ht]]; cbn [filter]; rewrite Hs;
    destruct (request_type r) as [[]|] eqn:Et; try contradiction; try discriminate;
    cbn [Routes.status_eqb Routes.type_eqb List.length]; lia.
Qed.

(** X15.  After any number of runs of the task, one after the other,
    on a database in which every request was left by a finished run (an
    empty table, for one), the statistics route is consistent: no request
    is counted as pending, the counts of processing, categorized and
    appointment_scheduled add up to the total of requests, and the counts
    by type add up to the categorized and scheduled ones - the requests
    without a type are those stopped in processing. *)
Theorem stats_add_up_after_runs
  (runs : list (EmailWorker.world * EmailWorker.email_data)) (db : database) :
  Forall settled (requests db) ->
  let s := Routes.get_stats (run_all runs db) in
  Routes.pending s = 0 /\
  Routes.processing s + Routes.categorized s + Routes.appointment_scheduled s =
    Routes.total_requests s /\
  typed_requests s = Routes.categorized s + Routes.appointment_scheduled s.
Proof.
  intros H s.
  pose proof (settled_counts _ (run_all_settled runs db H)) as Hc. cbv zeta in Hc.
  exact Hc.
Qed.

Lemma stats_add_up_after_runs_witness :
  let runs :=
    [ (Sample.world Sample.structured_answer, Sample.from_alice);
      ({| EmailWorker.now_at_gate := 90000000000;
          EmailWorker.now_at_insert := 90000000001;
          EmailWorker.now_at_processed := 90000000002;
          EmailWorker.now_at_allocation := 90000000003;
          EmailWorker.path_exists := fun _ => true;
          EmailWorker.extract_text := fun _ => Ok "Scan of a passport page";
          EmailWorker.add_document := fun _ => Ok "vector-1";
          EmailWorker.rag :=
            {| RagService.search_similar := fun _ _ _ => Raised "connection refused";
               RagService.llm_invoke := fun _ _ => Ok "compliant" |};
          EmailWorker.categorizer := fun _ => Ok Sample.category_answer;
          EmailWorker.send_appointment_confirmation := fun _ _ => Ok true |},
       Sample.from_bob) ] in
  let s := Routes.get_stats (run_all runs Sample.pool) in
  Routes.total_requests s = 2 /\
  Routes.pending s = 0 /\
  Routes.processing s + Routes.categorized s + Routes.appointment_scheduled s =
    Routes.total_requests s /\
  typed_requests s = Routes.categorized s + Routes.appointment_scheduled s.
Proof.
  intros runs s. split; [reflexivity|].
  apply (stats_add_up_after_runs runs Sample.pool). constructor.
Defined.

(** ** The categorisation *)

(** X16.  A categoriser that raises does not stop a run: the task still
    answers success, the run's request is categorised as other with the
    label "error", confidence 0 and the text "LLM error: " followed by the
    error in its audit field, it keeps the verdict's compliance flag, and
    it ends categorized or, when an appointment was made, scheduled. *)
Theorem categorisation_failure_is_not_fatal (w : EmailWorker.world)
  (e : EmailWorker.email_data) (db : database) (v : RagService.verdict)
  (llm_error : string) :
  EmailWorker.duplicate_of db (EmailWorker.now_at_gate w) (EmailWorker.subject e) = None ->
  verdict_of w e = Ok v ->
  EmailWorker.categorizer w
    (LLMService.combined_text (EmailWorker.subject e) (EmailWorker.body e)
       (documents_text_of w e)) = Raised llm_error ->
  let request_id := (Z.of_nat (List.length (requests db)) + 1)%Z in
  let res := EmailWorker.process_email_task w e db in
  exists r scheduled,
    fst res = EmailWorker.Success request_id "RequestType.OTHER" scheduled /\
    requests (snd res) = requests db ++ [r] /\
    request_type r = Some OTHER /\
    llm_category r = Some "error" /\
    llm_confidence r = Fin 0 /\
    llm_analysis r = Some ("LLM error: " ++ llm_error)%string /\
    request_is_compliant r = RagService.is_compliant v /\
    status r = (if scheduled then APPOINTMENT_SCHEDULED else CATEGORIZED) /\
    (scheduled = true <-> appointment_id r <> None).
Proof.
  intros Hdup Hv Hllm request_id res.
  pose proof (process_email_task_new w e db Hdup) as Hnew. cbv zeta in Hnew.
  rewrite Hv in Hnew.
  assert (Hcat : forall r,
             categorized_row w e (documents_text_of w e) r =
             EmailWorker.with_category OTHER "error" (Fin 0)
               ("LLM error: " ++ llm_error)%string r).
  { intros r. unfold categorized_row, LLMService.categorize_request.
    now rewrite Hllm. }
  rewrite Hcat in Hnew. cbn [EmailWorker.with_processed_at EmailWorker.with_status
    EmailWorker.with_category request_type EmailWorker.str_of_type] in Hnew.
  destruct (Py.truthy (RagService.is_compliant v)).
  - destruct (AppointmentService.get_next_available_slot db _) as [[i s]|].
    + destruct Hnew as (a & Hres & Hreq & _).
      eexists. exists true. split; [exact Hres|]. split; [exact Hreq|].
      simpl. repeat split; auto; discriminate.
    + destruct Hnew as (Hres & Hreq & _).
      eexists. exists false. split; [exact Hres|]. split; [exact Hreq|].
      simpl. repeat split; auto; try discriminate; intros H; now contradiction H.
  - destruct Hnew as (Hres & Hreq & _).
    eexists. exists false. split; [exact Hres|]. split; [exact Hreq|].
    simpl. repeat split; auto; try discriminate; intros H; now contradiction H.
Qed.

Lemma categorisation_failure_is_not_fatal_witness :
  let w := {| EmailWorker.now_at_gate := 10;
              EmailWorker.now_at_insert := 11;
              EmailWorker.now_at_processed := 12;
              EmailWorker.now_at_allocation := 13;
              EmailWorker.path_exists := fun _ => true;
              EmailWorker.extract_text := fun _ => Ok "Scan of a passport page";
              EmailWorker.add_document := fun _ => Ok "vector-1";
              EmailWorker.rag := Sample.grounded Sample.structured_answer;
              EmailWorker.categorizer := fun _ => Raised "quota exceeded";
              EmailWorker.send_appointment_confirmation := fun _ _ => Ok true |} in
  let res := EmailWorker.process_email_task w Sample.from_alice Sample.pool in
  exists r scheduled,
    fst res = EmailWorker.Success 1 "RequestType.OTHER" scheduled /\
    requests (snd res) = requests Sample.pool ++ [r] /\
    request_type r = Some OTHER /\
    llm_category r = Some "error" /\
    llm_confidence r = Fin 0 /\
    llm_analysis r = Some "LLM error: quota exceeded" /\
    request_is_compliant r = PBool true /\
    status r = (if scheduled then APPOINTMENT_SCHEDULED else CATEGORIZED) /\
    (scheduled = true <-> appointment_id r <> None).
Proof.
  intros w.
  apply (categorisation_failure_is_not_fatal w Sample.from_alice Sample.pool
           {| RagService.is_compliant := PBool true;
              RagService.compliance_score := Py.float 100;
              RagService.present_documents := PList [PStr "passport"];
              RagService.missing_documents := PList [];
              RagService.required_documents := PList [PStr "passport"];
              RagService.issues := PList [];
              RagService.analysis := Sample.structured_answer;
              RagService.relevant_guidelines := ["guideline_residence_permit"] |}
           "quota exceeded").
  - reflexivity.
  - vm_compute. reflexivity.
  - reflexivity.
Defined.

Lemma length_append (a b : string) :
  String.length (a ++ b) = String.length a + String.length b.
Proof. induction a as [|c a IH]; simpl; [reflexivity | now rewrite IH]. Qed.

Lemma substring_taken (a b : string) :
  String.substring 0 (String.length (a ++ b) - String.length b) (a ++ b) = a.
Proof.
  rewrite length_append. replace (String.length a + String.length b - String.length b)
    with (String.length a) by lia.
  induction a as [|c a IH]; simpl.
  - now destruct b.
  - now rewrite IH.
Qed.

Lemma lit_char {R : Type} (c d : ascii) (k : @Re.cont R) (t : string) :
  Re.lit (String c EmptyString) k (String d t) = if Ascii.eqb c d then k t else None.
Proof.
  unfold Re.lit. cbn [Json.drop_prefix]. destruct (Ascii.eqb c d); [|reflexivity].
  now destruct t.
Qed.

Lemma lit_char_nil {R : Type} (c : ascii) (k : @Re.cont R) :
  Re.lit (String c EmptyString) k EmptyString = None.
Proof. reflexivity. Qed.

Lemma greedy_dot_no_brace (text : string) :
  Text.contains "}" text = false ->
  Re.greedy_dot (Re.lit "}" Some) text = None.
Proof.
  induction text as [|c t IH].
  - reflexivity.
  - rewrite contains_char. intros H. apply orb_false_iff in H. destruct H as [Hc Ht].
    cbn [Re.greedy_dot]. rewrite (IH Ht), lit_char, Ascii.eqb_sym, Hc. reflexivity.
Qed.

Lemma greedy_dot_last_brace (inside after : string) :
  Text.contains "}" after = false ->
  Re.greedy_dot (Re.lit "}" Some) (inside ++ "}" ++ after) = Some after.
Proof.
  intros Ha. induction inside as [|c t IH].
  - change (EmptyString ++ "}" ++ after)%string with (String "}" after).
    cbn [Re.greedy_dot]. rewrite (greedy_dot_no_brace after Ha), lit_char.
    now rewrite Ascii.eqb_refl.
  - change ((String c t) ++ "}" ++ after)%string with (String c (t ++ "}" ++ after)).
    cbn [Re.greedy_dot]. now rewrite IH.
Qed.

Lemma json_pattern_other (c : ascii) (t : string) :
  Ascii.eqb c "{" = false ->
  LLMService.json_pattern Some (String c t) = None.
Proof.
  intros Hc. unfold LLMService.json_pattern. rewrite lit_char, Ascii.eqb_sym, Hc.
  reflexivity.
Qed.

Lemma search_text_first_brace (before rest : string) :
  Text.contains "{" before = false ->
  Re.search_text LLMService.json_pattern (before ++ rest) =
  Re.search_text LLMService.json_pattern rest.
Proof.
  induction before as [|c t IH]; [reflexivity|].
  rewrite contains_char. intros H. apply orb_false_iff in H. destruct H as [Hc Ht].
  change ((String c t) ++ rest)%string with (String c (t ++ rest)).
  cbn [Re.search_text]. rewrite (json_pattern_other _ _ Hc). now apply IH.
Qed.

Lemma search_text_no_brace (text : string) :
  Text.contains "{" text = false ->
  Re.search_text LLMService.json_pattern text = None.
Proof.
  induction text as [|c t IH]; [reflexivity|].
  rewrite contains_char. intros H. apply orb_false_iff in H. destruct H as [Hc Ht].
  cbn [Re.search_text]. rewrite (json_pattern_other _ _ Hc). now apply IH.
Qed.

Lemma search_text_outermost (before inside after : string) :
  Text.contains "{" before = false ->
  Text.contains "}" after = false ->
  Re.search_text LLMService.json_pattern (before ++ "{" ++ inside ++ "}" ++ after) =
  Some ("{" ++ inside ++ "}")%string.
Proof.
  intros Hb Ha. rewrite (search_text_first_brace _ _ Hb).
  change ("{" ++ inside ++ "}" ++ after)%string
    with (String "{" (inside ++ "}" ++ after)).
  cbn [Re.search_text]. unfold LLMService.json_pattern at 1.
  rewrite lit_char, Ascii.eqb_refl, (greedy_dot_last_brace inside after Ha).
  f_equal.
  change (String "{" (inside ++ "}" ++ after))%string
    with (("{" ++ inside) ++ "}" ++ after)%string.
  rewrite <- (string_app_assoc ("{" ++ inside) "}" after).
  apply substring_taken.
Qed.

(** X17.  The categoriser decodes the text from the first opening brace
    of the answer to its last closing brace, and nothing else: for an
    answer with no opening brace before a span in braces and no closing
    brace after it, the category, confidence, explanation and key
    information are those of the span taken alone, and the answer is kept
    whole as the raw response.  An answer without an opening brace gives
    the fallback: other, confidence 0. *)
Theorem categorisation_reads_outermost_braces (before inside after : string) :
  Text.contains "{" before = false ->
  Text.contains "}" after = false ->
  let response_text := (before ++ "{" ++ inside ++ "}" ++ after)%string in
  let c := LLMService._parse_categorization response_text in
  let c0 := LLMService._parse_categorization ("{" ++ inside ++ "}")%string in
  LLMService.category c = LLMService.category c0 /\
  LLMService.confidence c = LLMService.confidence c0 /\
  LLMService.explanation c = LLMService.explanation c0 /\
  LLMService.key_info c = LLMService.key_info c0 /\
  LLMService.raw_response c = response_text /\
  (Text.contains "{" after = false ->
   LLMService._parse_categorization (before ++ after) =
   LLMService.fallback (before ++ after)).
Proof.
  intros Hb Ha response_text c c0. subst c c0.
  unfold LLMService._parse_categorization.
  pose proof (search_text_outermost before inside after Hb Ha) as E.
  fold response_text in E. rewrite E.
  pose proof (search_text_outermost EmptyString inside EmptyString eq_refl eq_refl) as E0.
  change (EmptyString ++ "{" ++ inside ++ "}" ++ EmptyString)%string
    with ("{" ++ inside ++ "}")%string in E0.
  rewrite E0.
  assert (Hraw : forall text,
            LLMService.raw_response
              match Json.loads ("{" ++ inside ++ "}") with
              | Some (PDict parsed) =>
                  match LLMService.category_of (Py.get parsed "category" (PStr "other")),
                        LLMService.to_float (Py.get parsed "confidence" (Py.float 0)) with
                  | Some c, Some f =>
                      {| LLMService.category := c;
                         LLMService.confidence := f;
                         LLMService.explanation :=
                           Py.get parsed "explanation" (PStr EmptyString);
                         LLMService.key_info := Py.get parsed "key_info" (PStr EmptyString);
                         LLMService.raw_response := text |}
                  | _, _ => LLMService.fallback text
                  end
              | _ => LLMService.fallback text
              end = text).
  { intros text.
    destruct (Json.loads _) as [[ | | | | | |parsed]|]; try reflexivity.
    destruct (LLMService.category_of _); [|reflexivity].
    destruct (LLMService.to_float _); reflexivity. }
  split; [|split; [|split; [|split; [|split]]]].
  - destruct (Json.loads _) as [[ | | | | | |parsed]|]; try reflexivity.
    destruct (LLMService.category_of _); [|reflexivity].
    destruct (LLMService.to_float _); reflexivity.
  - destruct (Json.loads _) as [[ | | | | | |parsed]|]; try reflexivity.
    destruct (LLMService.category_of _); [|reflexivity].
    destruct (LLMService.to_float _); reflexivity.
  - destruct (Json.loads _) as [[ | | | | | |parsed]|]; try reflexivity.
    destruct (LLMService.category_of _); [|reflexivity].
    destruct (LLMService.to_float _); reflexivity.
  - destruct (Json.loads _) as [[ | | | | | |parsed]|]; try reflexivity.
    destruct (LLMService.category_of _); [|reflexivity].
    destruct (LLMService.to_float _); reflexivity.
  - apply Hraw.
  - intros Ha'. rewrite search_text_no_brace; [reflexivity|].
    now rewrite contains_char_app, Hb, Ha'.
Qed.

Lemma categorisation_reads_outermost_braces_witness :
  let response_text :=
    ("Sure! Here is the JSON: " ++ Sample.category_answer ++ " Let me know.")%string in
  let c := LLMService._parse_categorization response_text in
  LLMService.category c = VISA_EXTENSION /\
  LLMService.confidence c = Fin 95 /\
  LLMService.explanation c = PStr "asks for more time" /\
  LLMService.key_info c = PStr EmptyString /\
  LLMService.raw_response c = response_text /\
  (Text.contains "{" " Let me know." = false ->
   LLMService._parse_categorization ("Sure! Here is the JSON: " ++ " Let me know.") =
   LLMService.fallback ("Sure! Here is the JSON: " ++ " Let me know.")).
Proof.
  apply (categorisation_reads_outermost_braces "Sure! Here is the JSON: "
           (Text.quoted "category" ++ ": " ++ Text.quoted "visa_extension" ++ ", " ++
            Text.quoted "confidence" ++ ": 95, " ++
            Text.quoted "explanation" ++ ": " ++ Text.quoted "asks for more time")
           " Let me know."); reflexivity.
Defined.

(** ** First come, first served *)

Lemma bookable_earlier (now now' : time) (s : AvailableSlot) :
  (now <= now')%Z ->
  AppointmentService.bookable now' s = true -> AppointmentService.bookable now s = true.
Proof.
  unfold AppointmentService.bookable. intros Hle H.
  apply andb_true_iff in H. destruct H as [H H3].
  apply andb_true_iff in H. destruct H as [H1 H2].
  rewrite H1, H3. apply Z.ltb_lt in H2.
  replace (now <? slot_date s)%Z with true by (symmetry; apply Z.ltb_lt; lia).
  reflexivity.
Qed.

Lemma bookable_before_booking (now : time) (s : AvailableSlot) :
  AppointmentService.bookable now (AppointmentService.book s) = true ->
  AppointmentService.bookable now s = true.
Proof.
  unfold AppointmentService.bookable, AppointmentService.book. simpl. intros H.
  apply andb_true_iff in H. destruct H as [H H3].
  apply andb_true_iff in H. destruct H as [H1 H2].
  apply Z.ltb_lt in H3.
  destruct (max_capacity s <=? current_bookings s + 1)%Z; [discriminate|].
  rewrite H1, H2. apply Z.ltb_lt. lia.
Qed.

Lemma none_before_later (bound : Z) (now now' : time) (slots : list AvailableSlot) :
  (now <= now')%Z -> none_before bound now slots -> none_before bound now' slots.
Proof.
  intros Hle H s Hin Hb. apply (H s Hin). eapply bookable_earlier; eauto.
Qed.

Lemma none_before_booked (bound : Z) (now : time) (slots : list AvailableSlot)
  (i : nat) :
  none_before bound now slots ->
  none_before bound now (AppointmentService.update_row i AppointmentService.book slots).
Proof.
  intros H s Hin Hb. apply In_update_row in Hin.
  destruct Hin as [Hin | (y & Hy & ->)].
  - now apply H.
  - change (slot_date (AppointmentService.book y)) with (slot_date y).
    apply H; [eapply nth_error_In; eauto | now apply bookable_before_booking].
Qed.

Lemma none_before_picked (db : database) (now : time) (i : nat) (s : AvailableSlot) :
  AppointmentService.get_next_available_slot db now = Some (i, s) ->
  In s (available_slots db) /\
  AppointmentService.bookable now s = true /\
  none_before (slot_date s) now (available_slots db).
Proof.
  intros Hpick.
  pose proof (get_next_available_slot_spec db now) as Hspec. rewrite Hpick in Hspec.
  destruct Hspec as (Hnth & Hb & Hmin).
  split; [eapply nth_error_In; eauto|]. split; [exact Hb|].
  intros s' Hin Hb'. apply In_nth_error in Hin. destruct Hin as [j Hj].
  now apply (Hmin j s' Hj Hb').
Qed.

Lemma run_attempts_dates (attempts : list AppointmentService.attempt) :
  forall (db : database) (bound : Z) (now : time),
    none_before bound now (available_slots db) ->
    StronglySorted Z.le (now :: map AppointmentService.attempt_time attempts) ->
    let dates := appointment_dates (fst (AppointmentService.run_attempts db attempts)) in
    Forall (Z.le bound) dates /\ StronglySorted Z.le dates.
Proof.
  induction attempts as [|a rest IH]; intros db bound now Hb Hs; simpl.
  - split; constructor.
  - inversion Hs as [|x l Hs' Hall]; subst. simpl in Hs', Hall.
    inversion Hall as [|y l' Hle Hall']; subst.
    apply (none_before_later _ _ _ _ Hle) in Hb.
    unfold AppointmentService.schedule_appointment.
    destruct (AppointmentService.get_next_available_slot db
                (AppointmentService.attempt_time a)) as [[i s]|] eqn:Hpick.
    + destruct (none_before_picked _ _ _ _ Hpick) as (Hin & Hbook & Hmin).
      match goal with
      | |- context [AppointmentService.run_attempts ?d rest] =>
          pose proof (IH d (slot_date s) (AppointmentService.attempt_time a)) as IH';
          destruct (AppointmentService.run_attempts d rest) as [answers db2] eqn:Er
      end.
      cbn [available_slots] in IH'.
      destruct (IH' (none_before_booked _ _ _ i Hmin) Hs') as (F & S). simpl in F, S.
      simpl. split.
      * constructor; [now apply Hb|].
        eapply Forall_impl; [|exact F]. simpl. intros d Hd.
        pose proof (Hb s Hin Hbook). lia.
      * constructor; assumption.
    + pose proof (IH db bound (AppointmentService.attempt_time a) Hb Hs') as IH'.
      destruct (AppointmentService.run_attempts db rest) as [answers db2] eqn:Er.
      simpl in IH'. simpl. exact IH'.
Qed.

(** X18.  Appointments are handed out first come, first served: in a
    series of allocation attempts made one after the other on a clock
    that does not go back, the dates of the appointments made never
    decrease, so that no request is given an earlier slot than a request
    served before it. *)
Theorem allocation_in_date_order (db : database)
  (attempts : list AppointmentService.attempt) :
  StronglySorted Z.le (map AppointmentService.attempt_time attempts) ->
  StronglySorted Z.le
    (appointment_dates (fst (AppointmentService.run_attempts db attempts))).
Proof.
  intros Hs. destruct attempts as [|a rest]; [constructor|].
  set (now := AppointmentService.attempt_time a).
  destruct (AppointmentService.get_next_available_slot db now) as [[i s]|] eqn:Hpick.
  - destruct (none_before_picked _ _ _ _ Hpick) as (_ & _ & Hmin).
    apply (run_attempts_dates (a :: rest) db (slot_date s) now Hmin).
    constructor; [exact Hs|]. constructor; [apply Z.le_refl|].
    inversion Hs; assumption.
  - apply (run_attempts_dates (a :: rest) db 0%Z now).
    + intros s Hin Hb.
      pose proof (get_next_available_slot_spec db now) as Hspec.
      rewrite Hpick in Hspec. rewrite (Hspec s Hin) in Hb. discriminate.
    + constructor; [exact Hs|]. constructor; [apply Z.le_refl|].
      inversion Hs; assumption.
Qed.

Lemma allocation_in_date_order_witness :
  let attempts := [Sample.try_at 10 1; Sample.try_at 20 2; Sample.try_at 250 3;
                   Sample.try_at 300 4] in
  appointment_dates (fst (AppointmentService.run_attempts Sample.pool attempts)) =
    [200; 200; 300]%Z /\
  StronglySorted Z.le
    (appointment_dates (fst (AppointmentService.run_attempts Sample.pool attempts))).
Proof.
  intros attempts. split; [reflexivity|].
  apply (allocation_in_date_order Sample.pool attempts).
  repeat constructor; discriminate.
Defined.

(** ** The body of a message *)

Lemma body_step_source (body : string) (p : EmailService.part) :
  EmailService.body_step body p = body \/
  (EmailService.is_attachment p = false /\
   (EmailService.part_content_type p = "text/plain" \/
    EmailService.part_content_type p = "text/html") /\
   EmailService.decoded p = Some (EmailService.body_step body p)).
Proof.
  unfold EmailService.body_step.
  destruct (EmailService.is_attachment p); [now left|].
  destruct (String.eqb_spec (EmailService.part_content_type p) "text/plain") as [Hp|_].
  - destruct (EmailService.decoded p); [right; auto | now left].
  - destruct (String.eqb_spec (EmailService.part_content_type p) "text/html") as [Hh|_];
      [|now left].
    destruct (String.eqb body EmptyString); [|now left].
    destruct (EmailService.decoded p); [right; auto | now left].
Qed.

Lemma body_fold_source (parts : list EmailService.part) :
  forall body,
  let final := fold_left EmailService.body_step parts body in
  final = body \/
  exists p,
    In p parts /\ EmailService.is_attachment p = false /\
    (EmailService.part_content_type p = "text/plain" \/
     EmailService.part_content_type p = "text/html") /\
    EmailService.decoded p = Some final.
Proof.
  induction parts as [|p rest IH]; intros body; simpl; [now left|].
  destruct (IH (EmailService.body_step body p)) as [E | (q & Hin & Hq)].
  - rewrite E. destruct (body_step_source body p) as [E' | H].
    + now left.
    + right. exists p. split; [now left | exact H].
  - right. exists q. split; [now right | exact Hq].
Qed.

Lemma body_fold_kept (parts : list EmailService.part) (text : string) :
  text <> EmptyString ->
  Forall (fun q => readable_plain q = false) parts ->
  fold_left EmailService.body_step parts text = text.
Proof.
  intros Hne. induction 1 as [|q rest Hq _ IH]; simpl; [reflexivity|].
  assert (E : EmailService.body_step text q = text).
  { unfold EmailService.body_step. unfold readable_plain in Hq.
    destruct (EmailService.is_attachment q); [reflexivity|].
    destruct (String.eqb (EmailService.part_content_type q) "text/plain").
    - destruct (EmailService.decoded q); [discriminate | reflexivity].
    - destruct (String.eqb (EmailService.part_content_type q) "text/html");
        [|reflexivity].
      destruct (String.eqb_spec text EmptyString); [contradiction | reflexivity]. }
  now rewrite E.
Qed.

(** X19.  The body [_get_email_body] returns for a multipart message is
    never read from a part whose disposition mentions "attachment": it is
    empty, or it is the decoded text of a part that is not an attachment
    and is text/plain or text/html.  Plain text wins over HTML wherever
    the HTML parts stand: when the last plain part that is not an
    attachment and can be decoded has a text that is not empty, that text
    is the body. *)
Theorem email_body_source (email_message : EmailService.message) :
  EmailService.is_multipart email_message = true ->
  let body := EmailService._get_email_body email_message in
  (body = EmptyString \/
   exists p,
     In p (EmailService.walk email_message) /\
     EmailService.is_attachment p = false /\
     (EmailService.part_content_type p = "text/plain" \/
      EmailService.part_content_type p = "text/html") /\
     EmailService.decoded p = Some body) /\
  (forall before p after text,
     EmailService.walk email_message = before ++ p :: after ->
     readable_plain p = true ->
     EmailService.decoded p = Some text ->
     text <> EmptyString ->
     Forall (fun q => readable_plain q = false) after ->
     body = text).
Proof.
  intros Hm body. unfold body, EmailService._get_email_body. rewrite Hm. split.
  - apply (body_fold_source (EmailService.walk email_message) EmptyString).
  - intros before p after text Hw Hp Hd Hne Hafter.
    rewrite Hw, fold_left_app. cbn [fold_left].
    assert (E : forall b, EmailService.body_step b p = text).
    { intros b. unfold EmailService.body_step. unfold readable_plain in Hp.
      apply andb_true_iff in Hp. destruct Hp as [Hp _].
      apply andb_true_iff in Hp. destruct Hp as [Ha Ht].
      apply negb_true_iff in Ha. now rewrite Ha, Ht, Hd. }
    rewrite E. now apply body_fold_kept.
Qed.

Lemma email_body_source_witness :
  let html := {| EmailService.part_content_type := "text/html";
                 EmailService.content_disposition := "None";
                 EmailService.decoded := Some "<p>I need a visa extension.</p>" |} in
  let plain := {| EmailService.part_content_type := "text/plain";
                  EmailService.content_disposition := "inline";
                  EmailService.decoded := Some "I need a visa extension." |} in
  let notes := {| EmailService.part_content_type := "text/plain";
                  EmailService.content_disposition := "attachment; filename=notes.txt";
                  EmailService.decoded := Some "Notes of the lecture." |} in
  let email_message :=
    {| EmailService.is_multipart := true;
       EmailService.walk := [html; plain; notes; html];
       EmailService.simple_payload := None |} in
  EmailService._get_email_body email_message = "I need a visa extension.".
Proof.
  intros html plain notes email_message.
  apply (proj2 (email_body_source email_message eq_refl) [html] plain [notes; html]);
    try reflexivity; try discriminate.
  repeat constructor.
Defined.

(** ** The choice of the guideline *)


(** ** The requests of a student *)

Lemma filter_app_last {A : Type} (f : A -> bool) (l : list A) (x : A) :
  f x = true -> filter f (l ++ [x]) = filter f l ++ [x].
Proof. intros H. rewrite filter_app. simpl. now rewrite H. Qed.

(** X21.  After a run that is not skipped, the route that lists the
    requests of a student answers, for the student of the run's request,
    with the requests that student had before followed by the run's
    request; it does not answer that the student is not found. *)
Theorem run_request_is_listed_for_student (w : EmailWorker.world)
  (e : EmailWorker.email_data) (db : database) :
  EmailWorker.duplicate_of db (EmailWorker.now_at_gate w) (EmailWorker.subject e) = None ->
  let db' := snd (EmailWorker.process_email_task w e db) in
  exists r,
    requests db' = requests db ++ [r] /\
    Routes.get_student_requests db' (request_student_id r) =
      Routes.Returned
        (filter (fun q => (request_student_id q =? request_student_id r)%Z)
           (requests db) ++ [r]).
Proof.
  intros Hdup db'.
  destruct (process_email_task_tables w e db Hdup) as (Hst & _). cbv zeta in Hst.
  fold db' in Hst.
  destruct (new_request_row w e db Hdup) as (r & Hr & _ & Hsid & _). fold db' in Hr.
  destruct (find_or_create_student_spec db (EmailWorker.sender e)) as (Hin & _).
  rewrite <- Hst in Hin.
  exists r. split; [exact Hr|].
  unfold Routes.get_student_requests.
  destruct (find (fun st => (student_pk st =? request_student_id r)%Z) (students db'))
    as [student|] eqn:Ef.
  - apply find_some in Ef. destruct Ef as [_ Hpk]. apply Z.eqb_eq in Hpk.
    rewrite Hpk, Hr. f_equal. apply filter_app_last. apply Z.eqb_refl.
  - exfalso.
    pose proof (find_none _ _ Ef _ Hin) as Hn. simpl in Hn.
    rewrite Hsid, Z.eqb_refl in Hn. discriminate.
Qed.

Lemma run_request_is_listed_for_student_witness :
  let w := Sample.world Sample.structured_answer in
  let bob_again :=
    {| EmailWorker.subject := "Re: my documents";
       EmailWorker.sender := "Bob <bob@uni.example>";
       EmailWorker.body := "One more passport page.";
       EmailWorker.attachments := [] |} in
  let db := snd (EmailWorker.process_email_task w Sample.from_bob Sample.pool) in
  let db' := snd (EmailWorker.process_email_task w bob_again db) in
  exists r,
    requests db' = requests db ++ [r] /\
    Routes.get_student_requests db' (request_student_id r) =
      Routes.Returned
        (filter (fun q => (request_student_id q =? request_student_id r)%Z)
           (requests db) ++ [r]) /\
    List.length (filter (fun q => (request_student_id q =? request_student_id r)%Z)
                   (requests db)) = 1.
Proof.
  intros w bob_again db db'.
  destruct (run_request_is_listed_for_student w bob_again db eq_refl) as (r & Hr & Hl).
  exists r. split; [exact Hr|]. split; [exact Hl|].
  fold db' in Hr.
  assert (E : request_student_id r = 1%Z).
  { assert (H : option_map request_student_id (nth_error (requests db') 1) = Some 1%Z)
      by (vm_compute; reflexivity).
    rewrite Hr in H. change 1 with (List.length (requests db)) in H at 1.
    rewrite nth_error_app_last in H. now inversion H. }
  rewrite E. reflexivity.
Defined.
